(** * Security monitoring and threat detection (security.py)

    A shallow embedding of [SecurityHandler] from [security.py] and of the
    helpers of [utils.py] it calls, with the properties of the
    specification proved about it.

    Conventions of the embedding:
    - the attributes of the handler and everything the handler can change
      around it (file system, log sink, speech sink, threads) live in one
      record [World];
    - everything the handler can only observe (clock, psutil readings,
      faults of the speech engine, the digest function of hashlib) lives
      in a read-only record [Env], indexed by the number of external calls
      made so far ([tick]);
    - a method is a function in the monad [M]: it reads [Env], updates
      [World] and either returns a value or raises an exception;
    - Python floats are idealised: percentages are rationals ([Q]), the
      entropy is a real number ([R]). *)

From Stdlib Require Import ZArith QArith Reals Lra Lia String Ascii List.
From Equations Require Import Equations.
From stdpp Require Import gmap strings list.

Local Open Scope string_scope.
Local Open Scope Z_scope.

(** ** Strings *)

Module Str.

(** [str.lower()] and [str.upper()] on ASCII text: the letters A to Z, a to
    z are changed and every other character is kept. Python changes the
    letters outside ASCII as well, which these functions do not follow: the
    statements about names that go through them are made for ASCII names
    ([is_ascii]). *)
Definition lower_char (c : ascii) : ascii :=
  let n := nat_of_ascii c in
  if ((65 <=? n) && (n <=? 90))%nat then ascii_of_nat (n + 32) else c.

Definition upper_char (c : ascii) : ascii :=
  let n := nat_of_ascii c in
  if ((97 <=? n) && (n <=? 122))%nat then ascii_of_nat (n - 32) else c.

Fixpoint lower (s : string) : string :=
  match s with
  | EmptyString => EmptyString
  | String c r => String (lower_char c) (lower r)
  end.

Fixpoint upper (s : string) : string :=
  match s with
  | EmptyString => EmptyString
  | String c r => String (upper_char c) (upper r)
  end.

(** [str.isascii()]. *)
Definition is_ascii (s : string) : bool :=
  forallb (fun c => (nat_of_ascii c <? 128)%nat) (list_ascii_of_string s).

(** [needle in hay] on strings. *)
Fixpoint contains (needle hay : string) : bool :=
  String.prefix needle hay ||
  match hay with
  | EmptyString => false
  | String _ r => contains needle r
  end.

(** [c in s] for a character. *)
Fixpoint has (c : ascii) (s : string) : bool :=
  match s with
  | EmptyString => false
  | String x r => Ascii.eqb x c || has c r
  end.

(** [x in xs] for a list (or set literal) of strings. *)
Definition mem (x : string) (xs : list string) : bool :=
  existsb (String.eqb x) xs.

(** The part of [s] after the last occurrence of [sep] and the part
    before it ([None] when [sep] does not occur). *)
Fixpoint rsplit (sep : ascii) (s : string) : option string * string :=
  match s with
  | EmptyString => (None, EmptyString)
  | String c r =>
      match rsplit sep r with
      | (Some h, t) => (Some (String c h), t)
      | (None, t) =>
          if Ascii.eqb c sep then (Some EmptyString, t)
          else (None, String c t)
      end
  end.

(** Decimal rendering, zero padded to [width] digits. *)
Fixpoint digits (fuel : nat) (n : Z) (acc : string) : string :=
  match fuel with
  | O => acc
  | S f =>
      let d := ascii_of_nat (48 + Z.to_nat (n mod 10)) in
      if n <? 10 then String d acc else digits f (n / 10) (String d acc)
  end.

Definition of_Z (n : Z) : string :=
  if n <? 0 then "-" +:+ digits (Z.to_nat (Z.log2 (- n)) + 1) (- n) ""
  else digits (Z.to_nat (Z.log2 n) + 1) n "".

Fixpoint zeros (k : nat) : string :=
  match k with
  | O => ""
  | S k' => String "0" (zeros k')
  end.

Definition pad (width : nat) (n : Z) : string :=
  let s := of_Z n in
  zeros (width - String.length s) +:+ s.

End Str.

(** ** Dates and times *)

(** A naive [datetime.datetime]. *)
Record datetime := mk_datetime {
  year : Z; month : Z; day : Z;
  hour : Z; minute : Z; second : Z; microsecond : Z
}.

Module Datetime.

Definition is_leap (y : Z) : bool :=
  (y mod 4 =? 0) && (negb (y mod 100 =? 0) || (y mod 400 =? 0)).

Definition days_before_year (y : Z) : Z :=
  let p := y - 1 in p * 365 + p / 4 - p / 100 + p / 400.

Definition days_in_month (y m : Z) : Z :=
  if m =? 2 then (if is_leap y then 29 else 28)
  else if (m =? 4) || (m =? 6) || (m =? 9) || (m =? 11) then 30
  else 31.

Definition days_before_month (y m : Z) : Z :=
  fold_right Z.add 0
    (map (days_in_month y) (map Z.of_nat (seq 1 (Z.to_nat (m - 1))))).

(** [toordinal()]: days since 0001-01-01, counted from 1. *)
Definition ymd2ord (y m d : Z) : Z :=
  days_before_year y + days_before_month y m + d.

(** Position on the time line, in microseconds. Comparison of naive
    datetimes and subtraction of a [timedelta] are arithmetic on it. *)
Definition to_micros (t : datetime) : Z :=
  (((ymd2ord (year t) (month t) (day t) * 24 + hour t) * 60
    + minute t) * 60 + second t) * 1000000 + microsecond t.

Definition hours (h : Z) : Z := h * 3600 * 1000000.
Definition days (d : Z) : Z := hours (24 * d).

(** [t > now - delta], [delta] a [timedelta] in microseconds. *)
Definition newer_than (t now : datetime) (delta : Z) : bool :=
  to_micros now - delta <? to_micros t.

(** [strftime('%Y%m%d_%H%M%S')]. *)
Definition strftime_compact (t : datetime) : string :=
  Str.pad 4 (year t) +:+ Str.pad 2 (month t) +:+ Str.pad 2 (day t) +:+ "_"
  +:+ Str.pad 2 (hour t) +:+ Str.pad 2 (minute t) +:+ Str.pad 2 (second t).

End Datetime.

(** ** Exceptions and outcomes *)

(** An instance of a subclass of [Exception]: its class and [str(e)]. *)
Record exn := Exn { exn_class : string; exn_msg : string }.

Inductive outcome (A : Type) : Type :=
| Return (a : A)
| Raise (e : exn).
Arguments Return {A} a.
Arguments Raise {A} e.

(** ** Data model *)

Inductive Severity := high | medium | low.

(** One element of [psutil.process_iter([...])]: the [info] dictionary. *)
Record proc_info := mk_proc_info {
  pid : Z;
  name : option string;
  exe : option string;
  cmdline : option (list string);
  cpu_percent : option Q;
  memory_percent : option Q
}.

(** One element of [psutil.net_connections(kind='inet')]. *)
Record connection := mk_connection {
  status : string;
  raddr : option (string * Z);
  conn_pid : option Z
}.

Definition CONN_ESTABLISHED : string := "ESTABLISHED".

(** An element of [threats_found]; the description of the source is a text
    derived from the value the constructor carries. *)
Inductive finding :=
| suspicious_extension (file_ext : string)
| large_file_size (size : Z)
| high_entropy (entropy : R)
| known_malware_hash.

Definition finding_type (f : finding) : string :=
  match f with
  | suspicious_extension _ => "suspicious_extension"
  | large_file_size _ => "large_file_size"
  | high_entropy _ => "high_entropy"
  | known_malware_hash => "known_malware_hash"
  end.

(** The dictionary [result] of [scan_file_for_threats]. *)
Record scan_result := mk_scan_result {
  file_path : string;
  file_size : Z;
  scan_time : datetime;
  threats_found : list finding;
  is_safe : bool;
  file_hash : option string
}.

(** What [scan_file_for_threats] returns: [{'error': msg}] or [result]. *)
Inductive scan_return :=
| ScanError (msg : string)
| ScanReport (r : scan_result).

(** The [details] payload of a threat entry, one constructor per call site
    of [log_threat]. *)
Inductive Details :=
| DProc (p : proc_info)
| DCpu (cpu : Q)
| DMemory (mem : Q)
| DDisk (disk : Q)
| DConn (remote_ip : string) (remote_port : Z) (cpid : option Z)
| DScan (r : scan_result)
| DQuarantine (original_path quarantine_path : string) (quarantined_at : datetime).

(** An element of [threat_log]. The source stores [datetime.now().isoformat()]
    under ['timestamp'] and reads it back with [datetime.fromisoformat]; the
    entry keeps the datetime itself. *)
Record ThreatEntry := mk_entry {
  timestamp : datetime;
  threat_type : string;
  details : Details;
  severity : Severity
}.

(** What the handler leaves behind outside its own attributes. *)
Inductive event :=
| EvLog (level message : string)
| EvSay (text : string)
| EvSleep (seconds : Z)
| EvThreadStart (tid : nat) (interval : Z).

(** A file system entry. *)
Inductive node :=
| File (content : list Byte.byte) (readable : bool)
| Dir (st_size : Z).

(** A thread running [_monitoring_loop]. *)
Record thread := mk_thread { th_interval : Z; th_alive : bool }.

(** ** Environment and world *)

Record Env := mk_env {
  env_now : nat -> datetime;
  env_speak : nat -> option exn;
  env_process_iter : nat -> outcome (list (outcome proc_info));
  env_cpu_percent : nat -> outcome Q;
  env_virtual_memory : nat -> outcome Q;
  env_disk_usage : nat -> outcome Q;
  env_net_io_counters : nat -> option exn;
  env_net_connections : nat -> outcome (list connection);
  env_makedirs : nat -> option exn;
  env_move : nat -> option exn;
  hashlib_sha256 : list Byte.byte -> string;
  py_str : Details -> string
}.

Record World := mk_world {
  is_monitoring : bool;
  monitoring_thread : option nat;
  threat_log : list ThreatEntry;
  whitelisted_processes : gset string;
  baseline_processes : gset string;
  fs : gmap string node;
  threads : list thread;
  trace : list event;
  tick : nat
}.

Definition set_is_monitoring (b : bool) (w : World) : World :=
  mk_world b (monitoring_thread w) (threat_log w) (whitelisted_processes w)
    (baseline_processes w) (fs w) (threads w) (trace w) (tick w).

Definition set_monitoring_thread (t : option nat) (w : World) : World :=
  mk_world (is_monitoring w) t (threat_log w) (whitelisted_processes w)
    (baseline_processes w) (fs w) (threads w) (trace w) (tick w).

Definition set_threat_log (l : list ThreatEntry) (w : World) : World :=
  mk_world (is_monitoring w) (monitoring_thread w) l (whitelisted_processes w)
    (baseline_processes w) (fs w) (threads w) (trace w) (tick w).

Definition set_whitelisted_processes (s : gset string) (w : World) : World :=
  mk_world (is_monitoring w) (monitoring_thread w) (threat_log w) s
    (baseline_processes w) (fs w) (threads w) (trace w) (tick w).

Definition set_fs (f : gmap string node) (w : World) : World :=
  mk_world (is_monitoring w) (monitoring_thread w) (threat_log w)
    (whitelisted_processes w) (baseline_processes w) f (threads w) (trace w)
    (tick w).

Definition set_threads (t : list thread) (w : World) : World :=
  mk_world (is_monitoring w) (monitoring_thread w) (threat_log w)
    (whitelisted_processes w) (baseline_processes w) (fs w) t (trace w)
    (tick w).

Definition set_trace (t : list event) (w : World) : World :=
  mk_world (is_monitoring w) (monitoring_thread w) (threat_log w)
    (whitelisted_processes w) (baseline_processes w) (fs w) (threads w) t
    (tick w).

Definition set_tick (n : nat) (w : World) : World :=
  mk_world (is_monitoring w) (monitoring_thread w) (threat_log w)
    (whitelisted_processes w) (baseline_processes w) (fs w) (threads w)
    (trace w) n.

(** ** The monad of methods *)

Definition M (A : Type) : Type := Env -> World -> outcome A * World.

Definition ret {A} (a : A) : M A := fun _ w => (Return a, w).

Definition bind {A B} (m : M A) (k : A -> M B) : M B :=
  fun env w =>
    match m env w with
    | (Return a, w') => k a env w'
    | (Raise e, w') => (Raise e, w')
    end.

Definition raise {A} (e : exn) : M A := fun _ w => (Raise e, w).

(** [try: m except Exception as e: h e]. *)
Definition try_except {A} (m : M A) (h : exn -> M A) : M A :=
  fun env w =>
    match m env w with
    | (Return a, w') => (Return a, w')
    | (Raise e, w') => h e env w'
    end.

Definition get : M World := fun _ w => (Return w, w).

Definition modify (f : World -> World) : M unit := fun _ w => (Return tt, f w).

Definition emit (e : event) : M unit :=
  modify (fun w => set_trace (trace w ++ [e]) w).

(** An external call: the environment's answer at the current tick. *)
Definition ask {A} (oracle : Env -> nat -> A) : M A :=
  fun env w => (Return (oracle env (tick w)), set_tick (S (tick w)) w).

(** Something read off the environment without a call of its own. *)
Definition asks {A} (f : Env -> A) : M A := fun env w => (Return (f env), w).

Definition lift_outcome {A} (o : outcome A) : M A :=
  match o with
  | Return a => ret a
  | Raise e => raise e
  end.

Definition lift_fault (o : option exn) : M unit :=
  match o with
  | None => ret tt
  | Some e => raise e
  end.

Declare Scope monad_scope.
Delimit Scope monad_scope with monad.
Notation "'let*' x ':=' m 'in' k" := (bind m (fun x => k))
  (at level 10, x name, m at level 100, k at level 200) : monad_scope.
Notation "m ';;;' k" := (bind m (fun _ => k))
  (at level 100, k at level 200, right associativity) : monad_scope.
Local Open Scope monad_scope.

(** [when c: m]. *)
Definition when (c : bool) (m : M unit) : M unit := if c then m else ret tt.

(** [for x in xs: body x]. *)
Fixpoint for_each {A} (xs : list A) (body : A -> M unit) : M unit :=
  match xs with
  | [] => ret tt
  | x :: r => body x ;;; for_each r body
  end.

(** [[x for x in xs if cond x]], with [cond] a computation. *)
Fixpoint filterM {A} (cond : A -> M bool) (xs : list A) : M (list A) :=
  match xs with
  | [] => ret []
  | x :: r =>
      let* b := cond x in
      let* r' := filterM cond r in
      ret (if b then x :: r' else r')
  end.

(** ** utils.py *)

Definition LOG_LEVELS : list string :=
  ["DEBUG"; "INFO"; "WARNING"; "ERROR"; "CRITICAL"].

Definition log_message (message : string) (level : string) : M unit :=
  when (Str.mem (Str.upper level) LOG_LEVELS) (emit (EvLog (Str.upper level) message)).

Definition speak (text : string) : M unit :=
  log_message ("Speaking: " +:+ text) "INFO" ;;;
  (let* fault := ask env_speak in lift_fault fault) ;;;
  emit (EvSay text).

(** ** The clock *)

Definition datetime_now : M datetime := ask env_now.

(** ** Threat log *)

Definition high_severity : list string :=
  ["suspicious_process"; "malware_detected"; "unauthorized_access";
   "suspicious_network_connection"].

Definition medium_severity : list string :=
  ["high_cpu_usage"; "high_memory_usage"; "unusual_file_activity"].

Definition get_threat_severity (threat_type : string) : Severity :=
  if Str.mem threat_type high_severity then high
  else if Str.mem threat_type medium_severity then medium
  else low.

Definition Severity_eqb (a b : Severity) : bool :=
  match a, b with
  | high, high | medium, medium | low, low => true
  | _, _ => false
  end.

(** [l[-n:]] for [n > 0]. *)
Definition slice_last {A} (n : nat) (l : list A) : list A :=
  skipn (length l - n) l.

Definition log_threat (threat_type : string) (d : Details) : M unit :=
  let* now := datetime_now in
  let threat_entry :=
    {| timestamp := now; threat_type := threat_type; details := d;
       severity := get_threat_severity threat_type |} in
  modify (fun w => set_threat_log (threat_log w ++ [threat_entry]) w) ;;;
  (let* w := get in
   when (1000 <? length (threat_log w))%nat
     (modify (fun w => set_threat_log (slice_last 1000 (threat_log w)) w))) ;;;
  let* s := asks (fun env => py_str env d) in
  log_message ("SECURITY THREAT: " +:+ threat_type +:+ " - " +:+ s) "WARNING" ;;;
  when (Severity_eqb (severity threat_entry) high)
    (speak ("Security alert: " +:+ threat_type +:+ " detected")).

(** A sequence of [log_threat] calls, each made by a caller of its own: a
    call that raises (the speech engine failing on a high severity alert)
    does not keep the later ones from being made. *)
Definition log_threats (calls : list (string * Details)) (env : Env) (w : World)
  : World :=
  fold_left (fun w c => snd (log_threat (fst c) (snd c) env w)) calls w.

(** The entry a [log_threat] call builds when the clock is read at [t]. *)
Definition entry_of (env : Env) (t : nat) (c : string * Details) : ThreatEntry :=
  {| timestamp := env_now env t; threat_type := fst c; details := snd c;
     severity := get_threat_severity (fst c) |}.

(** ** config.py *)

Definition SECURITY_SCAN_INTERVAL : Z := 300.

Definition SUSPICIOUS_PROCESSES : list string :=
  ["keylogger"; "trojan"; "malware"; "virus"; "backdoor"; "rootkit"; "spyware"].

Definition LOGS_DIR : string := "logs".
Definition DATA_DIR : string := "data".

(** ** Construction of the handler *)

Definition baseline : gset string :=
  list_to_set
    ["explorer.exe"; "dwm.exe"; "winlogon.exe"; "csrss.exe";
     "lsass.exe"; "services.exe"; "svchost.exe"; "chrome.exe";
     "firefox.exe"; "notepad.exe"; "calculator.exe"; "taskmgr.exe";
     "code.exe"; "spotify.exe"; "slack.exe"; "discord.exe";
     "python.exe"; "pythonw.exe"; "conhost.exe"; "cmd.exe"].

(** [SecurityHandler()] in a process whose file system is [files]:
    [__init__] followed by [load_security_data]. *)
Definition SecurityHandler (files : gmap string node) : World :=
  {| is_monitoring := false;
     monitoring_thread := None;
     threat_log := [];
     whitelisted_processes := baseline;
     baseline_processes := baseline;
     fs := files;
     threads := [];
     trace := [EvLog "INFO" "Security data loaded successfully"];
     tick := 0%nat |}.

(** ** Comparisons of percentages *)

Definition Qgtb (a b : Q) : bool := negb (Qle_bool a b).

(** [x and x > bound] for a reading that may be [None]. *)
Definition truthy_and_gt (x : option Q) (bound : Q) : bool :=
  match x with
  | Some q => negb (Qeq_bool q 0) && Qgtb q bound
  | None => false
  end.

(** ** Monitoring checks *)

Definition PSUTIL_SKIPPED : list string :=
  ["NoSuchProcess"; "AccessDenied"; "ZombieProcess"].

(** [try: m except (psutil.NoSuchProcess, psutil.AccessDenied,
    psutil.ZombieProcess): h]. *)
Definition try_except_psutil {A} (m : M A) (h : M A) : M A :=
  fun env w =>
    match m env w with
    | (Return a, w') => (Return a, w')
    | (Raise e, w') =>
        if Str.mem (exn_class e) PSUTIL_SKIPPED then h env w'
        else (Raise e, w')
    end.

Definition is_suspicious_name (proc_name_lower : string) : bool :=
  existsb (fun suspicious_term => Str.contains suspicious_term proc_name_lower)
    SUSPICIOUS_PROCESSES.

(** [name not in self.whitelisted_processes]. *)
Definition not_whitelisted (proc_name : string) : M bool :=
  let* w := get in
  ret (negb (bool_decide (proc_name ∈ whitelisted_processes w))).

(** The checks of one process that can raise: the three [log_threat] calls. *)
Definition flag_process (info : proc_info) (proc_name : string) : M unit :=
  when (is_suspicious_name (Str.lower proc_name))
    (log_threat "suspicious_process" (DProc info)) ;;;
  when (truthy_and_gt (cpu_percent info) (90 # 1))
    (let* unknown := not_whitelisted proc_name in
     when unknown (log_threat "high_cpu_usage" (DProc info))) ;;;
  when (truthy_and_gt (memory_percent info) (50 # 1))
    (let* unknown := not_whitelisted proc_name in
     when unknown (log_threat "high_memory_usage" (DProc info))).

(** The body of the loop over [psutil.process_iter]; [acc] holds the lists
    [current_processes] and [suspicious_processes]. Both appends precede the
    call that can raise after them, so they are kept when the rest of the
    element is skipped. *)
Definition scan_process (acc : list proc_info * list proc_info)
    (proc : outcome proc_info) : M (list proc_info * list proc_info) :=
  match proc with
  | Raise e =>
      if Str.mem (exn_class e) PSUTIL_SKIPPED then ret acc else raise e
  | Return info =>
      match name info with
      | None | Some "" => ret acc
      | Some proc_name =>
          let acc' :=
            (fst acc ++ [info],
             if is_suspicious_name (Str.lower proc_name)
             then snd acc ++ [info] else snd acc)%list in
          try_except_psutil (flag_process info proc_name) (ret tt) ;;;
          ret acc'
      end
  end.

Fixpoint scan_processes (procs : list (outcome proc_info))
    (acc : list proc_info * list proc_info)
  : M (list proc_info * list proc_info) :=
  match procs with
  | [] => ret acc
  | proc :: rest =>
      let* acc' := scan_process acc proc in
      scan_processes rest acc'
  end.

Definition proc_names (procs : list proc_info) : gset string :=
  list_to_set (omap name procs).

(** The [try] block of [scan_running_processes]. *)
Definition scan_running_processes_try : M unit :=
  let* procs := ask env_process_iter in
  let* procs := lift_outcome procs in
  let* acc := scan_processes procs ([], []) in
  let* w := get in
  let new_processes := proc_names (fst acc) ∖ whitelisted_processes w in
  for_each (elements new_processes)
    (fun proc_name =>
       log_message ("New process detected: " +:+ proc_name) "INFO") ;;;
  when (negb (length (snd acc) =? 0)%nat)
    (log_message
       ("Found " +:+ Str.of_Z (Z.of_nat (length (snd acc)))
        +:+ " suspicious processes") "INFO").

Definition scan_running_processes : M unit :=
  try_except scan_running_processes_try
    (fun e => log_message ("Process scan failed: " +:+ exn_msg e) "ERROR").

(** The [try] block of [check_system_resources]. *)
Definition check_system_resources_try : M unit :=
  let* cpu := ask env_cpu_percent in
  let* cpu_percent := lift_outcome cpu in
  when (Qgtb cpu_percent (95 # 1))
    (log_threat "high_system_cpu" (DCpu cpu_percent)) ;;;
  let* memory := ask env_virtual_memory in
  let* memory_percent := lift_outcome memory in
  when (Qgtb memory_percent (90 # 1))
    (log_threat "high_system_memory" (DMemory memory_percent)) ;;;
  let* disk := ask env_disk_usage in
  let* disk_percent := lift_outcome disk in
  when (Qgtb disk_percent (95 # 1))
    (log_threat "low_disk_space" (DDisk disk_percent)) ;;;
  let* network := ask env_net_io_counters in
  lift_fault network.

Definition check_system_resources : M unit :=
  try_except check_system_resources_try
    (fun e =>
       log_message ("System resource check failed: " +:+ exn_msg e) "ERROR").

Definition suspicious_ports : list Z := [1337; 31337; 12345; 54321; 9999].

Definition check_connection (suspicious_connections : list connection)
    (conn : connection) : M (list connection) :=
  if String.eqb (status conn) CONN_ESTABLISHED then
    match raddr conn with
    | Some (remote_ip, remote_port) =>
        if existsb (Z.eqb remote_port) suspicious_ports then
          log_threat "suspicious_network_connection"
            (DConn remote_ip remote_port (conn_pid conn)) ;;;
          ret (suspicious_connections ++ [conn])%list
        else ret suspicious_connections
    | None => ret suspicious_connections
    end
  else ret suspicious_connections.

Fixpoint check_connections (connections : list connection)
    (suspicious_connections : list connection) : M (list connection) :=
  match connections with
  | [] => ret suspicious_connections
  | conn :: rest =>
      let* acc := check_connection suspicious_connections conn in
      check_connections rest acc
  end.

(** The [try] block of [monitor_network_connections]. *)
Definition monitor_network_connections_try : M unit :=
  let* conns := ask env_net_connections in
  let* connections := lift_outcome conns in
  let* suspicious_connections := check_connections connections [] in
  when (negb (length suspicious_connections =? 0)%nat)
    (log_message
       ("Found " +:+ Str.of_Z (Z.of_nat (length suspicious_connections))
        +:+ " suspicious network connections") "INFO").

Definition monitor_network_connections : M unit :=
  try_except monitor_network_connections_try
    (fun e => log_message ("Network monitoring failed: " +:+ exn_msg e) "ERROR").

(** ** Monitoring loop *)

(** The longest sleep, in seconds, that [time.sleep] takes: it converts its
    argument to a signed 64 bit count of nanoseconds, and 9223372037
    seconds no longer fit. *)
Definition MAX_SLEEP : Z := 9223372036.

(** [time.sleep(interval)] for an [int]: the conversion to nanoseconds comes
    first and raises OverflowError, the sign is tested after it. *)
Definition time_sleep (interval : Z) : M unit :=
  if MAX_SLEEP <? Z.abs interval then
    raise (Exn "OverflowError" "timestamp too large to convert to C _PyTime_t")
  else if interval <? 0 then
    raise (Exn "ValueError" "sleep length must be non-negative")
  else emit (EvSleep interval).

(** The [try] block of the loop body. *)
Definition monitoring_cycle_try (interval : Z) : M unit :=
  scan_running_processes ;;;
  check_system_resources ;;;
  monitor_network_connections ;;;
  time_sleep interval.

(** The body of [while self.is_monitoring]. *)
Definition monitoring_cycle (interval : Z) : M unit :=
  try_except (monitoring_cycle_try interval)
    (fun e =>
       log_message ("Security monitoring error: " +:+ exn_msg e) "ERROR" ;;;
       time_sleep interval).

Inductive loop_state := Looping | Finished.

(** [_monitoring_loop], observed for [fuel] tests of the loop condition:
    [Finished] when a test found the flag cleared and the method returned,
    [Looping] when the method is still in the loop after [fuel] iterations. *)
Fixpoint _monitoring_loop (fuel : nat) (interval : Z) : M loop_state :=
  match fuel with
  | O => ret Looping
  | S fuel' =>
      let* w := get in
      if is_monitoring w then
        monitoring_cycle interval ;;; _monitoring_loop fuel' interval
      else ret Finished
  end.

(** [threading.Thread(target=self._monitoring_loop, args=(interval,),
    daemon=True)] followed by [start()]: the new thread is the next entry of
    [threads]. *)
Definition thread_start (interval : Z) : M nat :=
  let* w := get in
  let tid := length (threads w) in
  modify (fun w => set_threads (threads w ++ [mk_thread interval true]) w) ;;;
  emit (EvThreadStart tid interval) ;;;
  ret tid.

Definition start_monitoring (interval : Z) : M unit :=
  let* w := get in
  if is_monitoring w then
    log_message "Security monitoring is already running" "INFO"
  else
    modify (set_is_monitoring true) ;;;
    let* tid := thread_start interval in
    modify (set_monitoring_thread (Some tid)) ;;;
    log_message "Security monitoring started" "INFO" ;;;
    speak "Security monitoring activated".

Definition stop_monitoring : M unit :=
  modify (set_is_monitoring false) ;;;
  log_message "Security monitoring stopped" "INFO" ;;;
  speak "Security monitoring deactivated".

(** ** File system *)

Module Path.

(** [os.path.basename] (POSIX). *)
Definition basename (p : string) : string := snd (Str.rsplit "/" p).

(** [os.path.dirname] (POSIX), up to trailing separators. *)
Definition dirname (p : string) : string :=
  match fst (Str.rsplit "/" p) with
  | Some d => d
  | None => ""
  end.

Definition ends_with_sep (a : string) : bool :=
  match Str.rsplit "/" a with
  | (Some _, "") => true
  | _ => false
  end.

(** [os.path.join a b] (POSIX). *)
Definition join (a b : string) : string :=
  if String.prefix "/" b then b
  else if String.eqb a "" || ends_with_sep a then a +:+ b
  else a +:+ "/" +:+ b.

Fixpoint all_dots (s : string) : bool :=
  match s with
  | EmptyString => true
  | String c r => Ascii.eqb c "." && all_dots r
  end.

(** [os.path.splitext(p)[1]]: from the last dot of the last component, when
    something other than dots stands before it there. *)
Definition splitext_ext (p : string) : string :=
  match Str.rsplit "." (basename p) with
  | (Some stem, e) => if all_dots stem then "" else "." +:+ e
  | (None, _) => ""
  end.

(** The non-empty prefixes of [s] that end before a separator, then [s]. *)
Fixpoint prefixes (pre s : string) : list string :=
  match s with
  | EmptyString => [pre]
  | String c r =>
      (if Ascii.eqb c "/" && negb (String.eqb pre "") then [pre] else [])
      ++ prefixes (pre +:+ String c EmptyString) r
  end.

End Path.

Definition os_path_exists (p : string) : M bool :=
  let* w := get in
  ret (bool_decide (is_Some (fs w !! p))).

Definition os_path_getsize (p : string) : M Z :=
  let* w := get in
  match fs w !! p with
  | Some (File content _) => ret (Z.of_nat (length content))
  | Some (Dir st_size) => ret st_size
  | None => raise (Exn "FileNotFoundError" p)
  end.

(** [open(p, 'rb')] and the reads that follow: the whole content, or the
    exception of [open]. *)
Definition open_rb (p : string) : M (list Byte.byte) :=
  let* w := get in
  match fs w !! p with
  | Some (File content true) => ret content
  | Some (File _ false) => raise (Exn "PermissionError" p)
  | Some (Dir _) => raise (Exn "IsADirectoryError" p)
  | None => raise (Exn "FileNotFoundError" p)
  end.

Definition is_dir (f : gmap string node) (p : string) : bool :=
  match f !! p with
  | Some (Dir _) => true
  | _ => false
  end.

Definition is_file (f : gmap string node) (p : string) : bool :=
  match f !! p with
  | Some (File _ _) => true
  | _ => false
  end.

(** The file system after the missing directories on the way to [d], and
    [d] itself, have been created. *)
Definition makedirs_fs (d : string) (f : gmap string node) : gmap string node :=
  fold_left (fun f p => if is_dir f p then f else <[p := Dir 4096]> f)
    (Path.prefixes "" d) f.

(** [os.makedirs(d)]: every missing directory on the way is created; a file
    on the way, or anything at [d] itself, is an error. *)
Definition os_makedirs (d : string) : M unit :=
  let* fault := ask env_makedirs in
  lift_fault fault ;;;
  let* w := get in
  if bool_decide (is_Some (fs w !! d)) then raise (Exn "FileExistsError" d)
  else if existsb (is_file (fs w)) (Path.prefixes "" d) then
    raise (Exn "NotADirectoryError" d)
  else modify (fun w => set_fs (makedirs_fs d (fs w)) w).

(** The place of a path below [src] after [src] has become [dst]. *)
Definition rebase (src dst p : string) : string :=
  if String.eqb p src then dst
  else if String.prefix (src +:+ "/") p then
    dst +:+ String.substring (String.length src)
              (String.length p - String.length src) p
  else p.

(** [shutil.move(src, dst)] within one file system: into [dst] when it is a
    directory, a rename otherwise. *)
Definition shutil_move (src dst : string) : M unit :=
  let* fault := ask env_move in
  lift_fault fault ;;;
  let* w := get in
  let real_dst :=
    if is_dir (fs w) dst then Path.join dst (Path.basename src) else dst in
  if is_dir (fs w) dst && bool_decide (is_Some (fs w !! real_dst)) then
    raise (Exn "Error" ("Destination path '" +:+ real_dst +:+ "' already exists"))
  else
    match fs w !! src with
    | None => raise (Exn "FileNotFoundError" src)
    | Some (File content readable) =>
        if is_dir (fs w) real_dst then raise (Exn "IsADirectoryError" real_dst)
        else if negb (String.eqb (Path.dirname real_dst) "")
                && negb (is_dir (fs w) (Path.dirname real_dst)) then
          raise (Exn "FileNotFoundError" real_dst)
        else
          modify (fun w =>
            set_fs (<[real_dst := File content readable]> (delete src (fs w))) w)
    | Some (Dir _) =>
        if String.prefix (src +:+ "/") (real_dst +:+ "/") then
          raise (Exn "Error" "Cannot move a directory into itself")
        else if bool_decide (is_Some (fs w !! real_dst)) then
          raise (Exn "OSError" real_dst)
        else
          modify (fun w =>
            set_fs (list_to_map
                      (map (fun kv => (rebase src real_dst (fst kv), snd kv))
                         (map_to_list (fs w)))) w)
    end.

(** ** Hashing *)

Definition file_read (n : Z) (stream : list Byte.byte)
  : list Byte.byte * list Byte.byte :=
  if n <? 0 then (stream, [])
  else (firstn (Z.to_nat n) stream, skipn (Z.to_nat n) stream).

Definition inspect {A} (a : A) : {b : A | a = b} := exist _ a eq_refl.

(** The chunks that successive [f.read(n)] return until the empty one. *)
Equations? read_chunks (n : Z) (stream : list Byte.byte)
  : list (list Byte.byte) by wf (length stream) lt :=
  read_chunks n stream with inspect (fst (file_read n stream)) := {
    | exist _ [] _ := [];
    | exist _ (b :: chunk) Hread :=
        (b :: chunk) :: read_chunks n (snd (file_read n stream)) }.
Proof.
  unfold file_read in *. destruct (n <? 0); simpl in *.
  - subst stream. simpl. lia.
  - rewrite length_skipn.
    destruct (Z.to_nat n); [discriminate |].
    destruct stream; [discriminate | simpl; lia].
Qed.

(** [calculate_file_hash(file_path)] with the default algorithm: the chunks
    fed to [update] one after the other are hashed as their concatenation. *)
Definition calculate_file_hash (file_path : string) : M (option string) :=
  try_except
    (let* content := open_rb file_path in
     let* digest :=
       asks (fun env => hashlib_sha256 env (concat (read_chunks 8192 content))) in
     ret (Some digest))
    (fun e =>
       log_message ("Failed to calculate hash for " +:+ file_path +:+ ": "
                    +:+ exn_msg e) "ERROR" ;;;
       ret None).

Definition known_bad_hashes : list string :=
  ["44d88612fea8a8f36de82e1278abb02f"].

Definition check_hash_reputation (file_hash : option string) : M bool :=
  try_except
    (match file_hash with
     | Some h => ret (Str.mem (Str.lower h) known_bad_hashes)
     | None =>
         raise (Exn "AttributeError" "'NoneType' object has no attribute 'lower'")
     end)
    (fun e =>
       log_message ("Hash reputation check failed: " +:+ exn_msg e) "ERROR" ;;;
       ret false).

(** ** Entropy *)

(** A [collections.Counter] over byte values: its items in insertion order. *)
Fixpoint counter_incr (byte_counts : list (Byte.byte * nat)) (b : Byte.byte)
  : list (Byte.byte * nat) :=
  match byte_counts with
  | [] => [(b, 1%nat)]
  | (k, v) :: rest =>
      if Byte.eqb k b then (k, S v) :: rest
      else (k, v) :: counter_incr rest b
  end.

(** [for byte in chunk: byte_counts[byte] += 1; total_bytes += 1]. *)
Definition count_chunk (st : list (Byte.byte * nat) * nat)
    (chunk : list Byte.byte) : list (Byte.byte * nat) * nat :=
  fold_left (fun st b => (counter_incr (fst st) b, S (snd st))) chunk st.

(** The [while True] loop over the chunks of the file. *)
Definition count_stream (block_size : Z) (content : list Byte.byte)
  : list (Byte.byte * nat) * nat :=
  fold_left count_chunk (read_chunks block_size content) ([], 0%nat).

(** [math.log2]. *)
Definition log2 (x : R) : R := (ln x / ln 2)%R.

(** The body of [for count in byte_counts.values()]. *)
Definition entropy_step (total_bytes : nat) (entropy : R) (count : nat) : R :=
  let probability := (INR count / INR total_bytes)%R in
  if Rlt_dec 0 probability then (entropy - probability * log2 probability)%R
  else entropy.

Definition entropy_of_counts (byte_counts : list (Byte.byte * nat))
    (total_bytes : nat) : R :=
  fold_left (entropy_step total_bytes) (map snd byte_counts) 0%R.

Definition calculate_file_entropy (file_path : string) (block_size : Z) : M R :=
  try_except
    (let* content := open_rb file_path in
     let (byte_counts, total_bytes) := count_stream block_size content in
     if (total_bytes =? 0)%nat then ret 0%R
     else ret (entropy_of_counts byte_counts total_bytes))
    (fun e =>
       log_message ("Failed to calculate entropy for " +:+ file_path +:+ ": "
                    +:+ exn_msg e) "ERROR" ;;;
       ret 0%R).






(** ** File scanner *)

Definition suspicious_extensions : list string :=
  [".exe"; ".scr"; ".bat"; ".cmd"; ".pif"; ".com"; ".vbs"; ".js"].

Definition LARGE_FILE : Z := 100 * 1024 * 1024.

(** The four checks, in the order of the source; each adds at most one
    finding to [threats_found]. *)
Definition extension_finding (file_ext : string) : list finding :=
  if Str.mem file_ext suspicious_extensions
  then [suspicious_extension file_ext] else [].

Definition size_finding (size : Z) : list finding :=
  if LARGE_FILE <? size then [large_file_size size] else [].

Definition entropy_finding (entropy : R) : list finding :=
  if Rgt_dec entropy 7.5 then [high_entropy entropy] else [].

Definition reputation_finding (known_bad : bool) : list finding :=
  if known_bad then [known_malware_hash] else [].

Definition scan_file_for_threats (file_path : string) : M scan_return :=
  try_except
    (let* found := os_path_exists file_path in
     if negb found then ret (ScanError "File not found")
     else
       let* size := os_path_getsize file_path in
       let* now := datetime_now in
       let* digest := calculate_file_hash file_path in
       let file_ext := Str.lower (Path.splitext_ext file_path) in
       let threats := extension_finding file_ext in
       let threats := (threats ++ size_finding size)%list in
       let* entropy := calculate_file_entropy file_path 1024 in
       let threats := (threats ++ entropy_finding entropy)%list in
       let* known_bad := check_hash_reputation digest in
       let threats := (threats ++ reputation_finding known_bad)%list in
       let result :=
         {| file_path := file_path; file_size := size; scan_time := now;
            threats_found := threats;
            is_safe := (length threats =? 0)%nat;
            file_hash := digest |} in
       when (negb (is_safe result))
         (log_threat "file_threat_detected" (DScan result)) ;;;
       log_message ("File scan completed: " +:+ file_path +:+ " - "
                    +:+ (if is_safe result then "Safe" else "Threats found"))
         "INFO" ;;;
       ret (ScanReport result))
    (fun e =>
       log_message ("File scan failed for " +:+ file_path +:+ ": "
                    +:+ exn_msg e) "ERROR" ;;;
       ret (ScanError (exn_msg e))).

(** ** Quarantine *)

Definition quarantine_dir : string := Path.join DATA_DIR "quarantine".

(** The destination of a file quarantined when the clock shows [t]. *)
Definition quarantine_path_of (file_path : string) (t : datetime) : string :=
  Path.join quarantine_dir
    (Datetime.strftime_compact t +:+ "_" +:+ Path.basename file_path).

Definition quarantine_file (file_path : string) : M bool :=
  try_except
    (let* found := os_path_exists file_path in
     if negb found then ret false
     else
       let* dir_found := os_path_exists quarantine_dir in
       when (negb dir_found) (os_makedirs quarantine_dir) ;;;
       let filename := Path.basename file_path in
       let* now := datetime_now in
       let quarantine_path := quarantine_path_of file_path now in
       shutil_move file_path quarantine_path ;;;
       let* quarantined_at := datetime_now in
       log_threat "file_quarantined"
         (DQuarantine file_path quarantine_path quarantined_at) ;;;
       log_message ("File quarantined: " +:+ file_path +:+ " -> "
                    +:+ quarantine_path) "INFO" ;;;
       speak ("Suspicious file quarantined: " +:+ filename) ;;;
       ret true)
    (fun e =>
       log_message ("Failed to quarantine file " +:+ file_path +:+ ": "
                    +:+ exn_msg e) "ERROR" ;;;
       ret false).

(** ** Status *)

Inductive Health := good | warning | critical.

Record SecurityStatus := mk_status {
  monitoring_active : bool;
  recent_threats : nat;
  total_threats_logged : nat;
  last_scan : datetime;
  system_health : Health;
  recommendations : list string
}.

Inductive status_return :=
| StatusError (msg : string)
| StatusReport (s : SecurityStatus).

Definition set_health (h : Health) (rec : string) (s : SecurityStatus)
  : SecurityStatus :=
  mk_status (monitoring_active s) (recent_threats s) (total_threats_logged s)
    (last_scan s) h (recommendations s ++ [rec]).

(** [datetime.fromisoformat(t['timestamp']) > datetime.now() - timedelta(hours=h)]. *)
Definition within_hours (h : Z) (t : ThreatEntry) : M bool :=
  let* now := datetime_now in
  ret (Datetime.newer_than (timestamp t) now (Datetime.hours h)).

Definition recent_high (t : ThreatEntry) : M bool :=
  if Severity_eqb (severity t) high then within_hours 1 t else ret false.

Definition get_system_security_status : M status_return :=
  try_except
    (let* w := get in
     let* recent := filterM (within_hours 24) (threat_log w) in
     let* now := datetime_now in
     let status :=
       {| monitoring_active := is_monitoring w;
          recent_threats := length recent;
          total_threats_logged := length (threat_log w);
          last_scan := now;
          system_health := good;
          recommendations := [] |} in
     let* cpu := ask env_cpu_percent in
     let* cpu_percent := lift_outcome cpu in
     let* memory := ask env_virtual_memory in
     let* memory_percent := lift_outcome memory in
     let* disk := ask env_disk_usage in
     let* disk_percent := lift_outcome disk in
     let status :=
       if Qgtb cpu_percent (80 # 1)
       then set_health warning "High CPU usage detected" status else status in
     let status :=
       if Qgtb memory_percent (85 # 1)
       then set_health warning "High memory usage detected" status
       else status in
     let status :=
       if Qgtb disk_percent (90 # 1)
       then set_health critical "Low disk space - cleanup recommended" status
       else status in
     let* w := get in
     let* recent_high_threats := filterM recent_high (threat_log w) in
     let status :=
       if negb (length recent_high_threats =? 0)%nat
       then set_health critical "Recent high-severity threats detected" status
       else status in
     ret (StatusReport status))
    (fun e =>
       log_message ("Failed to get security status: " +:+ exn_msg e) "ERROR" ;;;
       ret (StatusError (exn_msg e))).

(** ** Threads and callers *)

Definition set_thread_dead (tid : nat) (w : World) : World :=
  set_threads (alter (fun th => mk_thread (th_interval th) false) tid (threads w)) w.

(** Thread [tid] gets the processor at the head of its loop: it tests
    [self.is_monitoring] and either leaves the method or runs one whole
    iteration, sleep included. A thread whose method has returned, or has
    let an exception escape, is dead. A schedule made of such turns lets a
    call from outside arrive while the thread stands at its test or is in
    its sleep, not in the middle of a check: it serves to exhibit
    executions, not to range over all of them. *)
Definition thread_turn (tid : nat) (env : Env) (w : World) : World :=
  match threads w !! tid with
  | Some th =>
      if th_alive th then
        match _monitoring_loop 1 (th_interval th) env w with
        | (Return Looping, w') => w'
        | (_, w') => set_thread_dead tid w'
        end
      else w
  | None => w
  end.

(** What can happen to the handler: calls from the dispatch layer and turns
    of the monitoring threads. *)
Inductive action :=
| CallStart (interval : Z)
| CallStop
| CallStatus
| ThreadTurn (tid : nat).

Definition step (env : Env) (w : World) (a : action) : World :=
  match a with
  | CallStart interval => snd (start_monitoring interval env w)
  | CallStop => snd (stop_monitoring env w)
  | CallStatus => snd (get_system_security_status env w)
  | ThreadTurn tid => thread_turn tid env w
  end.

Definition run (env : Env) (actions : list action) (w : World) : World :=
  fold_left (step env) actions w.

(** The monitoring threads that are running. *)
Definition live_threads (w : World) : list thread :=
  filter (fun th => th_alive th = true) (threads w).

(** ** A quiet machine, for examples *)

Definition quiet_env : Env :=
  {| env_now := fun t => mk_datetime 2024 3 1 12 0 0 (Z.of_nat t);
     env_speak := fun _ => None;
     env_process_iter := fun _ => Return [];
     env_cpu_percent := fun _ => Return (12 # 1);
     env_virtual_memory := fun _ => Return (40 # 1);
     env_disk_usage := fun _ => Return (55 # 1);
     env_net_io_counters := fun _ => None;
     env_net_connections := fun _ => Return [];
     env_makedirs := fun _ => None;
     env_move := fun _ => None;
     hashlib_sha256 := fun _ =>
       "e3b0c44298fc1c149afbf4c8996fb92427ae41e4649b934ca495991b7852b855";
     py_str := fun _ => "{...}" |}.

(** ** Vocabulary of the properties *)

(** A method that never lets an exception escape. *)
Definition returns {A} (m : M A) : Prop :=
  forall env w, exists a, fst (m env w) = Return a.

(** A relation between the world before and after that a method keeps. *)
Definition keeps (R : World -> World -> Prop) {A} (m : M A) : Prop :=
  forall env w, R w (snd (m env w)).

(** The log after [new] entries have been inserted one at a time. *)
Definition log_after (old new : list ThreatEntry) : list ThreatEntry :=
  match new with
  | [] => old
  | _ => slice_last 1000 (old ++ new)
  end.

(** A threat entry of one of the kinds [K], classified by the table. *)
Definition entry_in (K : string -> Prop) (e : ThreatEntry) : Prop :=
  K (threat_type e) /\ severity e = get_threat_severity (threat_type e).

(** The world has only grown: events satisfying [P] were added to the
    trace, entries of the kinds [K] were inserted in the threat log, and
    everything but the tick is as before. *)
Record grows (P : event -> Prop) (K : string -> Prop) (w w' : World) : Prop :=
  mk_grows {
    grows_is_monitoring : is_monitoring w' = is_monitoring w;
    grows_monitoring_thread : monitoring_thread w' = monitoring_thread w;
    grows_threads : threads w' = threads w;
    grows_whitelisted : whitelisted_processes w' = whitelisted_processes w;
    grows_fs : fs w' = fs w;
    grows_trace : exists evs, trace w' = (trace w ++ evs)%list /\ Forall P evs;
    grows_log : exists new,
        threat_log w' = log_after (threat_log w) new /\ Forall (entry_in K) new
  }.

Definition is_sleep (e : event) : bool :=
  match e with
  | EvSleep _ => true
  | _ => false
  end.

(** The number of [time.sleep] calls in a trace. *)
Definition sleeps (tr : list event) : nat := length (List.filter is_sleep tr).

(** The events of the checks of a cycle: log lines and alerts. *)
Definition check_event (e : event) : Prop :=
  match e with
  | EvLog _ _ | EvSay _ => True
  | _ => False
  end.

(** The kinds of threat the three checks of a cycle report. *)
Definition detection_kind (k : string) : Prop :=
  In k ["suspicious_process"; "high_cpu_usage"; "high_memory_usage";
        "high_system_cpu"; "high_system_memory"; "low_disk_space";
        "suspicious_network_connection"].


(** The kinds of threat [check_system_resources] reports. *)
Definition resource_kind (k : string) : Prop :=
  In k ["high_system_cpu"; "high_system_memory"; "low_disk_space"].

(** A line of the log sink at level WARNING or ERROR: not an alert. *)
Definition silent_event (e : event) : Prop :=
  exists msg, e = EvLog "WARNING" msg \/ e = EvLog "ERROR" msg.

(** ** A machine whose readings fail, for examples *)

Definition faulty_env : Env :=
  {| env_now := fun t => mk_datetime 2024 3 1 12 0 0 (Z.of_nat t);
     env_speak := fun _ => Some (Exn "RuntimeError" "run loop already started");
     env_process_iter := fun _ => Raise (Exn "OSError" "cannot list processes");
     env_cpu_percent := fun _ => Return (99 # 1);
     env_virtual_memory := fun _ => Raise (Exn "OSError" "no meminfo");
     env_disk_usage := fun _ => Return (96 # 1);
     env_net_io_counters := fun _ => None;
     env_net_connections := fun _ => Raise (Exn "AccessDenied" "net_connections");
     env_makedirs := fun _ => Some (Exn "PermissionError" "data");
     env_move := fun _ => Some (Exn "PermissionError" "move");
     hashlib_sha256 := fun _ =>
       "e3b0c44298fc1c149afbf4c8996fb92427ae41e4649b934ca495991b7852b855";
     py_str := fun _ => "{...}" |}.

(** ** The list comprehensions of the status, clock reads made explicit *)

(** [[t for t in log if fromisoformat(t['timestamp']) > now() - timedelta(hours=h)]]
    when the first clock read is the external call number [t]. *)
Fixpoint newer_at (env : Env) (h : Z) (t : nat) (log : list ThreatEntry)
  : list ThreatEntry :=
  match log with
  | [] => []
  | e :: rest =>
      if Datetime.newer_than (timestamp e) (env_now env t) (Datetime.hours h)
      then e :: newer_at env h (S t) rest
      else newer_at env h (S t) rest
  end.

(** [recent_high_threats]: the clock is read for high severity entries only. *)
Fixpoint recent_high_at (env : Env) (t : nat) (log : list ThreatEntry)
  : list ThreatEntry :=
  match log with
  | [] => []
  | e :: rest =>
      if Severity_eqb (severity e) high then
        if Datetime.newer_than (timestamp e) (env_now env t) (Datetime.hours 1)
        then e :: recent_high_at env (S t) rest
        else recent_high_at env (S t) rest
      else recent_high_at env t rest
  end.

Fixpoint count_high (log : list ThreatEntry) : nat :=
  match log with
  | [] => 0
  | e :: rest =>
      (if Severity_eqb (severity e) high then 1 else 0) + count_high rest
  end.

(** ** The health rule in the words of the specification *)

(** critical if disk > 90 or a high severity threat in the last hour;
    warning if cpu > 80 or memory > 85; otherwise good. *)
Definition spec_health (cpu mem disk : Q) (recent_high_threat : bool) : Health :=
  if Qgtb disk (90 # 1) || recent_high_threat then critical
  else if Qgtb cpu (80 # 1) || Qgtb mem (85 # 1) then warning
  else good.

(** One hint per condition that holds, all of them kept. *)
Definition spec_recommendations (cpu mem disk : Q) (recent_high_threat : bool)
  : list string :=
  (if Qgtb cpu (80 # 1) then ["High CPU usage detected"] else [])
  ++ (if Qgtb mem (85 # 1) then ["High memory usage detected"] else [])
  ++ (if Qgtb disk (90 # 1) then ["Low disk space - cleanup recommended"] else [])
  ++ (if recent_high_threat then ["Recent high-severity threats detected"] else []).

Definition nonempty {A} (l : list A) : bool := negb (length l =? 0)%nat.

(** ** A quiet machine whose disk is nearly full, for examples *)

Definition full_disk_env : Env :=
  {| env_now := env_now quiet_env;
     env_speak := env_speak quiet_env;
     env_process_iter := env_process_iter quiet_env;
     env_cpu_percent := env_cpu_percent quiet_env;
     env_virtual_memory := env_virtual_memory quiet_env;
     env_disk_usage := fun _ => Return (96 # 1);
     env_net_io_counters := env_net_io_counters quiet_env;
     env_net_connections := env_net_connections quiet_env;
     env_makedirs := env_makedirs quiet_env;
     env_move := env_move quiet_env;
     hashlib_sha256 := hashlib_sha256 quiet_env;
     py_str := py_str quiet_env |}.

(** ** A file system with one downloaded program, for examples *)

Definition evil_exe : list Byte.byte := [Byte.x4d; Byte.x5a; Byte.x90; Byte.x00].

Definition downloads : gmap string node :=
  {[ "downloads/evil.exe" := File evil_exe true ]}.



(** ** Vocabulary of the entropy proofs *)

(** The value of a counter at a key (0 when the key is absent). *)
Fixpoint counter_get (byte_counts : list (Byte.byte * nat)) (b : Byte.byte)
  : nat :=
  match byte_counts with
  | [] => 0
  | (k, v) :: rest => if Byte.eqb k b then v else counter_get rest b
  end.



(** ** A packed program whose digest is in the known-bad set, for examples *)



(** ** Time spans *)

Definition MAX_DELTA_DAYS : Z := 999999999.

(** The ordinal of 9999-12-31, the last day of [datetime]. *)
Definition MAXORDINAL : Z := 3652059.

(** [timedelta(days=d)] or [timedelta(hours=h)], [d] and [h] integers, as
    its length in microseconds: OverflowError beyond 999999999 days. *)
Definition timedelta (micros : Z) : M Z :=
  let d := micros / Datetime.days 1 in
  if MAX_DELTA_DAYS <? Z.abs d then
    raise (Exn "OverflowError"
             ("days=" +:+ Str.of_Z d +:+ "; must have magnitude <= 999999999"))
  else ret micros.

(** [now - delta] as a position on the time line: OverflowError when the
    result leaves the years 1 to 9999. *)
Definition datetime_sub (now : datetime) (delta : Z) : M Z :=
  let r := Datetime.to_micros now - delta in
  if (Datetime.days 1 <=? r) && (r <? Datetime.days (MAXORDINAL + 1)) then ret r
  else raise (Exn "OverflowError" "date value out of range").

(** [datetime.fromisoformat(threat['timestamp']) > cutoff]. *)
Definition newer (cutoff : Z) (threat : ThreatEntry) : bool :=
  cutoff <? Datetime.to_micros (timestamp threat).

(** ** Threat log maintenance *)

Definition cleanup_threat_log (days_old : Z) : M nat :=
  try_except
    (let* now := datetime_now in
     let* delta := timedelta (Datetime.days days_old) in
     let* cutoff_date := datetime_sub now delta in
     let* w := get in
     let original_count := length (threat_log w) in
     modify (fun w =>
       set_threat_log (List.filter (newer cutoff_date) (threat_log w)) w) ;;;
     let* w := get in
     let removed_count := (original_count - length (threat_log w))%nat in
     log_message ("Cleaned up " +:+ Str.of_Z (Z.of_nat removed_count)
                  +:+ " old threat log entries") "INFO" ;;;
     ret removed_count)
    (fun e =>
       log_message ("Threat log cleanup failed: " +:+ exn_msg e) "ERROR" ;;;
       ret 0%nat).

(** ** Whitelist *)

Definition add_to_whitelist (process_name : string) : M bool :=
  try_except
    (modify (fun w =>
       set_whitelisted_processes
         ({[ Str.lower process_name ]} ∪ whitelisted_processes w) w) ;;;
     log_message ("Added to whitelist: " +:+ process_name) "INFO" ;;;
     speak ("Process " +:+ process_name +:+ " added to security whitelist") ;;;
     ret true)
    (fun e =>
       log_message ("Failed to add to whitelist: " +:+ exn_msg e) "ERROR" ;;;
       ret false).

Definition remove_from_whitelist (process_name : string) : M bool :=
  try_except
    (let* w := get in
     if bool_decide (Str.lower process_name ∈ whitelisted_processes w) then
       modify (fun w =>
         set_whitelisted_processes
           (whitelisted_processes w ∖ {[ Str.lower process_name ]}) w) ;;;
       log_message ("Removed from whitelist: " +:+ process_name) "INFO" ;;;
       speak ("Process " +:+ process_name
              +:+ " removed from security whitelist") ;;;
       ret true
     else ret false)
    (fun e =>
       log_message ("Failed to remove from whitelist: " +:+ exn_msg e) "ERROR" ;;;
       ret false).

(** ** Threat summary *)

Module Summary.

(** The dictionary [summary] of [get_threat_summary]. *)
Record t := mk {
  total_threats : nat;
  high_severity : nat;
  medium_severity : nat;
  low_severity : nat;
  threat_types : gmap string nat;
  time_period : string
}.

End Summary.

Inductive summary_return :=
| SummaryError (msg : string)
| SummaryReport (s : Summary.t).

(** [len([t for t in threats if t['severity'] == s])]. *)
Definition count_severity (s : Severity) (threats : list ThreatEntry) : nat :=
  length (List.filter (fun t => Severity_eqb (severity t) s) threats).

(** [threat_types[threat['type']] = threat_types.get(threat['type'], 0) + 1]. *)
Definition count_type (threat_types : gmap string nat) (threat : ThreatEntry)
  : gmap string nat :=
  <[ threat_type threat :=
       (default 0%nat (threat_types !! threat_type threat) + 1)%nat ]>
    threat_types.

Definition get_threat_summary (hours : Z) : M summary_return :=
  try_except
    (let* now := datetime_now in
     let* delta := timedelta (Datetime.hours hours) in
     let* cutoff_time := datetime_sub now delta in
     let* w := get in
     let recent_threats := List.filter (newer cutoff_time) (threat_log w) in
     let summary :=
       {| Summary.total_threats := length recent_threats;
          Summary.high_severity := count_severity high recent_threats;
          Summary.medium_severity := count_severity medium recent_threats;
          Summary.low_severity := count_severity low recent_threats;
          Summary.threat_types := fold_left count_type recent_threats ∅;
          Summary.time_period := "Last " +:+ Str.of_Z hours +:+ " hours" |} in
     ret (SummaryReport summary))
    (fun e =>
       log_message ("Failed to generate threat summary: " +:+ exn_msg e)
         "ERROR" ;;;
       ret (SummaryError (exn_msg e))).

(** ** tasks.py: the two security commands *)

(** [f"{status['system_health']}"]. *)
Definition health_name (h : Health) : string :=
  match h with
  | good => "good"
  | warning => "warning"
  | critical => "critical"
  end.

(** [status['system_health']] on what [get_security_status] returned. *)
Definition status_health (status : status_return) : M Health :=
  match status with
  | StatusReport s => ret (system_health s)
  | StatusError _ => raise (Exn "KeyError" "'system_health'")
  end.

(** [threat_summary['total_threats']]. *)
Definition summary_total (threat_summary : summary_return) : M nat :=
  match threat_summary with
  | SummaryReport s => ret (Summary.total_threats s)
  | SummaryError _ => raise (Exn "KeyError" "'total_threats'")
  end.

Definition handle_security_scan : M bool :=
  try_except
    (speak "Starting security scan" ;;;
     start_monitoring SECURITY_SCAN_INTERVAL ;;;
     let* status := get_system_security_status in
     let* health := status_health status in
     (match health with
      | good => speak "Security scan completed. No threats detected."
      | warning =>
          speak "Security scan completed with warnings. Check the security log for details."
      | critical =>
          speak "Security scan detected issues. Immediate attention recommended."
      end) ;;;
     ret true)
    (fun e =>
       log_message ("Security scan failed: " +:+ exn_msg e) "ERROR" ;;;
       speak "I had trouble running the security scan." ;;;
       ret false).

Definition handle_security_status : M bool :=
  try_except
    (let* status := get_system_security_status in
     let* threat_summary := get_threat_summary 24 in
     let* health := status_health status in
     let status_text :=
       "System security status: " +:+ health_name health +:+ ". " in
     let* total := summary_total threat_summary in
     let status_text :=
       status_text +:+ "Detected " +:+ Str.of_Z (Z.of_nat total)
       +:+ " threats in the last 24 hours." in
     speak status_text ;;;
     ret true)
    (fun e =>
       log_message ("Security status failed: " +:+ exn_msg e) "ERROR" ;;;
       speak "I had trouble getting security status." ;;;
       ret false).

(** ** Export *)

Section ThreatLogExport.

(** The text [json.dump(threat_log, f, indent=2)] writes. *)
Variable json_dumps : list ThreatEntry -> list Byte.byte.

(** The faults of [open(filepath, 'w')] that the file tree does not show
    (permissions, a full disk), by external call. *)
Variable env_open_w : nat -> option exn.

(** [with open(filepath, 'w') as f:] followed by the writing of [text]: the
    path is resolved through its directory, a directory cannot be opened,
    an existing file is overwritten. *)
Definition write_file (filepath : string) (text : list Byte.byte) : M unit :=
  let* fault := ask (fun _ => env_open_w) in
  lift_fault fault ;;;
  let* w := get in
  if negb (String.eqb (Path.dirname filepath) "")
     && negb (is_dir (fs w) (Path.dirname filepath)) then
    raise (Exn "FileNotFoundError" filepath)
  else if Str.mem (Path.basename filepath) [""; "."; ".."] then
    raise (Exn "IsADirectoryError" filepath)
  else
    match fs w !! filepath with
    | Some (Dir _) => raise (Exn "IsADirectoryError" filepath)
    | Some (File _ readable) =>
        modify (fun w => set_fs (<[filepath := File text readable]> (fs w)) w)
    | None =>
        modify (fun w => set_fs (<[filepath := File text true]> (fs w)) w)
    end.

Definition export_threat_log (filename : option string) : M (option string) :=
  try_except
    (let* filename :=
       match filename with
       | None | Some "" =>
           let* now := datetime_now in
           ret ("threat_log_" +:+ Datetime.strftime_compact now +:+ ".json")
       | Some given => ret given
       end in
     let filepath := Path.join LOGS_DIR filename in
     let* w := get in
     write_file filepath (json_dumps (threat_log w)) ;;;
     log_message ("Threat log exported to: " +:+ filepath) "INFO" ;;;
     ret (Some filepath))
    (fun e =>
       log_message ("Failed to export threat log: " +:+ exn_msg e) "ERROR" ;;;
       ret None).

End ThreatLogExport.

(** The file name an export uses and the external call at which it opens
    the file: the given name, or one made of the clock reading. *)
Definition export_name (env : Env) (w : World) (filename : option string)
  : string * nat :=
  match filename with
  | None | Some "" =>
      ("threat_log_" +:+ Datetime.strftime_compact (env_now env (tick w))
       +:+ ".json", S (tick w))
  | Some given => (given, tick w)
  end.

(** A handler whose process has a logs directory. *)
Definition with_logs : gmap string node := {[ "logs" := Dir 4096 ]}.

(** A serializer for examples: one byte per entry. *)
Definition one_byte_each (log : list ThreatEntry) : list Byte.byte :=
  map (fun _ => Byte.x7b) log.

(** ** Vocabulary of the maintenance properties *)

(** [now - delta] is computed without OverflowError: the span is one
    [timedelta] can hold and the result is a date of the calendar. *)
Definition cutoff_ok (now : datetime) (delta : Z) : bool :=
  (Z.abs (delta / Datetime.days 1) <=? MAX_DELTA_DAYS)
  && (Datetime.days 1 <=? Datetime.to_micros now - delta)
  && (Datetime.to_micros now - delta <? Datetime.days (MAXORDINAL + 1)).

(** A line of the log sink. *)
Definition log_line (ev : event) : Prop :=
  exists level msg, ev = EvLog level msg.

(** The handler is as it was, apart from external calls made and events
    satisfying [P] sent out. *)
Record observed (P : event -> Prop) (w w' : World) : Prop := mk_observed {
  observed_is_monitoring : is_monitoring w' = is_monitoring w;
  observed_monitoring_thread : monitoring_thread w' = monitoring_thread w;
  observed_threat_log : threat_log w' = threat_log w;
  observed_whitelisted : whitelisted_processes w' = whitelisted_processes w;
  observed_baseline : baseline_processes w' = baseline_processes w;
  observed_fs : fs w' = fs w;
  observed_threads : threads w' = threads w;
  observed_trace : exists evs,
      trace w' = (trace w ++ evs)%list /\ Forall P evs
}.

(** The number of threats of one type in a list. *)
Definition count_of_type (ty : string) (threats : list ThreatEntry) : nat :=
  length (List.filter (fun t => String.eqb (threat_type t) ty) threats).

(** A log of three threats: one of last year, two of the last hour. *)
Definition three_threats : list ThreatEntry :=
  [ {| timestamp := mk_datetime 2023 1 15 8 30 0 0;
       threat_type := "high_cpu_usage"; details := DCpu (97 # 1);
       severity := medium |};
    {| timestamp := mk_datetime 2024 3 1 11 30 0 0;
       threat_type := "suspicious_process"; details := DCpu (1 # 1);
       severity := high |};
    {| timestamp := mk_datetime 2024 3 1 11 45 0 0;
       threat_type := "low_disk_space"; details := DDisk (96 # 1);
       severity := low |} ].

(** ** Vocabulary of the detection properties *)

(** What a call [log_threat(threat_type, details)] is given. *)
Definition call_of (e : ThreatEntry) : string * Details :=
  (threat_type e, details e).

(** Between [w] and [w'] the calls [calls] of [log_threat] were made, in
    this order, and nothing else was done to the handler: the log holds the
    entries of these calls after the old ones (cut to its last 1000), the
    log sink may hold more lines, and the rest is as it was. *)
Record logged (calls : list (string * Details)) (w w' : World) : Prop :=
  mk_logged {
    logged_entries : exists entries,
        map call_of entries = calls
        /\ Forall (fun e => severity e = get_threat_severity (threat_type e))
             entries
        /\ threat_log w' = log_after (threat_log w) entries;
    logged_whitelisted : whitelisted_processes w' = whitelisted_processes w;
    logged_is_monitoring : is_monitoring w' = is_monitoring w;
    logged_threads : threads w' = threads w;
    logged_fs : fs w' = fs w;
    logged_trace : exists evs, trace w' = (trace w ++ evs)%list
  }.

(** A usage reading above its bound, of a process that is not whitelisted. *)
Definition usage_flagged (whitelist : gset string) (reading : option Q)
    (bound : Q) (proc_name : string) : bool :=
  truthy_and_gt reading bound && negb (bool_decide (proc_name ∈ whitelist)).

(** The threats one element of [psutil.process_iter] is reported for. *)
Definition process_threats (whitelist : gset string) (proc : outcome proc_info)
  : list (string * Details) :=
  match proc with
  | Return info =>
      match name info with
      | None | Some "" => []
      | Some proc_name =>
          (if is_suspicious_name (Str.lower proc_name)
           then [("suspicious_process", DProc info)] else [])
          ++ (if usage_flagged whitelist (cpu_percent info) (90 # 1) proc_name
              then [("high_cpu_usage", DProc info)] else [])
          ++ (if usage_flagged whitelist (memory_percent info) (50 # 1)
                   proc_name
              then [("high_memory_usage", DProc info)] else [])
      end
  | Raise _ => []
  end.

(** An element of the iterator the loop gets over: an [info] dictionary, or
    one of the three psutil exceptions the loop skips. *)
Definition scannable (proc : outcome proc_info) : bool :=
  match proc with
  | Return _ => true
  | Raise e => Str.mem (exn_class e) PSUTIL_SKIPPED
  end.

(** An element whose name, when it has one, is made of ASCII characters. *)
Definition ascii_named (proc : outcome proc_info) : bool :=
  match proc with
  | Return info =>
      match name info with
      | Some proc_name => Str.is_ascii proc_name
      | None => true
      end
  | Raise _ => true
  end.

(** An element whose name holds one of the suspicious terms. *)
Definition suspicious_proc (proc : outcome proc_info) : bool :=
  match proc with
  | Return info =>
      match name info with
      | None | Some "" => false
      | Some proc_name => is_suspicious_name (Str.lower proc_name)
      end
  | Raise _ => false
  end.

(** An established connection to one of the suspicious remote ports. *)
Definition suspicious_conn (conn : connection) : bool :=
  String.eqb (status conn) CONN_ESTABLISHED
  && match raddr conn with
     | Some (_, remote_port) => existsb (Z.eqb remote_port) suspicious_ports
     | None => false
     end.

(** The threat a connection is reported for. *)
Definition connection_threats (conn : connection) : list (string * Details) :=
  match raddr conn with
  | Some (remote_ip, remote_port) =>
      if suspicious_conn conn
      then [("suspicious_network_connection",
             DConn remote_ip remote_port (conn_pid conn))]
      else []
  | None => []
  end.

(** ** A machine with three processes and two connections, for examples *)

Definition miner : proc_info :=
  mk_proc_info 4242 (Some "Miner.exe") None None (Some (97 # 1)) (Some (12 # 1)).

Definition chrome : proc_info :=
  mk_proc_info 812 (Some "chrome.exe") None None (Some (99 # 1)) (Some (61 # 1)).

Definition keylogger : proc_info :=
  mk_proc_info 666 (Some "KeyLogger.exe") None None (Some (1 # 1)) (Some (1 # 1)).

Definition backdoor_conn : connection :=
  mk_connection "ESTABLISHED" (Some ("203.0.113.7", 31337)) (Some 666).

Definition web_conn : connection :=
  mk_connection "ESTABLISHED" (Some ("198.51.100.2", 443)) (Some 812).

Definition busy_env : Env :=
  {| env_now := env_now quiet_env;
     env_speak := env_speak quiet_env;
     env_process_iter := fun _ =>
       Return [Return miner; Raise (Exn "AccessDenied" "pid 4");
               Return chrome; Return keylogger];
     env_cpu_percent := env_cpu_percent quiet_env;
     env_virtual_memory := env_virtual_memory quiet_env;
     env_disk_usage := env_disk_usage quiet_env;
     env_net_io_counters := env_net_io_counters quiet_env;
     env_net_connections := fun _ =>
       Return [web_conn; backdoor_conn; backdoor_conn];
     env_makedirs := env_makedirs quiet_env;
     env_move := env_move quiet_env;
     hashlib_sha256 := hashlib_sha256 quiet_env;
     py_str := py_str quiet_env |}.

(** The same machine with a speech engine that fails at every call. *)
Definition mute_env : Env :=
  {| env_now := env_now busy_env;
     env_speak := fun _ => Some (Exn "RuntimeError" "run loop already started");
     env_process_iter := fun _ =>
       Return [Return miner; Return keylogger; Return keylogger];
     env_cpu_percent := env_cpu_percent busy_env;
     env_virtual_memory := env_virtual_memory busy_env;
     env_disk_usage := env_disk_usage busy_env;
     env_net_io_counters := env_net_io_counters busy_env;
     env_net_connections := env_net_connections busy_env;
     env_makedirs := env_makedirs busy_env;
     env_move := env_move busy_env;
     hashlib_sha256 := hashlib_sha256 busy_env;
     py_str := py_str busy_env |}.

(** A quiet machine that runs one busy process under a capitalised name. *)
Definition miner_env : Env :=
  {| env_now := env_now quiet_env;
     env_speak := env_speak quiet_env;
     env_process_iter := fun _ => Return [Return miner; Return chrome];
     env_cpu_percent := env_cpu_percent quiet_env;
     env_virtual_memory := env_virtual_memory quiet_env;
     env_disk_usage := env_disk_usage quiet_env;
     env_net_io_counters := env_net_io_counters quiet_env;
     env_net_connections := env_net_connections quiet_env;
     env_makedirs := env_makedirs quiet_env;
     env_move := env_move quiet_env;
     hashlib_sha256 := hashlib_sha256 quiet_env;
     py_str := py_str quiet_env |}.

(** ** Vocabulary of the file and status properties *)

(** A node [open(p, 'rb')] fails on: a directory, or a file without read
    permission. *)
Definition unreadable (n : node) : bool :=
  match n with
  | File _ true => false
  | _ => true
  end.

(** [os.path.getsize] of a node. *)
Definition node_size (n : node) : Z :=
  match n with
  | File content _ => Z.of_nat (length content)
  | Dir st_size => st_size
  end.

Definition raised {A} (o : outcome A) : bool :=
  match o with
  | Return _ => false
  | Raise _ => true
  end.

(** A file system with a program the scanner may not read. *)
Definition locked : gmap string node :=
  {[ "downloads/locked.exe" := File evil_exe false ]}.

(** ** Vocabulary of the command properties *)

(** What a request leaves alone: the threat log, the whitelist and the
    files are as before, and a monitor that was on is still on. *)
Record undisturbed (w w' : World) : Prop := mk_undisturbed {
  undisturbed_threat_log : threat_log w' = threat_log w;
  undisturbed_whitelisted : whitelisted_processes w' = whitelisted_processes w;
  undisturbed_fs : fs w' = fs w;
  undisturbed_on : is_monitoring w = true -> is_monitoring w' = true
}.

(** The threats the resource check reports for three readings. *)
Definition resource_threats (cpu mem disk : Q) : list (string * Details) :=
  (if Qgtb cpu (95 # 1) then [("high_system_cpu", DCpu cpu)] else [])
  ++ (if Qgtb mem (90 # 1) then [("high_system_memory", DMemory mem)] else [])
  ++ (if Qgtb disk (95 # 1) then [("low_disk_space", DDisk disk)] else []).

(** A machine under load: readings between the thresholds of the status
    and those of the resource check. *)
Definition loaded_env : Env :=
  {| env_now := env_now quiet_env;
     env_speak := env_speak quiet_env;
     env_process_iter := env_process_iter quiet_env;
     env_cpu_percent := fun _ => Return (90 # 1);
     env_virtual_memory := fun _ => Return (88 # 1);
     env_disk_usage := fun _ => Return (96 # 1);
     env_net_io_counters := env_net_io_counters quiet_env;
     env_net_connections := env_net_connections quiet_env;
     env_makedirs := env_makedirs quiet_env;
     env_move := env_move quiet_env;
     hashlib_sha256 := hashlib_sha256 quiet_env;
     py_str := py_str quiet_env |}.
(** Two downloads of one name, for examples. *)
Definition two_downloads : gmap string node :=
  {[ "mail/invoice.exe" := File [Byte.x4d; Byte.x5a] true;
     "usb/invoice.exe" := File evil_exe true ]}.

(** * Properties *)

(** ** Strings and dates: sanity checks *)

Example lower_ex : Str.lower "KeyLogger.EXE" = "keylogger.exe".
Proof. reflexivity. Qed.

Example contains_ex : Str.contains "trojan" "my_trojan_v2" = true.
Proof. reflexivity. Qed.

Example pad_ex : Str.pad 4 2026 +:+ Str.pad 2 3 = "202603".
Proof. reflexivity. Qed.

Example rsplit_ex : Str.rsplit "/" "a/b/c.txt" = (Some "a/b", "c.txt").
Proof. reflexivity. Qed.

Example ymd2ord_ex : Datetime.ymd2ord 2024 3 1 = 738946.
Proof. reflexivity. Qed.

Example strftime_ex :
  Datetime.strftime_compact (mk_datetime 2024 3 1 9 5 0 17) = "20240301_090500".
Proof. reflexivity. Qed.

Lemma mem_In x xs : Str.mem x xs = true <-> In x xs.
Proof.
  unfold Str.mem. rewrite existsb_exists. split.
  - intros [y [Hy He]]. apply String.eqb_eq in He. now subst.
  - intros H. exists x. split; [assumption | apply String.eqb_refl].
Qed.

Lemma mem_not_In x xs : Str.mem x xs = false <-> ~ In x xs.
Proof.
  rewrite <- mem_In. destruct (Str.mem x xs); split; congruence.
Qed.

(** ** The monad: evaluation steps *)

Ltac munfold :=
  unfold log_message, speak, datetime_now, when, emit, lift_fault,
    lift_outcome, bind, ret, raise, try_except, get, modify, ask, asks in *.

Lemma bind_run {A B} (m : M A) (k : A -> M B) env w a w1 :
  m env w = (Return a, w1) -> bind m k env w = k a env w1.
Proof. intros H. unfold bind. now rewrite H. Qed.

Lemma os_path_exists_run env w p :
  os_path_exists p env w = (Return (bool_decide (is_Some (fs w !! p))), w).
Proof. reflexivity. Qed.

Lemma datetime_now_run env w :
  datetime_now env w = (Return (env_now env (tick w)), set_tick (S (tick w)) w).
Proof. reflexivity. Qed.

(** ** Severity classification *)

Lemma severity_high threat_type :
  In threat_type high_severity -> get_threat_severity threat_type = high.
Proof.
  intros H. unfold get_threat_severity.
  apply mem_In in H. now rewrite H.
Qed.

Lemma severity_medium threat_type :
  In threat_type medium_severity -> get_threat_severity threat_type = medium.
Proof.
  intros H. unfold get_threat_severity.
  assert (Hn : ~ In threat_type high_severity).
  { intros Hh. simpl in H, Hh. intuition (subst; discriminate). }
  apply mem_not_In in Hn. apply mem_In in H. now rewrite Hn, H.
Qed.

Lemma severity_low threat_type :
  ~ In threat_type high_severity -> ~ In threat_type medium_severity ->
  get_threat_severity threat_type = low.
Proof.
  intros Hh Hm. unfold get_threat_severity.
  apply mem_not_In in Hh, Hm. now rewrite Hh, Hm.
Qed.

(** C4. [get_threat_severity] is a total function of the kind alone (it
    takes no state and returns a severity for every string): the four kinds
    of the high table give [high], the three kinds of the medium table give
    [medium], and every other kind gives [low]. *)
Theorem get_threat_severity_table :
  forall threat_type : string,
    (threat_type ∈ ["suspicious_process"; "malware_detected";
                    "unauthorized_access"; "suspicious_network_connection"]
       <-> get_threat_severity threat_type = high)
    /\ (threat_type ∈ ["high_cpu_usage"; "high_memory_usage";
                       "unusual_file_activity"]
       <-> get_threat_severity threat_type = medium)
    /\ (threat_type ∉ ["suspicious_process"; "malware_detected";
                       "unauthorized_access"; "suspicious_network_connection";
                       "high_cpu_usage"; "high_memory_usage";
                       "unusual_file_activity"]
       <-> get_threat_severity threat_type = low).
Proof.
  intros threat_type.
  destruct (in_dec string_dec threat_type high_severity) as [Hh | Hh].
  - rewrite (severity_high _ Hh).
    repeat split; intros H; try discriminate; try reflexivity.
    + apply list_elem_of_In. exact Hh.
    + apply list_elem_of_In in H. simpl in H, Hh.
      intuition (subst; discriminate).
    + exfalso. apply H. apply list_elem_of_In. simpl in *. tauto.
  - destruct (in_dec string_dec threat_type medium_severity) as [Hm | Hm].
    + rewrite (severity_medium _ Hm).
      repeat split; intros H; try discriminate; try reflexivity.
      * apply list_elem_of_In in H. contradiction.
      * apply list_elem_of_In. exact Hm.
      * exfalso. apply H. apply list_elem_of_In. simpl in *. tauto.
    + rewrite (severity_low _ Hh Hm).
      repeat split; intros H; try discriminate; try reflexivity.
      * apply list_elem_of_In in H. contradiction.
      * apply list_elem_of_In in H. contradiction.
      * intros Hin. apply list_elem_of_In in Hin. simpl in *. tauto.
Qed.

(** ** Threat log: bounded, oldest evicted first *)

Lemma slice_last_length {A} n (l : list A) :
  (length (slice_last n l) <= n)%nat.
Proof. unfold slice_last. rewrite length_skipn. lia. Qed.

Lemma slice_last_short {A} n (l : list A) :
  (length l <= n)%nat -> slice_last n l = l.
Proof.
  intros H. unfold slice_last.
  replace (length l - n)%nat with 0%nat by lia. reflexivity.
Qed.

Lemma slice_last_app {A} n (l r : list A) :
  slice_last n (slice_last n l ++ r) = slice_last n (l ++ r).
Proof.
  destruct (le_lt_dec (length l) n) as [Hle | Hgt].
  - now rewrite (slice_last_short n l).
  - unfold slice_last.
    rewrite <- (drop_app_le l r (length l - n)) by lia.
    rewrite drop_drop. f_equal.
    rewrite length_drop, !length_app. lia.
Qed.

(** What one call leaves in the log, whether or not the alert that follows
    the insertion raises. *)
Lemma log_threat_threat_log env w threat_type d :
  threat_log (snd (log_threat threat_type d env w))
  = slice_last 1000 (threat_log w ++ [entry_of env (tick w) (threat_type, d)]).
Proof.
  unfold log_threat, entry_of. munfold. simpl.
  destruct (1000 <? length (threat_log w ++ _))%nat eqn:Hlen; simpl.
  - destruct (Severity_eqb _ _); simpl; [| reflexivity].
    destruct (env_speak env _); reflexivity.
  - apply Nat.ltb_ge in Hlen.
    rewrite slice_last_short by exact Hlen.
    destruct (Severity_eqb _ _); simpl; [| reflexivity].
    destruct (env_speak env _); reflexivity.
Qed.

Lemma log_threats_snoc calls c env w :
  log_threats (calls ++ [c]) env w
  = snd (log_threat (fst c) (snd c) env (log_threats calls env w)).
Proof. unfold log_threats. now rewrite fold_left_app. Qed.

Lemma log_threats_log env calls :
  forall w, exists entries,
    map threat_type entries = map fst calls
    /\ map details entries = map snd calls
    /\ map severity entries = map (fun c => get_threat_severity (fst c)) calls
    /\ threat_log (log_threats calls env w)
       = if decide (calls = []) then threat_log w
         else slice_last 1000 (threat_log w ++ entries).
Proof.
  induction calls as [| c calls IH] using rev_ind; intros w.
  - exists []. repeat split; reflexivity.
  - destruct (IH w) as (entries & Ht & Hd & Hs & Hlog).
    exists (entries ++ [entry_of env (tick (log_threats calls env w)) c])%list.
    rewrite !map_app, Ht, Hd, Hs. repeat split.
    destruct (decide ((calls ++ [c])%list = [])) as [Hnil | _].
    { apply app_eq_nil in Hnil. destruct Hnil; discriminate. }
    rewrite log_threats_snoc, log_threat_threat_log, Hlog.
    destruct c as [ty d]; simpl.
    destruct (decide (calls = [])) as [Hnil | _].
    + subst calls. apply map_eq_nil in Ht. subst entries. reflexivity.
    + rewrite slice_last_app, <- app_assoc. reflexivity.
Qed.

(** C1. Whatever the state, the clock and the faults of the speech engine,
    after every non-empty sequence of [log_threat] calls the log holds at
    most 1000 entries, and it holds the last 1000 of the old entries
    followed by the new ones in arrival order: what is dropped is dropped
    from the front. *)
Theorem threat_log_bounded_fifo :
  forall (env : Env) (w : World) (calls : list (string * Details)),
    calls <> [] ->
    (length (threat_log (log_threats calls env w)) <= 1000)%nat
    /\ exists entries,
         map threat_type entries = map fst calls
         /\ map details entries = map snd calls
         /\ map severity entries
            = map (fun c => get_threat_severity (fst c)) calls
         /\ threat_log (log_threats calls env w)
            = slice_last 1000 (threat_log w ++ entries)
         /\ ((length (threat_log w ++ entries) <= 1000)%nat ->
             threat_log (log_threats calls env w)
             = (threat_log w ++ entries)%list).
Proof.
  intros env w calls Hne.
  destruct (log_threats_log env calls w) as (entries & Ht & Hd & Hs & Hlog).
  rewrite decide_False in Hlog by exact Hne.
  split.
  - rewrite Hlog. apply slice_last_length.
  - exists entries. repeat split; try assumption.
    intros Hlen. rewrite Hlog. now apply slice_last_short.
Qed.

Lemma threat_log_bounded_fifo_witness :
  [("suspicious_process", DCpu (97 # 1)); ("low_disk_space", DDisk (96 # 1))]
    <> []
  /\ (length (threat_log
        (log_threats
           [("suspicious_process", DCpu (97 # 1));
            ("low_disk_space", DDisk (96 # 1))]
           faulty_env (SecurityHandler ∅))) <= 1000)%nat.
Proof.
  split; [discriminate |].
  exact (proj1 (threat_log_bounded_fifo faulty_env (SecurityHandler ∅)
                  [("suspicious_process", DCpu (97 # 1));
                   ("low_disk_space", DDisk (96 # 1))]
                  ltac:(discriminate))).
Defined.

(** ** Methods that return, relations that are kept *)

Lemma returns_ret {A} (a : A) : returns (ret a).
Proof. intros env w. now exists a. Qed.

Lemma returns_bind {A B} (m : M A) (k : A -> M B) :
  returns m -> (forall a, returns (k a)) -> returns (bind m k).
Proof.
  intros Hm Hk env w. unfold bind.
  destruct (Hm env w) as [a Ha]. destruct (m env w) as [o w1]. simpl in Ha.
  subst o. apply Hk.
Qed.

Lemma returns_try_except {A} (m : M A) (h : exn -> M A) :
  (forall e, returns (h e)) -> returns (try_except m h).
Proof.
  intros Hh env w. unfold try_except.
  destruct (m env w) as [[a | e] w1]; [now exists a | apply Hh].
Qed.

Lemma returns_when c (m : M unit) : returns m -> returns (when c m).
Proof. intros Hm. destruct c; [exact Hm | apply returns_ret]. Qed.

Lemma returns_modify f : returns (modify f).
Proof. intros env w. now exists tt. Qed.

Lemma returns_emit e : returns (emit e).
Proof. apply returns_modify. Qed.

Lemma returns_log_message message level : returns (log_message message level).
Proof. apply returns_when, returns_emit. Qed.

Lemma returns_run {A} (m : M A) env w :
  returns m -> exists a, m env w = (Return a, snd (m env w)).
Proof.
  intros Hm. destruct (Hm env w) as [a Ha]. exists a.
  destruct (m env w); simpl in *; now subst.
Qed.

Section Keeps.

Context (R : World -> World -> Prop) `{!PreOrder R}.

Lemma keeps_ret {A} (a : A) : keeps R (ret a).
Proof. intros env w. reflexivity. Qed.

Lemma keeps_raise {A} e : keeps R (raise (A := A) e).
Proof. intros env w. reflexivity. Qed.

Lemma keeps_get : keeps R get.
Proof. intros env w. reflexivity. Qed.

Lemma keeps_asks {A} (f : Env -> A) : keeps R (asks f).
Proof. intros env w. reflexivity. Qed.

Lemma keeps_bind {A B} (m : M A) (k : A -> M B) :
  keeps R m -> (forall a, keeps R (k a)) -> keeps R (bind m k).
Proof.
  intros Hm Hk env w. unfold bind.
  specialize (Hm env w). destruct (m env w) as [[a | e] w1]; simpl in *.
  - etransitivity; [exact Hm | apply Hk].
  - exact Hm.
Qed.

Lemma keeps_try_except {A} (m : M A) (h : exn -> M A) :
  keeps R m -> (forall e, keeps R (h e)) -> keeps R (try_except m h).
Proof.
  intros Hm Hh env w. unfold try_except.
  specialize (Hm env w). destruct (m env w) as [[a | e] w1]; simpl in *.
  - exact Hm.
  - etransitivity; [exact Hm | apply Hh].
Qed.

Lemma keeps_try_except_psutil {A} (m h : M A) :
  keeps R m -> keeps R h -> keeps R (try_except_psutil m h).
Proof.
  intros Hm Hh env w. unfold try_except_psutil.
  specialize (Hm env w). destruct (m env w) as [[a | e] w1].
  - exact Hm.
  - destruct (Str.mem (exn_class e) PSUTIL_SKIPPED).
    + etransitivity; [exact Hm | apply Hh].
    + exact Hm.
Qed.

Lemma keeps_when c (m : M unit) : keeps R m -> keeps R (when c m).
Proof. intros Hm. destruct c; [exact Hm | apply keeps_ret]. Qed.

Lemma keeps_lift_outcome {A} (o : outcome A) : keeps R (lift_outcome o).
Proof. destruct o; [apply keeps_ret | apply keeps_raise]. Qed.

Lemma keeps_lift_fault o : keeps R (lift_fault o).
Proof. destruct o; [apply keeps_raise | apply keeps_ret]. Qed.

Lemma keeps_for_each {A} (xs : list A) (body : A -> M unit) :
  (forall x, keeps R (body x)) -> keeps R (for_each xs body).
Proof.
  intros Hb. induction xs as [| x xs IH]; simpl.
  - apply keeps_ret.
  - apply keeps_bind; [apply Hb | intros _; exact IH].
Qed.

Lemma keeps_filterM {A} (cond : A -> M bool) (xs : list A) :
  (forall x, keeps R (cond x)) -> keeps R (filterM cond xs).
Proof.
  intros Hc. induction xs as [| x xs IH]; simpl.
  - apply keeps_ret.
  - apply keeps_bind; [apply Hc | intros b].
    apply keeps_bind; [exact IH | intros r; apply keeps_ret].
Qed.

End Keeps.

(** ** Worlds that only grow *)

Lemma log_after_app old a b :
  log_after (log_after old a) b = log_after old (a ++ b).
Proof.
  destruct a as [| x a]; [reflexivity |].
  destruct b as [| y b]; simpl.
  - now rewrite app_nil_r.
  - rewrite slice_last_app, <- app_assoc. reflexivity.
Qed.

#[local] Instance grows_preorder P K : PreOrder (grows P K).
Proof.
  split.
  - intros w. split; try reflexivity.
    + exists []. now rewrite app_nil_r.
    + now exists [].
  - intros w1 w2 w3 [Hm Ht Hth Hw Hf (evs & Hev & HP) (new & Hnew & HK)]
                    [Hm' Ht' Hth' Hw' Hf' (evs' & Hev' & HP') (new' & Hnew' & HK')].
    split; try congruence.
    + exists (evs ++ evs')%list. split.
      * now rewrite Hev', Hev, app_assoc.
      * now apply Forall_app.
    + exists (new ++ new')%list. split.
      * now rewrite Hnew', Hnew, log_after_app.
      * now apply Forall_app.
Qed.

Lemma grows_tick P K w n : grows P K w (set_tick n w).
Proof.
  split; try reflexivity.
  - exists []. now rewrite app_nil_r.
  - now exists [].
Qed.

Lemma grows_event P K w e : P e -> grows P K w (set_trace (trace w ++ [e]) w).
Proof.
  intros He. split; try reflexivity.
  - exists [e]. split; [reflexivity | now constructor].
  - now exists [].
Qed.

Lemma grows_entry P K w e :
  entry_in K e ->
  grows P K w (set_threat_log (slice_last 1000 (threat_log w ++ [e])) w).
Proof.
  intros He. split; try reflexivity.
  - exists []. now rewrite app_nil_r.
  - exists [e]. split; [reflexivity | now constructor].
Qed.

Lemma keeps_ask P K {A} (oracle : Env -> nat -> A) : keeps (grows P K) (ask oracle).
Proof. intros env w. apply grows_tick. Qed.

Lemma keeps_emit P K e : P e -> keeps (grows P K) (emit e).
Proof. intros He env w. now apply grows_event. Qed.

Lemma keeps_log_message P K message level :
  P (EvLog (Str.upper level) message) ->
  keeps (grows P K) (log_message message level).
Proof. intros He. apply keeps_when; [apply _ | now apply keeps_emit]. Qed.

Lemma keeps_speak P K text :
  P (EvLog "INFO" ("Speaking: " +:+ text)) -> P (EvSay text) ->
  keeps (grows P K) (speak text).
Proof.
  intros Hl Hs. unfold speak.
  apply keeps_bind; [apply _ | now apply keeps_log_message | intros _].
  apply keeps_bind; [apply _ | | intros _; now apply keeps_emit].
  apply keeps_bind; [apply _ | apply keeps_ask | intros o].
  apply keeps_lift_fault, _.
Qed.

Lemma keeps_log_threat P K threat_type d :
  K threat_type ->
  (forall msg, P (EvLog "WARNING" msg)) ->
  (get_threat_severity threat_type = high ->
   (forall msg, P (EvLog "INFO" msg)) /\ (forall text, P (EvSay text))) ->
  keeps (grows P K) (log_threat threat_type d).
Proof.
  intros HK Hwarn Hhigh. unfold log_threat.
  apply keeps_bind; [apply _ | apply keeps_ask | intros now].
  set (e := {| timestamp := now; threat_type := threat_type; details := d;
               severity := get_threat_severity threat_type |}).
  match goal with
  | |- keeps _ (bind _ (fun _ => bind _ (fun _ => ?r))) => set (rest := r)
  end.
  assert (Hrest : keeps (grows P K) rest).
  { subst rest.
    apply keeps_bind; [apply _ | apply keeps_asks, _ | intros s].
    apply keeps_bind; [apply _ | apply keeps_log_message, Hwarn | intros _].
    simpl. destruct (get_threat_severity threat_type) eqn:Hsev; simpl;
      try (apply keeps_ret, _).
    destruct (Hhigh eq_refl) as [Hinfo Hsay].
    apply keeps_speak; [apply Hinfo | apply Hsay]. }
  clearbody rest. intros env w.
  assert (Hgrow : grows P K w
            (set_threat_log (slice_last 1000 (threat_log w ++ [e])) w)).
  { apply grows_entry. split; [exact HK | reflexivity]. }
  unfold bind, modify, get, when. simpl.
  destruct (1000 <? length (threat_log w ++ [e]))%nat eqn:Hlen; simpl.
  - etransitivity; [exact Hgrow | apply Hrest].
  - apply Nat.ltb_ge in Hlen.
    rewrite slice_last_short in Hgrow by exact Hlen.
    etransitivity; [exact Hgrow | apply Hrest].
Qed.

(** ** Resource check: low severity, no alert *)

Lemma resource_kind_low k :
  resource_kind k ->
  ~ In k high_severity /\ ~ In k medium_severity /\ get_threat_severity k = low.
Proof.
  intros Hk. unfold resource_kind in Hk. simpl in Hk.
  repeat split;
    try (intros Hin; simpl in Hin; intuition (subst; discriminate));
    intuition (subst; reflexivity).
Qed.

Lemma keeps_resource_threat threat_type d :
  resource_kind threat_type ->
  keeps (grows silent_event resource_kind) (log_threat threat_type d).
Proof.
  intros Hk. apply keeps_log_threat; [exact Hk | |].
  - intros msg. exists msg. now left.
  - intros Hhigh. destruct (resource_kind_low _ Hk) as (_ & _ & Hlow). congruence.
Qed.

Lemma keeps_check_system_resources :
  keeps (grows silent_event resource_kind) check_system_resources.
Proof.
  unfold check_system_resources, check_system_resources_try.
  apply keeps_try_except; [apply _ | |].
  - repeat first
      [ apply keeps_lift_outcome, _
      | apply keeps_lift_fault, _
      | apply keeps_ask
      | apply keeps_when; [apply _ |]
      | apply keeps_resource_threat; unfold resource_kind; simpl; tauto
      | apply keeps_bind; [apply _ | | intros ?] ].
  - intros e. apply keeps_log_message. eexists. now right.
Qed.

Lemma returns_check_system_resources : returns check_system_resources.
Proof. apply returns_try_except. intros e. apply returns_log_message. Qed.

(** C10. The kinds [check_system_resources] reports (high_system_cpu,
    high_system_memory, low_disk_space) are in neither severity table, so
    they are classified low; and whatever the readings and faults, the
    check returns, the entries it inserts in the log are of these kinds with
    severity low, and all it sends out are WARNING and ERROR lines of the
    log sink: it never speaks an alert. *)
Theorem resource_threats_low_never_spoken :
  (forall k, resource_kind k ->
     ~ In k high_severity /\ ~ In k medium_severity
     /\ get_threat_severity k = low)
  /\ forall (env : Env) (w : World),
       fst (check_system_resources env w) = Return tt
       /\ exists new evs,
            threat_log (snd (check_system_resources env w))
            = log_after (threat_log w) new
            /\ Forall (fun e => resource_kind (threat_type e)
                                /\ severity e = low) new
            /\ trace (snd (check_system_resources env w))
               = (trace w ++ evs)%list
            /\ Forall silent_event evs
            /\ Forall (fun ev => forall text, ev <> EvSay text) evs.
Proof.
  split; [exact resource_kind_low |].
  intros env w. split.
  - destruct (returns_check_system_resources env w) as [[] H]. exact H.
  - destruct (keeps_check_system_resources env w)
      as [_ _ _ _ _ (evs & Hev & HP) (new & Hnew & HK)].
    exists new, evs. repeat split; try assumption.
    + eapply Forall_impl; [exact HK |].
      intros e [Hk Hsev]. split; [exact Hk |].
      rewrite Hsev. now apply resource_kind_low.
    + eapply Forall_impl; [exact HP |].
      intros ev [msg [-> | ->]] text; discriminate.
Qed.

Example resource_check_ex :
  map (fun e => (threat_type e, severity e))
    (threat_log (snd (check_system_resources faulty_env (SecurityHandler ∅))))
  = [("high_system_cpu", low)]
  /\ trace (snd (check_system_resources faulty_env (SecurityHandler ∅)))
     = [EvLog "INFO" "Security data loaded successfully";
        EvLog "WARNING" "SECURITY THREAT: high_system_cpu - {...}";
        EvLog "ERROR" "System resource check failed: no meminfo"].
Proof. split; reflexivity. Qed.

(** ** One monitoring cycle *)

Lemma grows_weaken (P P' : event -> Prop) (K K' : string -> Prop) w w' :
  (forall e, P e -> P' e) -> (forall k, K k -> K' k) ->
  grows P K w w' -> grows P' K' w w'.
Proof.
  intros HP HK [Hm Ht Hth Hw Hf (evs & Hev & HPe) (new & Hnew & HKn)].
  split; try assumption.
  - exists evs. split; [exact Hev |].
    eapply Forall_impl; [exact HPe | exact HP].
  - exists new. split; [exact Hnew |].
    eapply Forall_impl; [exact HKn |].
    intros e [Hk Hs]. split; [now apply HK | exact Hs].
Qed.

Ltac keeps_step :=
  first
    [ apply keeps_ret, _
    | apply keeps_raise, _
    | apply keeps_get, _
    | apply keeps_asks, _
    | apply keeps_lift_outcome, _
    | apply keeps_lift_fault, _
    | apply keeps_ask
    | apply keeps_log_message; exact I
    | apply keeps_when; [apply _ |]
    | apply keeps_try_except; [apply _ | | intros ?]
    | apply keeps_try_except_psutil; [apply _ | |]
    | apply keeps_for_each; [apply _ | intros ?]
    | apply keeps_bind; [apply _ | | intros ?] ].

Lemma keeps_detection threat_type d :
  detection_kind threat_type ->
  keeps (grows check_event detection_kind) (log_threat threat_type d).
Proof.
  intros Hk. apply keeps_log_threat; [exact Hk | |].
  - intros msg. exact I.
  - intros _. split; intros; exact I.
Qed.

Ltac detection :=
  apply keeps_detection; unfold detection_kind; simpl; tauto.

Lemma keeps_flag_process info proc_name :
  keeps (grows check_event detection_kind) (flag_process info proc_name).
Proof.
  unfold flag_process, not_whitelisted.
  repeat first [detection | keeps_step].
Qed.

Lemma keeps_scan_process acc proc :
  keeps (grows check_event detection_kind) (scan_process acc proc).
Proof.
  unfold scan_process. destruct proc as [info | e].
  - destruct (name info) as [[| c proc_name] |].
    + keeps_step.
    + apply keeps_bind; [apply _ | | intros ?; keeps_step].
      apply keeps_try_except_psutil; [apply _ | apply keeps_flag_process |].
      keeps_step.
    + keeps_step.
  - destruct (Str.mem (exn_class e) PSUTIL_SKIPPED); keeps_step.
Qed.

Lemma keeps_scan_processes procs :
  forall acc, keeps (grows check_event detection_kind) (scan_processes procs acc).
Proof.
  induction procs as [| proc procs IH]; intros acc; simpl.
  - keeps_step.
  - apply keeps_bind; [apply _ | apply keeps_scan_process | intros acc'; apply IH].
Qed.

Lemma keeps_scan_running_processes :
  keeps (grows check_event detection_kind) scan_running_processes.
Proof.
  unfold scan_running_processes, scan_running_processes_try.
  apply keeps_try_except; [apply _ | | intros e; keeps_step].
  apply keeps_bind; [apply _ | keeps_step | intros procs].
  apply keeps_bind; [apply _ | keeps_step | intros procs'].
  apply keeps_bind; [apply _ | apply keeps_scan_processes | intros acc].
  repeat keeps_step.
Qed.

Lemma keeps_check_connection acc conn :
  keeps (grows check_event detection_kind) (check_connection acc conn).
Proof.
  unfold check_connection.
  destruct (String.eqb (status conn) CONN_ESTABLISHED); [| keeps_step].
  destruct (raddr conn) as [[remote_ip remote_port] |]; [| keeps_step].
  destruct (existsb (Z.eqb remote_port) suspicious_ports); [| keeps_step].
  apply keeps_bind; [apply _ | detection | intros _; keeps_step].
Qed.

Lemma keeps_check_connections connections :
  forall acc,
    keeps (grows check_event detection_kind) (check_connections connections acc).
Proof.
  induction connections as [| conn connections IH]; intros acc; simpl.
  - keeps_step.
  - apply keeps_bind;
      [apply _ | apply keeps_check_connection | intros acc'; apply IH].
Qed.

Lemma keeps_monitor_network_connections :
  keeps (grows check_event detection_kind) monitor_network_connections.
Proof.
  unfold monitor_network_connections, monitor_network_connections_try.
  apply keeps_try_except; [apply _ | | intros e; keeps_step].
  apply keeps_bind; [apply _ | keeps_step | intros conns].
  apply keeps_bind; [apply _ | keeps_step | intros connections].
  apply keeps_bind; [apply _ | apply keeps_check_connections | intros acc].
  repeat keeps_step.
Qed.

Lemma keeps_check_system_resources_detection :
  keeps (grows check_event detection_kind) check_system_resources.
Proof.
  intros env w.
  eapply grows_weaken; [| | apply keeps_check_system_resources].
  - intros e [msg [-> | ->]]; exact I.
  - unfold resource_kind, detection_kind. simpl. tauto.
Qed.

Lemma returns_scan_running_processes : returns scan_running_processes.
Proof. apply returns_try_except. intros e. apply returns_log_message. Qed.

Lemma returns_monitor_network_connections : returns monitor_network_connections.
Proof. apply returns_try_except. intros e. apply returns_log_message. Qed.

(** The world after the three checks of a cycle. *)
Lemma checks_run env w :
  exists w3,
    (scan_running_processes ;;; check_system_resources ;;;
     monitor_network_connections) env w = (Return tt, w3)
    /\ grows check_event detection_kind w w3.
Proof.
  unfold bind.
  destruct (returns_run _ env w returns_scan_running_processes) as [[] H1].
  rewrite H1.
  set (w1 := snd (scan_running_processes env w)).
  destruct (returns_run _ env w1 returns_check_system_resources) as [[] H2].
  rewrite H2.
  set (w2 := snd (check_system_resources env w1)).
  destruct (returns_run _ env w2 returns_monitor_network_connections) as [[] H3].
  exists (snd (monitor_network_connections env w2)). split; [exact H3 |].
  transitivity w1; [apply keeps_scan_running_processes |].
  transitivity w2; [apply keeps_check_system_resources_detection |].
  apply keeps_monitor_network_connections.
Qed.

Lemma time_sleep_run interval env w :
  0 <= interval <= MAX_SLEEP ->
  time_sleep interval env w
  = (Return tt, set_trace (trace w ++ [EvSleep interval]) w).
Proof.
  intros Hi. unfold time_sleep.
  destruct (MAX_SLEEP <? Z.abs interval) eqn:Hbig; [lia |].
  destruct (interval <? 0) eqn:Hneg; [lia |].
  reflexivity.
Qed.

Lemma monitoring_cycle_run env w interval :
  0 <= interval <= MAX_SLEEP ->
  exists w3,
    monitoring_cycle interval env w
    = (Return tt, set_trace (trace w3 ++ [EvSleep interval]) w3)
    /\ grows check_event detection_kind w w3.
Proof.
  intros Hi. destruct (checks_run env w) as (w3 & Hrun & Hgrow).
  exists w3. split; [| exact Hgrow].
  unfold monitoring_cycle, monitoring_cycle_try, try_except.
  unfold bind in *.
  destruct (scan_running_processes env w) as [[[] | e1] w1]; [| discriminate].
  destruct (check_system_resources env w1) as [[[] | e2] w2]; [| discriminate].
  destruct (monitor_network_connections env w2) as [[[] | e3] w3'];
    [| discriminate].
  injection Hrun as ->.
  now rewrite time_sleep_run.
Qed.

Lemma sleeps_grows w w' :
  grows check_event detection_kind w w' -> sleeps (trace w') = sleeps (trace w).
Proof.
  intros [_ _ _ _ _ (evs & -> & HP) _]. unfold sleeps.
  rewrite List.filter_app, length_app.
  assert (H : List.filter is_sleep evs = []).
  { induction HP as [| e evs He _ IH]; [reflexivity |].
    simpl. destruct e; simpl in *; try contradiction; exact IH. }
  rewrite H. simpl. lia.
Qed.

Lemma monitoring_loop_run env interval :
  0 <= interval <= MAX_SLEEP ->
  forall n w,
    is_monitoring w = true ->
    exists w',
      _monitoring_loop n interval env w = (Return Looping, w')
      /\ is_monitoring w' = true
      /\ sleeps (trace w') = (sleeps (trace w) + n)%nat
      /\ threads w' = threads w.
Proof.
  intros Hi. induction n as [| n IH]; intros w Hon.
  - exists w. simpl. repeat split; try assumption. lia.
  - destruct (monitoring_cycle_run env w interval Hi) as (w3 & Hrun & Hgrow).
    set (w1 := set_trace (trace w3 ++ [EvSleep interval]) w3) in *.
    assert (Hon1 : is_monitoring w1 = true).
    { subst w1. simpl. now rewrite (grows_is_monitoring _ _ _ _ Hgrow). }
    destruct (IH w1 Hon1) as (w' & Hloop & Hon' & Hsleeps & Hth).
    exists w'. simpl. unfold bind, get. rewrite Hon, Hrun.
    repeat split; try assumption.
    + rewrite Hsleeps. subst w1. simpl. unfold sleeps at 1.
      rewrite List.filter_app, length_app. simpl.
      fold (sleeps (trace w3)). rewrite (sleeps_grows _ _ Hgrow). lia.
    + rewrite Hth. subst w1. simpl. apply (grows_threads _ _ _ _ Hgrow).
Qed.

(** ** The monitoring loop outlives every fault *)

Lemma caught_fault_run (body : M unit) (prefix : string) env w0 w1 e :
  body env w0 = (Raise e, w1) ->
  try_except body (fun e => log_message (prefix +:+ exn_msg e) "ERROR") env w0
  = (Return tt,
     set_trace (trace w1 ++ [EvLog "ERROR" (prefix +:+ exn_msg e)]) w1).
Proof. intros H. unfold try_except. rewrite H. reflexivity. Qed.





(** What the faulty machine leaves in the trace in one cycle. *)
Example faulty_cycle_ex :
  trace (snd (monitoring_cycle 300 faulty_env
                (set_is_monitoring true (SecurityHandler ∅))))
  = [EvLog "INFO" "Security data loaded successfully";
     EvLog "ERROR" "Process scan failed: cannot list processes";
     EvLog "WARNING" "SECURITY THREAT: high_system_cpu - {...}";
     EvLog "ERROR" "System resource check failed: no meminfo";
     EvLog "ERROR" "Network monitoring failed: net_connections";
     EvSleep 300].
Proof. reflexivity. Qed.

(** A sleep length that [time.sleep] refuses is raised again by the handler
    of the loop body and ends the loop. *)
Example negative_interval_ends_loop :
  fst (_monitoring_loop 1 (-1) quiet_env
         (set_is_monitoring true (SecurityHandler ∅)))
  = Raise (Exn "ValueError" "sleep length must be non-negative").
Proof. reflexivity. Qed.

Example oversized_interval_ends_loop :
  fst (_monitoring_loop 1 10000000000 quiet_env
         (set_is_monitoring true (SecurityHandler ∅)))
  = Raise (Exn "OverflowError" "timestamp too large to convert to C _PyTime_t").
Proof. vm_compute. reflexivity. Qed.

(** ** Start and stop *)

(** [start_monitoring] on a handler that is monitoring: one line in the log
    sink, nothing else; no thread is created. *)
Lemma start_monitoring_running env w interval :
  is_monitoring w = true ->
  start_monitoring interval env w
  = (Return tt,
     set_trace
       (trace w ++ [EvLog "INFO" "Security monitoring is already running"]) w).
Proof.
  intros Hon. unfold start_monitoring, bind, get. rewrite Hon. reflexivity.
Qed.

(** [start_monitoring] on a stopped handler creates exactly one thread and
    sets the flag, whether or not the announcement that follows fails. *)
Lemma start_monitoring_stopped env w interval :
  is_monitoring w = false ->
  is_monitoring (snd (start_monitoring interval env w)) = true
  /\ threads (snd (start_monitoring interval env w))
     = (threads w ++ [mk_thread interval true])%list
  /\ monitoring_thread (snd (start_monitoring interval env w))
     = Some (length (threads w)).
Proof.
  intros Hoff. unfold start_monitoring, thread_start, speak. munfold.
  rewrite Hoff. simpl.
  destruct (env_speak env (tick w)); simpl; repeat split; reflexivity.
Qed.

(** [stop_monitoring] clears the flag and leaves the threads alone, whether
    or not the announcement that follows fails. *)
Lemma stop_monitoring_flag env w :
  is_monitoring (snd (stop_monitoring env w)) = false
  /\ threads (snd (stop_monitoring env w)) = threads w.
Proof.
  unfold stop_monitoring, speak. munfold. simpl.
  destruct (env_speak env (tick w)); simpl; split; reflexivity.
Qed.

(** A thread at the head of its loop while the flag is set goes on. *)
Lemma thread_turn_running env w tid :
  is_monitoring w = true ->
  Forall (fun th => 0 <= th_interval th <= MAX_SLEEP) (threads w) ->
  is_monitoring (thread_turn tid env w) = true
  /\ threads (thread_turn tid env w) = threads w.
Proof.
  intros Hon Hpos. unfold thread_turn.
  destruct (threads w !! tid) as [th |] eqn:Hth; [| now split].
  destruct (th_alive th); [| now split].
  assert (Hi : 0 <= th_interval th <= MAX_SLEEP).
  { rewrite Forall_forall in Hpos. apply Hpos.
    eapply list_elem_of_lookup_2. exact Hth. }
  destruct (monitoring_loop_run env (th_interval th) Hi 1 w Hon)
    as (w' & Hrun & Hon' & _ & Hthreads).
  rewrite Hrun. now split.
Qed.

(** A thread at the head of its loop while the flag is cleared ends. *)
Lemma thread_turn_stopped env w tid th :
  is_monitoring w = false ->
  threads w !! tid = Some th ->
  threads (thread_turn tid env w)
  = <[tid := mk_thread (th_interval th) false]> (threads w).
Proof.
  intros Hoff Hth. unfold thread_turn. rewrite Hth.
  destruct th as [interval [|]]; simpl.
  - unfold bind, get. rewrite Hoff. simpl. unfold set_thread_dead. simpl.
    apply list_eq. intros i. destruct (decide (i = tid)) as [-> | Hne].
    + rewrite list_lookup_alter, decide_True by done.
      rewrite Hth. simpl. symmetry. apply list_lookup_insert_eq.
      eapply lookup_lt_Some. exact Hth.
    + rewrite list_lookup_alter, decide_False by done.
      now rewrite list_lookup_insert_ne.
  - symmetry. apply list_insert_id. exact Hth.
Qed.

Lemma turns_running env turns :
  forall w,
    is_monitoring w = true ->
    Forall (fun th => 0 <= th_interval th <= MAX_SLEEP) (threads w) ->
    is_monitoring (run env (map ThreadTurn turns) w) = true
    /\ threads (run env (map ThreadTurn turns) w) = threads w.
Proof.
  induction turns as [| tid turns IH]; intros w Hon Hpos; [now split |].
  simpl. destruct (thread_turn_running env w tid Hon Hpos) as [Hon' Hth'].
  destruct (IH (thread_turn tid env w) Hon') as [Hon'' Hth''].
  - now rewrite Hth'.
  - split; [exact Hon'' | congruence].
Qed.

(** Stopping and starting again before the first thread has tested the flag
    leaves two monitoring threads, and no later turn ends either of them. *)
Lemma restart_before_turn_two_loops env files i1 i2 turns :
  0 <= i1 <= MAX_SLEEP -> 0 <= i2 <= MAX_SLEEP ->
  live_threads
    (run env (CallStart i1 :: CallStop :: CallStart i2 :: map ThreadTurn turns)
       (SecurityHandler files))
  = [mk_thread i1 true; mk_thread i2 true].
Proof.
  intros H1 H2. cbn [run fold_left step].
  set (w0 := SecurityHandler files).
  destruct (start_monitoring_stopped env w0 i1 eq_refl) as (_ & Ht1 & _).
  set (w1 := snd (start_monitoring i1 env w0)) in *.
  destruct (stop_monitoring_flag env w1) as [Hoff2 Ht2].
  set (w2 := snd (stop_monitoring env w1)) in *.
  destruct (start_monitoring_stopped env w2 i2 Hoff2) as (Hon3 & Ht3 & _).
  set (w3 := snd (start_monitoring i2 env w2)) in *.
  assert (Hthreads : threads w3 = [mk_thread i1 true; mk_thread i2 true]).
  { rewrite Ht3, Ht2, Ht1. reflexivity. }
  destruct (turns_running env turns w3 Hon3) as [_ Hsame].
  { rewrite Hthreads. constructor; [exact H1 |].
    constructor; [exact H2 | constructor]. }
  fold (run env (map ThreadTurn turns) w3).
  unfold live_threads. rewrite Hsame, Hthreads. reflexivity.
Qed.

(** C6, at its failing input. start(300), one cycle of the thread, stop(),
    and start(300) again while the first thread is still in its sleep: the
    first thread finds the flag set when it wakes, and two monitoring
    threads run from then on, turn after turn. *)
Theorem restart_during_sleep_runs_two_loops :
  live_threads
    (run quiet_env
       [CallStart 300; ThreadTurn 0; CallStop; CallStart 300;
        ThreadTurn 0; ThreadTurn 1; ThreadTurn 0; ThreadTurn 1]
       (SecurityHandler ∅))
  = [mk_thread 300 true; mk_thread 300 true]
  /\ is_monitoring
       (run quiet_env
          [CallStart 300; ThreadTurn 0; CallStop; CallStart 300;
           ThreadTurn 0; ThreadTurn 1; ThreadTurn 0; ThreadTurn 1]
          (SecurityHandler ∅))
     = true
  /\ sleeps
       (trace
          (run quiet_env
             [CallStart 300; ThreadTurn 0; CallStop; CallStart 300;
              ThreadTurn 0; ThreadTurn 1; ThreadTurn 0; ThreadTurn 1]
             (SecurityHandler ∅)))
     = 5%nat.
Proof. repeat split; vm_compute; reflexivity. Qed.

(** When the thread tests the flag between the stop and the next start, it
    ends, and one thread is left after the restart. *)
Example restart_after_turn_one_loop :
  live_threads
    (run quiet_env
       [CallStart 300; ThreadTurn 0; CallStop; ThreadTurn 0; CallStart 300;
        ThreadTurn 0; ThreadTurn 1]
       (SecurityHandler ∅))
  = [mk_thread 300 true].
Proof. vm_compute. reflexivity. Qed.

(** ** Status *)

Lemma filterM_within_run env h log :
  forall w,
    filterM (within_hours h) log env w
    = (Return (newer_at env h (tick w) log),
       set_tick (tick w + length log) w).
Proof.
  induction log as [| e log IH]; intros w; simpl.
  - unfold ret. rewrite Nat.add_0_r. now destruct w.
  - unfold bind at 1. unfold within_hours at 1, datetime_now. munfold.
    simpl. rewrite IH. simpl.
    f_equal. unfold set_tick. simpl. f_equal. lia.
Qed.

Lemma filterM_recent_high_run env log :
  forall w,
    filterM recent_high log env w
    = (Return (recent_high_at env (tick w) log),
       set_tick (tick w + count_high log) w).
Proof.
  induction log as [| e log IH]; intros w; simpl.
  - unfold ret. rewrite Nat.add_0_r. now destruct w.
  - unfold bind at 1. unfold recent_high at 1.
    destruct (Severity_eqb (severity e) high); simpl.
    + unfold within_hours, datetime_now. munfold. simpl. rewrite IH. simpl.
      f_equal. unfold set_tick. simpl. f_equal. lia.
    + munfold. rewrite IH. reflexivity.
Qed.

Lemma Qgtb_lt a b : Qgtb a b = true <-> (b < a)%Q.
Proof.
  unfold Qgtb. rewrite negb_true_iff, <- not_true_iff_false, Qle_bool_iff.
  split; [apply Qnot_le_lt | apply Qlt_not_le].
Qed.

Lemma recent_high_at_steady env now log :
  forall t,
    (forall k, (t <= k)%nat -> env_now env k = now) ->
    forall e,
      In e (recent_high_at env t log)
      <-> In e log /\ severity e = high
          /\ Datetime.newer_than (timestamp e) now (Datetime.hours 1) = true.
Proof.
  induction log as [| x log IH]; intros t Hnow e; simpl.
  - tauto.
  - destruct (Severity_eqb (severity x) high) eqn:Hsev.
    + assert (Hx : severity x = high) by (destruct (severity x); easy).
      rewrite (Hnow t) by lia.
      assert (IH' := IH (S t) (fun k Hk => Hnow k ltac:(lia)) e).
      destruct (Datetime.newer_than (timestamp x) now _) eqn:Hnew; simpl.
      * rewrite IH'. split.
        -- intros [-> | (Hin & He)]; [tauto | tauto].
        -- intros ([-> | Hin] & He); [now left | right; tauto].
      * rewrite IH'. split.
        -- tauto.
        -- intros ([-> | Hin] & Hh & Hn); [congruence | tauto].
    + rewrite (IH t Hnow e). split.
      * tauto.
      * intros ([-> | Hin] & Hh & Hn); [| tauto].
        rewrite Hh in Hsev. discriminate.
Qed.

Lemma nonempty_In {A} (l : list A) : nonempty l = true <-> exists x, In x l.
Proof.
  destruct l as [| x l]; simpl; split; try easy.
  - now intros [x []].
  - intros _. exists x. now left.
Qed.

(** C9. When the three gauges answer, the status is a report whose health
    is critical if disk > 90 or the list of recent high severity threats is
    not empty, warning if cpu > 80 or memory > 85 and not critical, good
    otherwise; its recommendations are one hint per condition that holds,
    all kept; a disk above 90 (96, say) gives critical and the disk hint;
    and, when the clock stands still while the log is examined, the list is
    not empty exactly when the log holds a high severity entry newer than
    one hour. *)
Theorem status_health_rule :
  forall (env : Env) (w : World) (cpu mem disk : Q),
    env_cpu_percent env (S (tick w + length (threat_log w))) = Return cpu ->
    env_virtual_memory env (S (S (tick w + length (threat_log w))))
    = Return mem ->
    env_disk_usage env (S (S (S (tick w + length (threat_log w)))))
    = Return disk ->
    let examined := S (S (S (S (tick w + length (threat_log w))))) in
    let recent_high_threats := recent_high_at env examined (threat_log w) in
    exists s w',
      get_system_security_status env w = (Return (StatusReport s), w')
      /\ system_health s
         = spec_health cpu mem disk (nonempty recent_high_threats)
      /\ recommendations s
         = spec_recommendations cpu mem disk (nonempty recent_high_threats)
      /\ monitoring_active s = is_monitoring w
      /\ total_threats_logged s = length (threat_log w)
      /\ ((90 # 1 < disk)%Q ->
          system_health s = critical
          /\ In "Low disk space - cleanup recommended" (recommendations s))
      /\ (forall now,
            (forall k, (examined <= k)%nat -> env_now env k = now) ->
            (nonempty recent_high_threats = true
             <-> exists e,
                   In e (threat_log w) /\ severity e = high
                   /\ Datetime.newer_than (timestamp e) now (Datetime.hours 1)
                      = true)).
Proof.
  intros env w cpu mem disk Hc Hm Hd examined recent_high_threats.
  unfold get_system_security_status, try_except.
  unfold bind, get. rewrite filterM_within_run.
  unfold datetime_now, ask, lift_outcome. simpl.
  rewrite Hc. simpl. rewrite Hm. simpl. rewrite Hd. simpl.
  rewrite filterM_recent_high_run. simpl.
  fold examined. fold recent_high_threats.
  change (negb (length recent_high_threats =? 0)%nat)
    with (nonempty recent_high_threats).
  eexists. eexists. split; [reflexivity |].
  unfold spec_health, spec_recommendations.
  repeat split.
  - destruct (nonempty recent_high_threats), (Qgtb disk (90 # 1)),
      (Qgtb mem (85 # 1)), (Qgtb cpu (80 # 1)); reflexivity.
  - destruct (nonempty recent_high_threats), (Qgtb disk (90 # 1)),
      (Qgtb mem (85 # 1)), (Qgtb cpu (80 # 1)); reflexivity.
  - destruct (nonempty recent_high_threats), (Qgtb disk (90 # 1)),
      (Qgtb mem (85 # 1)), (Qgtb cpu (80 # 1)); reflexivity.
  - destruct (nonempty recent_high_threats), (Qgtb disk (90 # 1)),
      (Qgtb mem (85 # 1)), (Qgtb cpu (80 # 1)); reflexivity.
  - apply Qgtb_lt in H. rewrite H.
    destruct (nonempty recent_high_threats), (Qgtb mem (85 # 1)),
      (Qgtb cpu (80 # 1)); reflexivity.
  - apply Qgtb_lt in H. rewrite H.
    destruct (nonempty recent_high_threats), (Qgtb mem (85 # 1)),
      (Qgtb cpu (80 # 1)); simpl; tauto.
  - intros Hne. apply nonempty_In in Hne. destruct Hne as [e He].
    exists e. eapply recent_high_at_steady; eassumption.
  - intros [e He]. apply nonempty_In. exists e.
    eapply recent_high_at_steady; eassumption.
Qed.

Lemma status_health_rule_witness :
  env_cpu_percent full_disk_env 1 = Return (12 # 1)
  /\ env_virtual_memory full_disk_env 2 = Return (40 # 1)
  /\ env_disk_usage full_disk_env 3 = Return (96 # 1)
  /\ exists s w',
       get_system_security_status full_disk_env (SecurityHandler ∅)
       = (Return (StatusReport s), w')
       /\ system_health s = critical
       /\ In "Low disk space - cleanup recommended" (recommendations s).
Proof.
  repeat split.
  destruct (status_health_rule full_disk_env (SecurityHandler ∅)
              (12 # 1) (40 # 1) (96 # 1) eq_refl eq_refl eq_refl)
    as (s & w' & Hrun & _ & _ & _ & _ & Hdisk & _).
  exists s, w'. split; [exact Hrun |].
  apply Hdisk. reflexivity.
Defined.

(** After [stop_monitoring], a status that is reported says that monitoring
    is not active. *)
Lemma status_reports_flag env w s w' :
  get_system_security_status env w = (Return (StatusReport s), w') ->
  monitoring_active s = is_monitoring w.
Proof.
  unfold get_system_security_status, try_except.
  unfold bind, get. rewrite filterM_within_run.
  unfold datetime_now, ask, lift_outcome. simpl.
  destruct (env_cpu_percent env _) as [cpu | e]; simpl;
    [| unfold log_message; munfold; simpl; discriminate].
  destruct (env_virtual_memory env _) as [mem | e]; simpl;
    [| unfold log_message; munfold; simpl; discriminate].
  destruct (env_disk_usage env _) as [disk | e]; simpl;
    [| unfold log_message; munfold; simpl; discriminate].
  rewrite filterM_recent_high_run. simpl.
  intros H. injection H as <- _.
  destruct (negb _), (Qgtb disk 90), (Qgtb mem 85), (Qgtb cpu 80); reflexivity.
Qed.

Lemma stop_then_status_inactive env w s w' :
  get_system_security_status env (snd (stop_monitoring env w))
  = (Return (StatusReport s), w') ->
  monitoring_active s = false.
Proof.
  intros H. rewrite (status_reports_flag _ _ _ _ H).
  apply stop_monitoring_flag.
Qed.

(** ** Paths *)

Lemma append_nil (b : string) : "" +:+ b = b.
Proof. reflexivity. Qed.

Lemma append_cons x (a b : string) : String x a +:+ b = String x (a +:+ b).
Proof. reflexivity. Qed.

Lemma append_assoc (a b c : string) : (a +:+ b) +:+ c = a +:+ (b +:+ c).
Proof.
  induction a as [| x a IH]; [reflexivity |].
  rewrite !append_cons. now f_equal.
Qed.

Lemma length_append (a b : string) :
  String.length (a +:+ b) = (String.length a + String.length b)%nat.
Proof.
  induction a as [| x a IH]; [reflexivity |].
  rewrite append_cons. simpl. now f_equal.
Qed.

Lemma has_append c (a b : string) :
  Str.has c (a +:+ b) = Str.has c a || Str.has c b.
Proof.
  induction a as [| x a IH]; [reflexivity |].
  rewrite append_cons. simpl. rewrite IH. now rewrite orb_assoc.
Qed.

Lemma rsplit_no_sep sep s : Str.has sep s = false -> Str.rsplit sep s = (None, s).
Proof.
  induction s as [| x s IH]; simpl; [reflexivity |].
  intros H. apply orb_false_iff in H as [Hx Hs].
  rewrite (IH Hs), Hx. reflexivity.
Qed.

Lemma rsplit_snd_no_sep sep s : Str.has sep (snd (Str.rsplit sep s)) = false.
Proof.
  induction s as [| x s IH]; simpl; [reflexivity |].
  destruct (Str.rsplit sep s) as [[h |] t]; simpl in *; [exact IH |].
  destruct (Ascii.eqb x sep) eqn:Hx; simpl; [exact IH |].
  now rewrite Hx.
Qed.

Lemma rsplit_append sep x y :
  Str.has sep y = false ->
  Str.rsplit sep (x +:+ y)
  = (fst (Str.rsplit sep x), snd (Str.rsplit sep x) +:+ y).
Proof.
  intros Hy. induction x as [| c x IH].
  - rewrite append_nil. now apply rsplit_no_sep.
  - rewrite append_cons. simpl. rewrite IH.
    destruct (Str.rsplit sep x) as [[h |] t]; simpl; [reflexivity |].
    now destruct (Ascii.eqb c sep).
Qed.

Lemma rsplit_sep_append sep x y :
  Str.has sep y = false ->
  Str.rsplit sep (x +:+ String sep y) = (Some x, y).
Proof.
  intros Hy. induction x as [| c x IH].
  - rewrite append_nil. simpl.
    rewrite (rsplit_no_sep _ _ Hy). now rewrite Ascii.eqb_refl.
  - rewrite append_cons. simpl. now rewrite IH.
Qed.

Lemma prefix_sep_has c s : Str.has c s = false -> String.prefix (String c "") s = false.
Proof.
  destruct s as [| x s]; simpl; [reflexivity |].
  intros H. apply orb_false_iff in H as [Hx _].
  destruct (ascii_dec c x) as [-> | Hne]; [| reflexivity].
  now rewrite Ascii.eqb_refl in Hx.
Qed.

Lemma digit_not_slash n : Ascii.eqb (ascii_of_nat (48 + Z.to_nat (n mod 10))) "/" = false.
Proof.
  apply Ascii.eqb_neq. intros H.
  assert (Hlt : (Z.to_nat (n mod 10) < 10)%nat).
  { pose proof (Z.mod_pos_bound n 10 ltac:(lia)). lia. }
  apply (f_equal nat_of_ascii) in H.
  rewrite nat_ascii_embedding in H by lia.
  change (nat_of_ascii "/") with 47%nat in H. lia.
Qed.

Lemma digits_no_slash fuel :
  forall n acc, Str.has "/" acc = false -> Str.has "/" (Str.digits fuel n acc) = false.
Proof.
  induction fuel as [| f IH]; intros n acc Hacc; [exact Hacc |].
  cbn [Str.digits]. destruct (n <? 10).
  - cbn [Str.has]. now rewrite digit_not_slash.
  - apply IH. cbn [Str.has]. now rewrite digit_not_slash.
Qed.

Lemma of_Z_no_slash n : Str.has "/" (Str.of_Z n) = false.
Proof.
  unfold Str.of_Z. destruct (n <? 0).
  - rewrite append_cons, append_nil. cbn [Str.has].
    rewrite digits_no_slash; reflexivity.
  - now apply digits_no_slash.
Qed.

Lemma pad_no_slash width n : Str.has "/" (Str.pad width n) = false.
Proof.
  unfold Str.pad. rewrite has_append, of_Z_no_slash, orb_false_r.
  induction (width - String.length (Str.of_Z n))%nat as [| k IH];
    simpl; [reflexivity | exact IH].
Qed.

Lemma strftime_no_slash t : Str.has "/" (Datetime.strftime_compact t) = false.
Proof.
  unfold Datetime.strftime_compact.
  repeat rewrite has_append. repeat rewrite pad_no_slash. reflexivity.
Qed.

Lemma basename_no_slash p : Str.has "/" (Path.basename p) = false.
Proof. apply rsplit_snd_no_sep. Qed.

(** The name given to a quarantined file. *)
Lemma quarantine_name_no_slash file_path t :
  Str.has "/" (Datetime.strftime_compact t +:+ "_" +:+ Path.basename file_path)
  = false.
Proof.
  rewrite !has_append, strftime_no_slash, basename_no_slash. reflexivity.
Qed.

Lemma quarantine_path_of_eq file_path t :
  quarantine_path_of file_path t
  = "data/quarantine/" +:+ Datetime.strftime_compact t +:+ "_"
    +:+ Path.basename file_path.
Proof.
  unfold quarantine_path_of, Path.join.
  rewrite (prefix_sep_has "/" _ (quarantine_name_no_slash file_path t)).
  reflexivity.
Qed.

Lemma quarantine_path_of_rsplit file_path t :
  Str.rsplit "/" (quarantine_path_of file_path t)
  = (Some "data/quarantine",
     Datetime.strftime_compact t +:+ "_" +:+ Path.basename file_path).
Proof.
  rewrite quarantine_path_of_eq.
  change ("data/quarantine/" +:+ Datetime.strftime_compact t +:+ "_"
          +:+ Path.basename file_path)
    with ("data/quarantine"
          +:+ String "/" (Datetime.strftime_compact t +:+ "_"
                          +:+ Path.basename file_path)).
  apply rsplit_sep_append, quarantine_name_no_slash.
Qed.

Lemma quarantine_path_of_fresh file_path t :
  quarantine_path_of file_path t <> file_path.
Proof.
  intros H. apply (f_equal Path.basename) in H.
  unfold Path.basename at 1 in H. rewrite quarantine_path_of_rsplit in H.
  simpl in H. apply (f_equal String.length) in H.
  rewrite !length_append in H. simpl in H. lia.
Qed.

(** ** Paths that do not exist *)

(** C3. For a path that does not exist, the scan fails with the not-found
    error ([{'error': 'File not found'}]) and the quarantine fails (it
    returns [False]); neither changes anything: no entry, no event, no
    external call, the file system as it was. *)
Theorem missing_path_fails :
  forall (env : Env) (w : World) (file_path : string),
    fs w !! file_path = None ->
    scan_file_for_threats file_path env w
    = (Return (ScanError "File not found"), w)
    /\ quarantine_file file_path env w = (Return false, w).
Proof.
  intros env w file_path Hnone. split.
  - unfold scan_file_for_threats, os_path_exists, try_except, bind, get, ret.
    cbv beta iota. rewrite Hnone. reflexivity.
  - unfold quarantine_file, os_path_exists, try_except, bind, get, ret.
    cbv beta iota. rewrite Hnone. reflexivity.
Qed.

Lemma missing_path_fails_witness :
  fs (SecurityHandler ∅) !! "downloads/gone.exe" = None
  /\ scan_file_for_threats "downloads/gone.exe" quiet_env (SecurityHandler ∅)
     = (Return (ScanError "File not found"), SecurityHandler ∅)
  /\ quarantine_file "downloads/gone.exe" quiet_env (SecurityHandler ∅)
     = (Return false, SecurityHandler ∅).
Proof.
  split; [reflexivity |].
  exact (missing_path_fails quiet_env (SecurityHandler ∅) "downloads/gone.exe"
           eq_refl).
Defined.

(** ** Quarantine *)

Lemma log_threat_quiet_run env w threat_type d :
  get_threat_severity threat_type <> high ->
  log_threat threat_type d env w
  = (Return tt,
     set_trace
       (trace w ++ [EvLog "WARNING"
                      ("SECURITY THREAT: " +:+ threat_type +:+ " - "
                       +:+ py_str env d)])
       (set_threat_log
          (slice_last 1000
             (threat_log w ++ [entry_of env (tick w) (threat_type, d)]))
          (set_tick (S (tick w)) w))).
Proof.
  intros Hsev. unfold log_threat, entry_of. munfold. simpl.
  assert (Hq : Severity_eqb (get_threat_severity threat_type) high = false).
  { destruct (get_threat_severity threat_type); easy. }
  rewrite Hq.
  destruct (1000 <? length (threat_log w ++ _))%nat eqn:Hlen; simpl.
  - reflexivity.
  - apply Nat.ltb_ge in Hlen. rewrite slice_last_short by exact Hlen.
    reflexivity.
Qed.

Lemma makedirs_quarantine_is_dir f :
  is_dir (makedirs_fs quarantine_dir f) quarantine_dir = true.
Proof.
  unfold makedirs_fs.
  change (Path.prefixes "" quarantine_dir) with ["data"; "data/quarantine"].
  change quarantine_dir with "data/quarantine".
  cbn [fold_left].
  set (f1 := if is_dir f "data" then f else <["data" := Dir 4096]> f).
  destruct (is_dir f1 "data/quarantine") eqn:H; [exact H |].
  unfold is_dir. now rewrite lookup_insert_eq.
Qed.

Lemma makedirs_quarantine_file f p content readable :
  f !! p = Some (File content readable) ->
  existsb (is_file f) (Path.prefixes "" quarantine_dir) = false ->
  makedirs_fs quarantine_dir f !! p = Some (File content readable).
Proof.
  unfold makedirs_fs.
  change (Path.prefixes "" quarantine_dir) with ["data"; "data/quarantine"].
  cbn [fold_left existsb]. intros Hp Hfiles.
  apply orb_false_iff in Hfiles as [H1 H2].
  apply orb_false_iff in H2 as [H2 _].
  assert (Hne1 : "data" <> p).
  { intros <-. unfold is_file in H1. now rewrite Hp in H1. }
  assert (Hne2 : "data/quarantine" <> p).
  { intros <-. unfold is_file in H2. now rewrite Hp in H2. }
  destruct (is_dir f "data"); destruct (is_dir _ "data/quarantine");
    rewrite ?lookup_insert_ne by assumption; exact Hp.
Qed.







(** ** Quarantine: when it succeeds *)

Lemma makedirs_quarantine_other f p :
  p <> "data" -> p <> "data/quarantine" ->
  makedirs_fs quarantine_dir f !! p = f !! p.
Proof.
  unfold makedirs_fs.
  change (Path.prefixes "" quarantine_dir) with ["data"; "data/quarantine"].
  cbn [fold_left]. intros H1 H2.
  destruct (is_dir f "data"); destruct (is_dir _ "data/quarantine");
    rewrite ?lookup_insert_ne by congruence; reflexivity.
Qed.

Lemma quarantine_path_of_deep file_path t :
  quarantine_path_of file_path t <> "data"
  /\ quarantine_path_of file_path t <> "data/quarantine".
Proof.
  rewrite quarantine_path_of_eq.
  split; intros H; apply (f_equal String.length) in H;
    rewrite length_append in H; simpl in H; lia.
Qed.

Lemma quarantine_path_of_dirname file_path t :
  Path.dirname (quarantine_path_of file_path t) = quarantine_dir.
Proof.
  unfold Path.dirname. rewrite quarantine_path_of_rsplit. reflexivity.
Qed.

Lemma os_makedirs_run d env w :
  env_makedirs env (tick w) = None ->
  fs w !! d = None ->
  existsb (is_file (fs w)) (Path.prefixes "" d) = false ->
  os_makedirs d env w
  = (Return tt, set_fs (makedirs_fs d (fs w)) (set_tick (S (tick w)) w)).
Proof.
  intros Hfault Hd Hfiles. unfold os_makedirs. munfold. simpl.
  rewrite Hfault. simpl. rewrite Hd, Hfiles. reflexivity.
Qed.

Lemma speak_run text env w :
  env_speak env (tick w) = None ->
  speak text env w
  = (Return tt,
     set_trace (trace w ++ [EvLog "INFO" ("Speaking: " +:+ text); EvSay text])
       (set_tick (S (tick w)) w)).
Proof.
  intros Hfault. unfold speak. munfold. simpl. rewrite Hfault. simpl.
  unfold set_trace. simpl. now rewrite <- app_assoc.
Qed.

Lemma bind_raise {A B} (m : M A) (k : A -> M B) env w e w1 :
  m env w = (Raise e, w1) -> bind m k env w = (Raise e, w1).
Proof. intros H. unfold bind. now rewrite H. Qed.

Lemma speak_fail_run text env w e :
  env_speak env (tick w) = Some e ->
  speak text env w
  = (Raise e,
     set_trace (trace w ++ [EvLog "INFO" ("Speaking: " +:+ text)])
       (set_tick (S (tick w)) w)).
Proof. intros Hfault. unfold speak. munfold. simpl. now rewrite Hfault. Qed.

Lemma shutil_move_over_run src dst content readable env w :
  env_move env (tick w) = None ->
  fs w !! src = Some (File content readable) ->
  is_dir (fs w) dst = false ->
  is_dir (fs w) (Path.dirname dst) = true ->
  shutil_move src dst env w
  = (Return tt,
     set_fs (<[dst := File content readable]> (delete src (fs w)))
       (set_tick (S (tick w)) w)).
Proof.
  intros Hfault Hsrc Hnodir Hparent. unfold shutil_move. munfold. simpl.
  rewrite Hfault. simpl.
  rewrite Hnodir. simpl. rewrite Hsrc, Hnodir, Hparent.
  rewrite andb_false_r. reflexivity.
Qed.

(** The world a quarantine leaves behind once the file has been moved: the
    announcement comes last, and its failure only changes the answer. *)
Lemma quarantine_file_run env w file_path content readable :
  fs w !! file_path = Some (File content readable) ->
  let created := negb (bool_decide (is_Some (fs w !! quarantine_dir))) in
  let t := if created then S (tick w) else tick w in
  let files := if created then makedirs_fs quarantine_dir (fs w) else fs w in
  let quarantine_path := quarantine_path_of file_path (env_now env t) in
  (if created
   then env_makedirs env (tick w) = None
        /\ existsb (is_file (fs w)) (Path.prefixes "" quarantine_dir) = false
   else is_dir (fs w) quarantine_dir = true) ->
  is_dir (fs w) quarantine_path = false ->
  env_move env (S t) = None ->
  exists w',
    quarantine_file file_path env w
    = (Return (match env_speak env (S (S (S (S t)))) with
               | None => true
               | Some _ => false
               end), w')
    /\ fs w' = <[quarantine_path := File content readable]>
                 (delete file_path files)
    /\ is_dir files quarantine_dir = true
    /\ files !! file_path = Some (File content readable)
    /\ tick w' = S (S (S (S (S t))))
    /\ threat_log w'
       = slice_last 1000
           (threat_log w
            ++ [ {| timestamp := env_now env (S (S (S t)));
                    threat_type := "file_quarantined";
                    details :=
                      DQuarantine file_path quarantine_path
                        (env_now env (S (S t)));
                    severity := low |} ])
    /\ (exists said,
          trace w'
          = (trace w
             ++ [EvLog "WARNING"
                   ("SECURITY THREAT: file_quarantined - "
                    +:+ py_str env
                          (DQuarantine file_path quarantine_path
                             (env_now env (S (S t)))));
                 EvLog "INFO"
                   ("File quarantined: " +:+ file_path +:+ " -> "
                    +:+ quarantine_path);
                 EvLog "INFO"
                   ("Speaking: Suspicious file quarantined: "
                    +:+ Path.basename file_path)]
             ++ [said])%list
          /\ said
             = match env_speak env (S (S (S (S t)))) with
               | None =>
                   EvSay ("Suspicious file quarantined: "
                          +:+ Path.basename file_path)
               | Some e =>
                   EvLog "ERROR"
                     ("Failed to quarantine file " +:+ file_path +:+ ": "
                      +:+ exn_msg e)
               end).
Proof.
  intros Hfile created t files quarantine_path Hdir Hfree Hmove.
  destruct (quarantine_path_of_deep file_path (env_now env t)) as [Hd1 Hd2].
  fold quarantine_path in Hd1, Hd2.
  unfold quarantine_file, try_except.
  rewrite (bind_run _ _ _ _ _ _ (os_path_exists_run env w file_path)).
  rewrite Hfile.
  change (negb (bool_decide (is_Some (Some (File content readable)))))
    with false. cbv iota.
  rewrite (bind_run _ _ _ _ _ _ (os_path_exists_run env w quarantine_dir)).
  fold created.
  set (w1 := if created
             then set_fs (makedirs_fs quarantine_dir (fs w))
                    (set_tick (S (tick w)) w)
             else w).
  assert (Hmk : when created (os_makedirs quarantine_dir) env w
                = (Return tt, w1)).
  { subst w1. unfold created in *.
    destruct (bool_decide (is_Some (fs w !! quarantine_dir))) eqn:Hq;
      simpl in *; [reflexivity |].
    destruct Hdir as [Hfault Hfiles].
    apply os_makedirs_run; [exact Hfault | | exact Hfiles].
    apply bool_decide_eq_false in Hq.
    destruct (fs w !! quarantine_dir); [exfalso; apply Hq; eauto | reflexivity]. }
  assert (Htick : tick w1 = t).
  { subst w1 t. now destruct created. }
  assert (Hfs : fs w1 = files).
  { subst w1 files. now destruct created. }
  assert (Hlog : threat_log w1 = threat_log w).
  { subst w1. now destruct created. }
  assert (Htrace : trace w1 = trace w).
  { subst w1. now destruct created. }
  assert (Hfile1 : files !! file_path = Some (File content readable)).
  { subst files. destruct created; [| exact Hfile].
    apply makedirs_quarantine_file; [exact Hfile | apply Hdir]. }
  assert (Hfree1 : is_dir files quarantine_path = false).
  { subst files. destruct created; [| exact Hfree].
    unfold is_dir in *. now rewrite makedirs_quarantine_other. }
  assert (Hdir1 : is_dir files quarantine_dir = true).
  { subst files. destruct created; [| exact Hdir].
    apply makedirs_quarantine_is_dir. }
  clearbody w1 files.
  rewrite (bind_run _ _ _ _ _ _ Hmk).
  rewrite (bind_run _ _ _ _ _ _ (datetime_now_run env w1)).
  rewrite Htick. fold quarantine_path.
  erewrite bind_run; cycle 1.
  { apply (shutil_move_over_run file_path quarantine_path content readable).
    - exact Hmove.
    - cbn [fs set_tick]. now rewrite Hfs.
    - cbn [fs set_tick]. now rewrite Hfs.
    - cbn [fs set_tick]. subst quarantine_path.
      now rewrite quarantine_path_of_dirname, Hfs. }
  erewrite bind_run; [| apply datetime_now_run].
  erewrite bind_run; [| apply log_threat_quiet_run; discriminate].
  unfold log_message at 1.
  erewrite bind_run; [| reflexivity].
  cbn [tick set_tick set_fs set_trace set_threat_log].
  destruct (env_speak env (S (S (S (S t))))) as [e |] eqn:Hspeak.
  - erewrite bind_raise; cycle 1.
    { apply speak_fail_run. cbn [tick set_tick set_fs set_trace set_threat_log].
      exact Hspeak. }
    eexists. split; [reflexivity |].
    cbn -[slice_last]. rewrite ?Hfs, ?Hlog, ?Htrace, ?Htick.
    split; [reflexivity |]. split; [exact Hdir1 |]. split; [exact Hfile1 |].
    split; [reflexivity |]. split; [reflexivity |].
    eexists. split; [| reflexivity].
    rewrite <- !app_assoc. reflexivity.
  - erewrite bind_run; cycle 1.
    { apply speak_run. cbn [tick set_tick set_fs set_trace set_threat_log].
      exact Hspeak. }
    eexists. split; [reflexivity |].
    cbn -[slice_last]. rewrite ?Hfs, ?Hlog, ?Htrace, ?Htick.
    split; [reflexivity |]. split; [exact Hdir1 |]. split; [exact Hfile1 |].
    split; [reflexivity |]. split; [reflexivity |].
    eexists. split; [| reflexivity].
    rewrite <- !app_assoc. reflexivity.
Qed.




Example quarantine_ex :
  map_to_list
    (fs (snd (quarantine_file "downloads/evil.exe" quiet_env
                (SecurityHandler downloads))))
  = [("data/quarantine/20240301_120000_evil.exe", File evil_exe true);
     ("data/quarantine", Dir 4096);
     ("data", Dir 4096)].
Proof. vm_compute. reflexivity. Qed.

(** ** Entropy: the counting loop *)

Lemma read_chunks_concat n stream :
  n <> 0 -> concat (read_chunks n stream) = stream.
Proof.
  intros Hn. funelim (read_chunks n stream).
  - clear H Heqcall. simpl.
    unfold file_read in e. destruct (n <? 0) eqn:Hneg; simpl in e.
    + congruence.
    + destruct (Z.to_nat n) eqn:Hz; [lia |].
      destruct stream; [reflexivity | discriminate].
  - clear H0 Heqcall. cbn [concat]. rewrite (H Hn), <- Hread.
    unfold file_read. destruct (n <? 0); simpl.
    + now rewrite app_nil_r.
    + apply firstn_skipn.
Qed.



Lemma byte_eqb_eq a b : Byte.eqb a b = true <-> a = b.
Proof. split; [apply Byte.byte_dec_bl | apply Byte.byte_dec_lb]. Qed.








Lemma counter_get_present c k v :
  NoDup (map fst c) -> In (k, v) c -> counter_get c k = v.
Proof.
  induction c as [| [k' v'] c IH]; simpl; [tauto |].
  intros Hnd [Heq | Hin].
  - injection Heq as -> ->. now rewrite (Byte.byte_dec_lb eq_refl).
  - apply NoDup_cons in Hnd as [Hnot Hnd].
    destruct (Byte.eqb k' k) eqn:Hk; [| now apply IH].
    apply byte_eqb_eq in Hk. subst k'. exfalso. apply Hnot.
    apply list_elem_of_In. apply in_map_iff. now exists (k, v).
Qed.

(** ** Entropy: the sum *)















(** ** Entropy: the 256 byte values *)















(** The chunks the loop reads, on a small case. *)
Example read_chunks_ex :
  read_chunks 3 evil_exe = [[Byte.x4d; Byte.x5a; Byte.x90]; [Byte.x00]]
  /\ read_chunks 0 evil_exe = []
  /\ read_chunks (-1) evil_exe = [evil_exe]
  /\ count_stream 3 evil_exe
     = ([(Byte.x4d, 1%nat); (Byte.x5a, 1%nat); (Byte.x90, 1%nat);
         (Byte.x00, 1%nat)], 4%nat).
Proof. repeat split; vm_compute; reflexivity. Qed.



(** ** File scanner *)

Lemma calculate_file_hash_run env w file_path content :
  fs w !! file_path = Some (File content true) ->
  calculate_file_hash file_path env w
  = (Return (Some (hashlib_sha256 env content)), w).
Proof.
  intros Hfile.
  unfold calculate_file_hash, open_rb, try_except, bind, get, asks, ret.
  cbv beta iota. rewrite Hfile. cbv beta iota.
  now rewrite read_chunks_concat.
Qed.


Lemma length_lower s : String.length (Str.lower s) = String.length s.
Proof. induction s as [| c s IH]; simpl; [reflexivity | now rewrite IH]. Qed.

(** The one hash of the known-bad set has 32 hexadecimal digits: a digest
    of another length (SHA-256 has 64) is never in the set. *)
Lemma known_bad_length h :
  Str.mem (Str.lower h) known_bad_hashes = true -> String.length h = 32%nat.
Proof.
  intros H. apply mem_In in H. destruct H as [H | []].
  rewrite <- (length_lower h), <- H. reflexivity.
Qed.

Lemma finding_types_app a b :
  map finding_type (a ++ b) = (map finding_type a ++ map finding_type b)%list.
Proof. apply map_app. Qed.






(** ** Time spans *)

Lemma days_div d : Datetime.days d / Datetime.days 1 = d.
Proof.
  unfold Datetime.days, Datetime.hours.
  replace (24 * d * 3600 * 1000000) with (d * (24 * 1 * 3600 * 1000000)) by lia.
  apply Z.div_mul. discriminate.
Qed.

(** The cutoff of a time window, when it can be computed. *)
Lemma cutoff_run {A} (now : datetime) (delta : Z) (k : Z -> M A) env w :
  cutoff_ok now delta = true ->
  (let* d := timedelta delta in
   let* cutoff := datetime_sub now d in k cutoff) env w
  = k (Datetime.to_micros now - delta) env w.
Proof.
  unfold cutoff_ok. intros H.
  apply andb_true_iff in H as [H Hhi]. apply andb_true_iff in H as [Hd Hlo].
  unfold timedelta, datetime_sub, bind, ret.
  apply Z.leb_le in Hd.
  destruct (MAX_DELTA_DAYS <? _) eqn:Hover; [apply Z.ltb_lt in Hover; lia |].
  now rewrite Hlo, Hhi.
Qed.

Lemma cutoff_overflow {A} (now : datetime) (delta : Z) (k : Z -> M A) env w :
  cutoff_ok now delta = false ->
  exists e,
    exn_class e = "OverflowError"
    /\ (let* d := timedelta delta in
        let* cutoff := datetime_sub now d in k cutoff) env w
       = (Raise e, w).
Proof.
  unfold cutoff_ok. intros H.
  unfold timedelta, datetime_sub, bind, ret, raise.
  destruct (MAX_DELTA_DAYS <? _) eqn:Hover.
  - eexists. split; [| reflexivity]. reflexivity.
  - apply Z.ltb_ge in Hover. apply Z.leb_le in Hover. rewrite Hover in H.
    simpl in H. rewrite H. eexists. split; [| reflexivity]. reflexivity.
Qed.

Lemma filter_length_le {A} (f : A -> bool) (l : list A) :
  (length (List.filter f l) <= length l)%nat.
Proof.
  induction l as [| x l IH]; simpl; [lia |]. destruct (f x); simpl; lia.
Qed.

Lemma filter_sublist {A} (f : A -> bool) (l : list A) :
  sublist (List.filter f l) l.
Proof.
  induction l as [| x l IH]; simpl; [constructor |].
  destruct (f x); now constructor.
Qed.

(** ** Threat log maintenance *)

Lemma cleanup_threat_log_run env w days_old :
  cutoff_ok (env_now env (tick w)) (Datetime.days days_old) = true ->
  let kept :=
    List.filter
      (newer (Datetime.to_micros (env_now env (tick w)) - Datetime.days days_old))
      (threat_log w) in
  let removed := (length (threat_log w) - length kept)%nat in
  cleanup_threat_log days_old env w
  = (Return removed,
     set_trace
       (trace w ++ [EvLog "INFO"
                      ("Cleaned up " +:+ Str.of_Z (Z.of_nat removed)
                       +:+ " old threat log entries")])
       (set_threat_log kept (set_tick (S (tick w)) w))).
Proof.
  intros Hok kept removed.
  unfold cleanup_threat_log, try_except.
  rewrite (bind_run _ _ _ _ _ _ (datetime_now_run env w)).
  rewrite (cutoff_run _ _ _ _ _ Hok).
  reflexivity.
Qed.

Ltac cutoff_overflows Hok e Hrun :=
  match goal with
  | |- context [ bind (timedelta ?delta)
                   (fun d => bind (datetime_sub ?now d) ?k) ?env ?w0 ] =>
      destruct (cutoff_overflow now delta k env w0 Hok) as (e & _ & Hrun);
      rewrite Hrun
  end.

Lemma cleanup_threat_log_overflow env w days_old :
  cutoff_ok (env_now env (tick w)) (Datetime.days days_old) = false ->
  exists msg,
    cleanup_threat_log days_old env w
    = (Return 0%nat,
       set_trace
         (trace w ++ [EvLog "ERROR" ("Threat log cleanup failed: " +:+ msg)])
         (set_tick (S (tick w)) w)).
Proof.
  intros Hok.
  unfold cleanup_threat_log, try_except.
  rewrite (bind_run _ _ _ _ _ _ (datetime_now_run env w)). cbv beta.
  cutoff_overflows Hok e Hrun.
  exists (exn_msg e). reflexivity.
Qed.

(** X1. [cleanup_threat_log] never raises and returns the number of entries
    it has dropped. When the cutoff, [days_old] days before the clock
    reading, can be computed, the log keeps exactly the entries newer than
    the cutoff, in their order; when it cannot (the span is more than a
    [timedelta] holds, or the cutoff leaves the years 1 to 9999) the log is
    left as it is and 0 is returned. Either way the new log is a sublist of
    the old one and nothing else of the handler changes. *)
Theorem cleanup_threat_log_effect :
  forall (env : Env) (w : World) (days_old : Z),
    let now := env_now env (tick w) in
    let cutoff := Datetime.to_micros now - Datetime.days days_old in
    let w' := snd (cleanup_threat_log days_old env w) in
    exists removed_count,
      fst (cleanup_threat_log days_old env w) = Return removed_count
      /\ (removed_count + length (threat_log w') = length (threat_log w))%nat
      /\ threat_log w'
         = (if cutoff_ok now (Datetime.days days_old)
            then List.filter (newer cutoff) (threat_log w)
            else threat_log w)
      /\ sublist (threat_log w') (threat_log w)
      /\ whitelisted_processes w' = whitelisted_processes w
      /\ is_monitoring w' = is_monitoring w
      /\ threads w' = threads w
      /\ fs w' = fs w.
Proof.
  intros env w days_old now cutoff w'. subst w'.
  destruct (cutoff_ok now (Datetime.days days_old)) eqn:Hok.
  - rewrite (cleanup_threat_log_run env w days_old Hok). simpl.
    fold now. fold cutoff.
    eexists. split; [reflexivity |].
    pose proof (filter_length_le (newer cutoff) (threat_log w)).
    repeat split; try reflexivity; [lia | apply filter_sublist].
  - destruct (cleanup_threat_log_overflow env w days_old Hok) as [msg Hrun].
    rewrite Hrun. simpl. exists 0%nat. repeat split; reflexivity.
Qed.

Lemma filter_newer_twice c1 c2 (l : list ThreatEntry) :
  c1 <= c2 ->
  List.filter (newer c2) (List.filter (newer c1) l) = List.filter (newer c2) l.
Proof.
  intros Hc. induction l as [| t l IH]; simpl; [reflexivity |].
  destruct (newer c1 t) eqn:H1; simpl.
  - now rewrite IH.
  - destruct (newer c2 t) eqn:H2; [| exact IH].
    unfold newer in H1, H2.
    apply Z.ltb_lt in H2. apply Z.ltb_ge in H1. lia.
Qed.

(** ** Threat summary *)

Lemma get_threat_summary_run env w hours :
  cutoff_ok (env_now env (tick w)) (Datetime.hours hours) = true ->
  let recent_threats :=
    List.filter
      (newer (Datetime.to_micros (env_now env (tick w)) - Datetime.hours hours))
      (threat_log w) in
  get_threat_summary hours env w
  = (Return
       (SummaryReport
          {| Summary.total_threats := length recent_threats;
             Summary.high_severity := count_severity high recent_threats;
             Summary.medium_severity := count_severity medium recent_threats;
             Summary.low_severity := count_severity low recent_threats;
             Summary.threat_types := fold_left count_type recent_threats ∅;
             Summary.time_period :=
               "Last " +:+ Str.of_Z hours +:+ " hours" |}),
     set_tick (S (tick w)) w).
Proof.
  intros Hok recent_threats.
  unfold get_threat_summary, try_except.
  rewrite (bind_run _ _ _ _ _ _ (datetime_now_run env w)). cbv beta.
  rewrite (cutoff_run _ _ _ _ _ Hok).
  reflexivity.
Qed.

Lemma get_threat_summary_overflow env w hours :
  cutoff_ok (env_now env (tick w)) (Datetime.hours hours) = false ->
  exists msg,
    forall w0,
      tick w0 = tick w ->
      get_threat_summary hours env w0
      = (Return (SummaryError msg),
         set_trace
           (trace w0
            ++ [EvLog "ERROR" ("Failed to generate threat summary: " +:+ msg)])
           (set_tick (S (tick w0)) w0)).
Proof.
  intros Hok.
  destruct (cutoff_overflow (env_now env (tick w)) (Datetime.hours hours)
              (fun _ => ret tt) env w Hok) as (e & _ & He).
  exists (exn_msg e). intros w0 Ht.
  unfold get_threat_summary, try_except.
  rewrite (bind_run _ _ _ _ _ _ (datetime_now_run env w0)). cbv beta.
  rewrite Ht.
  unfold cutoff_ok in Hok.
  unfold timedelta, datetime_sub, bind, ret, raise in *.
  destruct (MAX_DELTA_DAYS <? _) eqn:Hover.
  - injection He as <-. reflexivity.
  - apply Z.ltb_ge in Hover. apply Z.leb_le in Hover. rewrite Hover in Hok.
    simpl in Hok. rewrite Hok in *. injection He as <-. reflexivity.
Qed.

(** X2. A cleanup never costs a later summary anything: when the window of
    the summary is not longer than the age limit of the cleanup and the
    clock has not been set back in between, [get_threat_summary] after
    [cleanup_threat_log] returns what it would have returned without the
    cleanup. *)
Theorem cleanup_keeps_summary_window :
  forall (env : Env) (w : World) (days_old hours : Z),
    hours <= 24 * days_old ->
    Datetime.to_micros (env_now env (tick w))
    <= Datetime.to_micros (env_now env (S (tick w))) ->
    fst (get_threat_summary hours env (snd (cleanup_threat_log days_old env w)))
    = fst (get_threat_summary hours env (set_tick (S (tick w)) w)).
Proof.
  intros env w days_old hours Hwin Hclock.
  set (w1 := snd (cleanup_threat_log days_old env w)).
  assert (Htick : tick w1 = S (tick w)).
  { subst w1.
    destruct (cutoff_ok (env_now env (tick w)) (Datetime.days days_old)) eqn:Hok.
    - now rewrite (cleanup_threat_log_run env w days_old Hok).
    - destruct (cleanup_threat_log_overflow env w days_old Hok) as [msg Hrun].
      now rewrite Hrun. }
  destruct (cutoff_ok (env_now env (S (tick w))) (Datetime.hours hours)) eqn:Hsum.
  - rewrite !get_threat_summary_run by (simpl; rewrite ?Htick; exact Hsum).
    simpl. rewrite Htick.
    assert (Hlog :
      List.filter
        (newer (Datetime.to_micros (env_now env (S (tick w)))
                - Datetime.hours hours)) (threat_log w1)
      = List.filter
          (newer (Datetime.to_micros (env_now env (S (tick w)))
                  - Datetime.hours hours)) (threat_log w)).
    { subst w1.
      destruct (cutoff_ok (env_now env (tick w)) (Datetime.days days_old))
        eqn:Hok.
      - rewrite (cleanup_threat_log_run env w days_old Hok). simpl.
        apply filter_newer_twice.
        unfold Datetime.days, Datetime.hours. lia.
      - destruct (cleanup_threat_log_overflow env w days_old Hok) as [msg Hrun].
        now rewrite Hrun. }
    now rewrite Hlog.
  - destruct (get_threat_summary_overflow env (set_tick (S (tick w)) w) hours
                Hsum) as [msg Hrun].
    rewrite (Hrun w1) by exact Htick.
    rewrite (Hrun (set_tick (S (tick w)) w)) by reflexivity.
    reflexivity.
Qed.

Lemma cleanup_keeps_summary_window_witness :
  24 <= 24 * 30
  /\ Datetime.to_micros (env_now quiet_env 0) <= Datetime.to_micros (env_now quiet_env 1)
  /\ fst (get_threat_summary 24 quiet_env
            (snd (cleanup_threat_log 30 quiet_env
                    (set_threat_log three_threats (SecurityHandler ∅)))))
     = fst (get_threat_summary 24 quiet_env
              (set_tick 1 (set_threat_log three_threats (SecurityHandler ∅)))).
Proof.
  assert (Hwin : 24 <= 24 * 30) by lia.
  assert (Hclock : Datetime.to_micros (env_now quiet_env 0)
                   <= Datetime.to_micros (env_now quiet_env 1))
    by (vm_compute; discriminate).
  split; [exact Hwin |]. split; [exact Hclock |].
  exact (cleanup_keeps_summary_window quiet_env
           (set_threat_log three_threats (SecurityHandler ∅)) 30 24
           Hwin Hclock).
Defined.

Lemma count_severity_partition (l : list ThreatEntry) :
  (count_severity high l + count_severity medium l + count_severity low l
   = length l)%nat.
Proof.
  unfold count_severity. induction l as [| t l IH]; simpl; [reflexivity |].
  destruct (severity t); simpl; lia.
Qed.

Lemma count_type_fold (l : list ThreatEntry) :
  forall (m : gmap string nat) ty,
    default 0%nat (fold_left count_type l m !! ty)
    = (default 0%nat (m !! ty) + count_of_type ty l)%nat.
Proof.
  unfold count_of_type.
  induction l as [| t l IH]; intros m ty; simpl; [lia |].
  rewrite IH. unfold count_type.
  destruct (String.eqb (threat_type t) ty) eqn:Heq.
  - apply String.eqb_eq in Heq. subst ty.
    rewrite lookup_insert_eq. simpl. lia.
  - apply String.eqb_neq in Heq.
    rewrite lookup_insert_ne by exact Heq. lia.
Qed.

Lemma count_type_positive (l : list ThreatEntry) :
  forall (m : gmap string nat),
    (forall ty n, m !! ty = Some n -> (0 < n)%nat) ->
    forall ty n, fold_left count_type l m !! ty = Some n -> (0 < n)%nat.
Proof.
  induction l as [| t l IH]; intros m Hm ty n; simpl; [apply Hm |].
  apply IH. intros ty' n'. unfold count_type.
  destruct (decide (threat_type t = ty')) as [-> | Hne].
  - rewrite lookup_insert_eq. intros [= <-]. lia.
  - rewrite lookup_insert_ne by exact Hne. apply Hm.
Qed.

(** X3. When the cutoff of the window can be computed, [get_threat_summary]
    returns a summary of the entries newer than the cutoff, and changes
    nothing: the total is the number of these entries and the sum of the
    three severity counts; [threat_types] holds, for each type that
    occurs among them, the number of its occurrences, and no other key. *)
Theorem get_threat_summary_counts :
  forall (env : Env) (w : World) (hours : Z),
    cutoff_ok (env_now env (tick w)) (Datetime.hours hours) = true ->
    let cutoff_time :=
      Datetime.to_micros (env_now env (tick w)) - Datetime.hours hours in
    let recent_threats := List.filter (newer cutoff_time) (threat_log w) in
    exists s,
      get_threat_summary hours env w
      = (Return (SummaryReport s), set_tick (S (tick w)) w)
      /\ Summary.total_threats s = length recent_threats
      /\ (Summary.high_severity s + Summary.medium_severity s
          + Summary.low_severity s)%nat = Summary.total_threats s
      /\ Summary.high_severity s = count_severity high recent_threats
      /\ Summary.medium_severity s = count_severity medium recent_threats
      /\ Summary.low_severity s = count_severity low recent_threats
      /\ (forall ty,
            default 0%nat (Summary.threat_types s !! ty)
            = count_of_type ty recent_threats)
      /\ (forall ty,
            Summary.threat_types s !! ty = None
            <-> forall t, In t recent_threats -> threat_type t <> ty)
      /\ Summary.time_period s = "Last " +:+ Str.of_Z hours +:+ " hours".
Proof.
  intros env w hours Hok cutoff_time recent_threats.
  eexists. split; [apply (get_threat_summary_run env w hours Hok) |].
  simpl. fold cutoff_time. fold recent_threats.
  assert (Hcount : forall ty,
    default 0%nat (fold_left count_type recent_threats ∅ !! ty)
    = count_of_type ty recent_threats).
  { intros ty. rewrite count_type_fold, lookup_empty. reflexivity. }
  repeat split.
  - apply count_severity_partition.
  - exact Hcount.
  - intros Hnone t Hin Hty. specialize (Hcount ty).
    rewrite Hnone in Hcount. simpl in Hcount. unfold count_of_type in Hcount.
    assert (Hf : In t (List.filter (fun t => String.eqb (threat_type t) ty)
                         recent_threats)).
    { apply filter_In. split; [exact Hin | now apply String.eqb_eq]. }
    destruct (List.filter _ recent_threats); [contradiction | discriminate].
  - intros Hnot.
    destruct (fold_left count_type recent_threats ∅ !! ty) as [n |] eqn:Hl;
      [| reflexivity].
    exfalso.
    assert (Hpos : (0 < n)%nat).
    { eapply (count_type_positive recent_threats ∅); [| exact Hl].
      intros ty' n'. rewrite lookup_empty. discriminate. }
    specialize (Hcount ty). rewrite Hl in Hcount. simpl in Hcount.
    unfold count_of_type in Hcount.
    destruct (List.filter (fun t => String.eqb (threat_type t) ty)
                recent_threats) as [| t l'] eqn:Hf.
    + simpl in Hcount. lia.
    + assert (Hin : In t (List.filter
                            (fun t => String.eqb (threat_type t) ty)
                            recent_threats)) by (rewrite Hf; now left).
      apply filter_In in Hin as [Hin Heq]. apply String.eqb_eq in Heq.
      exact (Hnot t Hin Heq).
Qed.

Lemma get_threat_summary_counts_witness :
  cutoff_ok (env_now quiet_env 0) (Datetime.hours 24) = true
  /\ exists s w',
       get_threat_summary 24 quiet_env
         (set_threat_log three_threats (SecurityHandler ∅))
       = (Return (SummaryReport s), w')
       /\ Summary.total_threats s = 2%nat
       /\ Summary.high_severity s = 1%nat.
Proof.
  assert (Hok : cutoff_ok (env_now quiet_env 0) (Datetime.hours 24) = true)
    by (vm_compute; reflexivity).
  split; [exact Hok |].
  destruct (get_threat_summary_counts quiet_env
              (set_threat_log three_threats (SecurityHandler ∅)) 24 Hok)
    as (s & Hrun & Htotal & _ & Hhigh & _).
  exists s, (set_tick 1 (set_threat_log three_threats (SecurityHandler ∅))).
  split; [exact Hrun |]. split.
  - rewrite Htotal. vm_compute. reflexivity.
  - rewrite Hhigh. vm_compute. reflexivity.
Defined.

(** X4. A window that reaches back before the year 1, or that is longer
    than a [timedelta] holds, is an error, not a summary of the whole log:
    [get_threat_summary] returns [{'error': ...}] with the message of the
    OverflowError, writes one ERROR line and leaves the handler alone. *)
Theorem get_threat_summary_window_overflow :
  forall (env : Env) (w : World) (hours : Z),
    cutoff_ok (env_now env (tick w)) (Datetime.hours hours) = false ->
    exists msg,
      get_threat_summary hours env w
      = (Return (SummaryError msg),
         set_trace
           (trace w
            ++ [EvLog "ERROR" ("Failed to generate threat summary: " +:+ msg)])
           (set_tick (S (tick w)) w)).
Proof.
  intros env w hours Hok.
  destruct (get_threat_summary_overflow env w hours Hok) as [msg Hrun].
  exists msg. now apply Hrun.
Qed.

Lemma get_threat_summary_window_overflow_witness :
  cutoff_ok (env_now quiet_env 0) (Datetime.hours 20000000) = false
  /\ exists msg,
       fst (get_threat_summary 20000000 quiet_env
              (set_threat_log three_threats (SecurityHandler ∅)))
       = Return (SummaryError msg).
Proof.
  assert (Hok : cutoff_ok (env_now quiet_env 0) (Datetime.hours 20000000)
                = false) by (vm_compute; reflexivity).
  split; [exact Hok |].
  destruct (get_threat_summary_window_overflow quiet_env
              (set_threat_log three_threats (SecurityHandler ∅)) 20000000 Hok)
    as [msg Hrun].
  exists msg. now rewrite Hrun.
Defined.

(** Twenty million hours before the spring of 2024 is before the year 1. *)
Example get_threat_summary_overflow_ex :
  fst (get_threat_summary 20000000 quiet_env
         (set_threat_log three_threats (SecurityHandler ∅)))
  = Return (SummaryError "date value out of range").
Proof. vm_compute. reflexivity. Qed.

(** ** Alerts and their faults *)

Lemma log_threat_spoken_run env w threat_type d :
  get_threat_severity threat_type = high ->
  log_threat threat_type d env w
  = match env_speak env (S (tick w)) with
    | None =>
        (Return tt,
         set_trace
           (trace w
            ++ [EvLog "WARNING"
                  ("SECURITY THREAT: " +:+ threat_type +:+ " - "
                   +:+ py_str env d);
                EvLog "INFO"
                  ("Speaking: Security alert: " +:+ threat_type
                   +:+ " detected");
                EvSay ("Security alert: " +:+ threat_type +:+ " detected")])
           (set_threat_log
              (slice_last 1000
                 (threat_log w ++ [entry_of env (tick w) (threat_type, d)]))
              (set_tick (S (S (tick w))) w)))
    | Some e =>
        (Raise e,
         set_trace
           (trace w
            ++ [EvLog "WARNING"
                  ("SECURITY THREAT: " +:+ threat_type +:+ " - "
                   +:+ py_str env d);
                EvLog "INFO"
                  ("Speaking: Security alert: " +:+ threat_type
                   +:+ " detected")])
           (set_threat_log
              (slice_last 1000
                 (threat_log w ++ [entry_of env (tick w) (threat_type, d)]))
              (set_tick (S (S (tick w))) w)))
    end.
Proof.
  intros Hsev. unfold log_threat, entry_of. munfold. simpl.
  rewrite Hsev. simpl.
  destruct (1000 <? length (threat_log w ++ _))%nat eqn:Hlen; simpl.
  - destruct (env_speak env (S (tick w))); simpl;
      unfold set_trace; simpl; rewrite <- ?app_assoc; reflexivity.
  - apply Nat.ltb_ge in Hlen. rewrite slice_last_short by exact Hlen.
    destruct (env_speak env (S (tick w))); simpl;
      unfold set_trace; simpl; rewrite <- ?app_assoc; reflexivity.
Qed.

(** X5. [log_threat] raises exactly when the spoken alert of a high
    severity threat fails, with the exception of the speech engine; the
    entry is in the log by then, so a failed alert loses no entry, and the
    alert is spoken exactly for a high severity threat when the engine
    answers. *)
Theorem log_threat_raises_on_failed_alert :
  forall (env : Env) (w : World) (threat_type : string) (d : Details),
    let w' := snd (log_threat threat_type d env w) in
    threat_log w'
    = slice_last 1000 (threat_log w ++ [entry_of env (tick w) (threat_type, d)])
    /\ (forall e,
          fst (log_threat threat_type d env w) = Raise e
          <-> get_threat_severity threat_type = high
              /\ env_speak env (S (tick w)) = Some e)
    /\ (In (EvSay ("Security alert: " +:+ threat_type +:+ " detected"))
          (trace w')
        <-> In (EvSay ("Security alert: " +:+ threat_type +:+ " detected"))
              (trace w)
            \/ get_threat_severity threat_type = high
               /\ env_speak env (S (tick w)) = None).
Proof.
  intros env w threat_type d w'. subst w'.
  split; [apply log_threat_threat_log |].
  destruct (get_threat_severity threat_type) eqn:Hsev.
  - rewrite (log_threat_spoken_run env w threat_type d Hsev).
    destruct (env_speak env (S (tick w))) as [e0 |]; simpl; split.
    + intros e. split.
      * intros [= <-]. now split.
      * intros [_ [= <-]]. reflexivity.
    + rewrite in_app_iff. simpl. split.
      * intros [H | [H | [H | []]]]; try discriminate. now left.
      * intros [H | [_ H]]; [now left | discriminate].
    + intros e. split; [discriminate | intros [_ H]; discriminate].
    + rewrite in_app_iff. simpl. split.
      * intros [H | H]; [now left | right; now split].
      * intros [H | _]; [now left | right; tauto].
  - rewrite log_threat_quiet_run by congruence. simpl. split.
    + intros e. split; [discriminate | intros [H _]; discriminate].
    + rewrite in_app_iff. simpl. split.
      * intros [H | [H | []]]; [now left | discriminate].
      * intros [H | [H _]]; [now left | discriminate].
  - rewrite log_threat_quiet_run by congruence. simpl. split.
    + intros e. split; [discriminate | intros [H _]; discriminate].
    + rewrite in_app_iff. simpl. split.
      * intros [H | [H | []]]; [now left | discriminate].
      * intros [H | [H _]]; [now left | discriminate].
Qed.

(** ** Calls of [log_threat] read off the log *)

Lemma logged_nil w : logged [] w w.
Proof.
  split; try reflexivity.
  - exists []. split; [reflexivity | split; [constructor | reflexivity]].
  - exists []. now rewrite app_nil_r.
Qed.

Lemma logged_trans a b w1 w2 w3 :
  logged a w1 w2 -> logged b w2 w3 -> logged (a ++ b) w1 w3.
Proof.
  intros [(ea & Ha & Hsa & Hla) Hw Hm Ht Hf (evs & Hev)]
         [(eb & Hb & Hsb & Hlb) Hw' Hm' Ht' Hf' (evs' & Hev')].
  split; try congruence.
  - exists (ea ++ eb)%list. repeat split.
    + now rewrite map_app, Ha, Hb.
    + now apply Forall_app.
    + now rewrite Hlb, Hla, log_after_app.
  - exists (evs ++ evs')%list. now rewrite Hev', Hev, app_assoc.
Qed.

#[local] Instance logged_nil_preorder : PreOrder (logged []).
Proof.
  split.
  - intros w. apply logged_nil.
  - intros w1 w2 w3 H1 H2. exact (logged_trans [] [] w1 w2 w3 H1 H2).
Qed.

Lemma logged_event w e : logged [] w (set_trace (trace w ++ [e]) w).
Proof.
  split; try reflexivity.
  - exists []. split; [reflexivity | split; [constructor | reflexivity]].
  - now exists [e].
Qed.

Lemma logged_tick w n : logged [] w (set_tick n w).
Proof.
  split; try reflexivity.
  - exists []. split; [reflexivity | split; [constructor | reflexivity]].
  - exists []. now rewrite app_nil_r.
Qed.

Lemma keeps_logged_emit e : keeps (logged []) (emit e).
Proof. intros env w. apply logged_event. Qed.

Lemma keeps_logged_ask {A} (oracle : Env -> nat -> A) :
  keeps (logged []) (ask oracle).
Proof. intros env w. apply logged_tick. Qed.

Lemma keeps_logged_log_message message level :
  keeps (logged []) (log_message message level).
Proof. apply keeps_when; [apply _ | apply keeps_logged_emit]. Qed.

Lemma returns_for_each {A} (xs : list A) (body : A -> M unit) :
  (forall x, returns (body x)) -> returns (for_each xs body).
Proof.
  intros Hb. induction xs as [| x xs IH]; simpl.
  - apply returns_ret.
  - apply returns_bind; [apply Hb | intros _; exact IH].
Qed.

(** One step of a run that has made the calls [c1], the next making [c2]. *)
Lemma logged_bind {A B} (m : M A) (k : A -> M B) env w a w1 b w2 c1 c2 :
  m env w = (Return a, w1) -> logged c1 w w1 ->
  k a env w1 = (Return b, w2) -> logged c2 w1 w2 ->
  bind m k env w = (Return b, w2) /\ logged (c1 ++ c2) w w2.
Proof.
  intros Hm H1 Hk H2. split.
  - now rewrite (bind_run _ _ _ _ _ _ Hm).
  - exact (logged_trans _ _ _ _ _ H1 H2).
Qed.

Lemma log_threat_logged env w threat_type d :
  get_threat_severity threat_type <> high
  \/ (forall t, env_speak env t = None) ->
  exists w',
    log_threat threat_type d env w = (Return tt, w')
    /\ logged [(threat_type, d)] w w'.
Proof.
  intros Hquiet.
  assert (Hentry : forall w',
    threat_log w'
    = slice_last 1000 (threat_log w ++ [entry_of env (tick w) (threat_type, d)]) ->
    whitelisted_processes w' = whitelisted_processes w ->
    is_monitoring w' = is_monitoring w ->
    threads w' = threads w -> fs w' = fs w ->
    (exists evs, trace w' = (trace w ++ evs)%list) ->
    logged [(threat_type, d)] w w').
  { intros w' Hlog Hwl Hm Hth Hfs Htr. split; try assumption.
    exists [entry_of env (tick w) (threat_type, d)]. repeat split.
    - repeat constructor.
    - exact Hlog. }
  destruct (get_threat_severity threat_type) eqn:Hsev.
  - destruct Hquiet as [Hne | Hspeak]; [congruence |].
    rewrite (log_threat_spoken_run env w threat_type d Hsev), Hspeak.
    eexists. split; [reflexivity |].
    apply Hentry; try reflexivity. simpl. eauto.
  - rewrite log_threat_quiet_run by congruence.
    eexists. split; [reflexivity |].
    apply Hentry; try reflexivity. simpl. eauto.
  - rewrite log_threat_quiet_run by congruence.
    eexists. split; [reflexivity |].
    apply Hentry; try reflexivity. simpl. eauto.
Qed.

(** ** Process scan *)

Lemma usage_check_logged env w info proc_name reading bound kind :
  get_threat_severity kind <> high ->
  exists w',
    when (truthy_and_gt reading bound)
      (let* unknown := not_whitelisted proc_name in
       when unknown (log_threat kind (DProc info))) env w
    = (Return tt, w')
    /\ logged
         (if usage_flagged (whitelisted_processes w) reading bound proc_name
          then [(kind, DProc info)] else [])
         w w'.
Proof.
  intros Hsev. unfold usage_flagged, when, not_whitelisted.
  destruct (truthy_and_gt reading bound); simpl.
  - unfold bind at 1. unfold bind at 1. unfold get, ret.
    destruct (bool_decide (proc_name ∈ whitelisted_processes w)); simpl.
    + exists w. split; [reflexivity | apply logged_nil].
    + apply log_threat_logged. now left.
  - exists w. split; [reflexivity | apply logged_nil].
Qed.

Lemma flag_process_logged env w info proc_name :
  is_suspicious_name (Str.lower proc_name) = false
  \/ (forall t, env_speak env t = None) ->
  exists w',
    flag_process info proc_name env w = (Return tt, w')
    /\ logged
         ((if is_suspicious_name (Str.lower proc_name)
           then [("suspicious_process", DProc info)] else [])
          ++ (if usage_flagged (whitelisted_processes w) (cpu_percent info)
                   (90 # 1) proc_name
              then [("high_cpu_usage", DProc info)] else [])
          ++ (if usage_flagged (whitelisted_processes w) (memory_percent info)
                   (50 # 1) proc_name
              then [("high_memory_usage", DProc info)] else []))
         w w'.
Proof.
  intros Hquiet. unfold flag_process.
  assert (H1 : exists w1,
    when (is_suspicious_name (Str.lower proc_name))
      (log_threat "suspicious_process" (DProc info)) env w = (Return tt, w1)
    /\ logged (if is_suspicious_name (Str.lower proc_name)
               then [("suspicious_process", DProc info)] else []) w w1).
  { destruct (is_suspicious_name (Str.lower proc_name)) eqn:Hs; simpl.
    - apply log_threat_logged. destruct Hquiet; [discriminate | now right].
    - exists w. split; [reflexivity | apply logged_nil]. }
  destruct H1 as (w1 & Hrun1 & Hlog1).
  destruct (usage_check_logged env w1 info proc_name (cpu_percent info)
              (90 # 1) "high_cpu_usage") as (w2 & Hrun2 & Hlog2);
    [discriminate |].
  destruct (usage_check_logged env w2 info proc_name (memory_percent info)
              (50 # 1) "high_memory_usage") as (w3 & Hrun3 & Hlog3);
    [discriminate |].
  rewrite (logged_whitelisted _ _ _ Hlog1) in Hlog2.
  rewrite (logged_whitelisted _ _ _ Hlog2),
          (logged_whitelisted _ _ _ Hlog1) in Hlog3.
  exists w3.
  destruct (logged_bind _ (fun _ => _) env w1 tt w2 tt w3 _ _
              Hrun2 Hlog2 Hrun3 Hlog3) as [Hrun23 Hlog23].
  exact (logged_bind _ (fun _ => _) env w tt w1 tt w3 _ _
           Hrun1 Hlog1 Hrun23 Hlog23).
Qed.

Lemma scan_process_logged env w acc proc :
  scannable proc = true ->
  suspicious_proc proc = false \/ (forall t, env_speak env t = None) ->
  exists acc' w',
    scan_process acc proc env w = (Return acc', w')
    /\ logged (process_threats (whitelisted_processes w) proc) w w'.
Proof.
  intros Hscan Hquiet. unfold scan_process, process_threats.
  destruct proc as [info | e]; simpl in *.
  - destruct (name info) as [[| c proc_name] |].
    + exists acc, w. split; [reflexivity | apply logged_nil].
    + destruct (flag_process_logged env w info (String c proc_name) Hquiet)
        as (w' & Hrun & Hlog).
      eexists. exists w'. split; [| exact Hlog].
      unfold bind, try_except_psutil. rewrite Hrun. reflexivity.
    + exists acc, w. split; [reflexivity | apply logged_nil].
  - rewrite Hscan. exists acc, w. split; [reflexivity | apply logged_nil].
Qed.

Lemma scan_processes_logged env procs :
  Forall (fun proc => scannable proc = true) procs ->
  Forall (fun proc => suspicious_proc proc = false) procs
  \/ (forall t, env_speak env t = None) ->
  forall w acc,
    exists acc' w',
      scan_processes procs acc env w = (Return acc', w')
      /\ logged (flat_map (process_threats (whitelisted_processes w)) procs)
           w w'.
Proof.
  intros Hscan Hquiet.
  induction procs as [| proc procs IH]; intros w acc; simpl.
  - exists acc, w. split; [reflexivity | apply logged_nil].
  - apply Forall_cons in Hscan as [Hproc Hscan].
    assert (Hq1 : suspicious_proc proc = false
                  \/ (forall t, env_speak env t = None)).
    { destruct Hquiet as [H | H]; [left | now right].
      now apply Forall_cons in H as [H _]. }
    assert (Hq2 : Forall (fun proc => suspicious_proc proc = false) procs
                  \/ (forall t, env_speak env t = None)).
    { destruct Hquiet as [H | H]; [left | now right].
      now apply Forall_cons in H as [_ H]. }
    destruct (scan_process_logged env w acc proc Hproc Hq1)
      as (acc1 & w1 & Hrun1 & Hlog1).
    destruct (IH Hscan Hq2 w1 acc1) as (acc2 & w2 & Hrun2 & Hlog2).
    rewrite (logged_whitelisted _ _ _ Hlog1) in Hlog2.
    exists acc2, w2.
    exact (logged_bind _ _ env w acc1 w1 acc2 w2 _ _ Hrun1 Hlog1 Hrun2 Hlog2).
Qed.

(** What follows the loop: lines of the log sink. *)
Lemma scan_report_logged env w (acc : list proc_info * list proc_info) :
  exists w',
    (let* w := get in
     let new_processes := proc_names (fst acc) ∖ whitelisted_processes w in
     for_each (elements new_processes)
       (fun proc_name =>
          log_message ("New process detected: " +:+ proc_name) "INFO") ;;;
     when (negb (length (snd acc) =? 0)%nat)
       (log_message
          ("Found " +:+ Str.of_Z (Z.of_nat (length (snd acc)))
           +:+ " suspicious processes") "INFO")) env w
    = (Return tt, w')
    /\ logged [] w w'.
Proof.
  match goal with |- exists w', ?m env w = _ /\ _ => set (report := m) end.
  assert (Hret : returns report).
  { subst report. apply returns_bind; [intros ? ?; now eexists | intros w0].
    apply returns_bind.
    - apply returns_for_each. intros x. apply returns_log_message.
    - intros _. apply returns_when, returns_log_message. }
  assert (Hkeep : keeps (logged []) report).
  { subst report. apply keeps_bind; [apply _ | apply keeps_get, _ | intros w0].
    apply keeps_bind; [apply _ | | intros _].
    - apply keeps_for_each; [apply _ | intros x].
      apply keeps_logged_log_message.
    - apply keeps_when; [apply _ | apply keeps_logged_log_message]. }
  destruct (returns_run _ env w Hret) as [[] Hrun].
  exists (snd (report env w)). split; [exact Hrun | apply Hkeep].
Qed.

Lemma scan_running_processes_logged env w procs :
  env_process_iter env (tick w) = Return procs ->
  Forall (fun proc => scannable proc = true) procs ->
  Forall (fun proc => suspicious_proc proc = false) procs
  \/ (forall t, env_speak env t = None) ->
  exists w',
    scan_running_processes env w = (Return tt, w')
    /\ logged (flat_map (process_threats (whitelisted_processes w)) procs)
         w w'.
Proof.
  intros Hiter Hscan Hquiet.
  destruct (scan_processes_logged env procs Hscan Hquiet
              (set_tick (S (tick w)) w) ([], []))
    as (acc & w1 & Hrun1 & Hlog1).
  destruct (scan_report_logged env w1 acc) as (w2 & Hrun2 & Hlog2).
  assert (Htry : scan_running_processes_try env w = (Return tt, w2)).
  { unfold scan_running_processes_try.
    unfold bind at 1. unfold ask. rewrite Hiter.
    unfold bind at 1. unfold lift_outcome, ret.
    rewrite (bind_run _ _ _ _ _ _ Hrun1). exact Hrun2. }
  exists w2. split.
  - unfold scan_running_processes, try_except. now rewrite Htry.
  - pose proof (logged_trans _ _ _ _ _ Hlog1 Hlog2) as Hlog.
    rewrite app_nil_r in Hlog.
    exact (logged_trans [] _ w _ w2 (logged_tick w (S (tick w))) Hlog).
Qed.

Lemma logged_calls calls w w' :
  logged calls w w' ->
  exists entries,
    map call_of entries = calls
    /\ Forall (fun e => severity e = get_threat_severity (threat_type e)) entries
    /\ threat_log w' = log_after (threat_log w) entries.
Proof. intros H. apply (logged_entries _ _ _ H). Qed.

Lemma in_process_threats whitelist proc kind d :
  In (kind, d) (process_threats whitelist proc) ->
  exists info proc_name,
    proc = Return info /\ d = DProc info
    /\ name info = Some proc_name /\ proc_name <> ""
    /\ (kind = "suspicious_process"
        /\ is_suspicious_name (Str.lower proc_name) = true
        \/ kind = "high_cpu_usage"
           /\ usage_flagged whitelist (cpu_percent info) (90 # 1) proc_name
              = true
        \/ kind = "high_memory_usage"
           /\ usage_flagged whitelist (memory_percent info) (50 # 1) proc_name
              = true).
Proof.
  unfold process_threats. destruct proc as [info | e]; [| intros []].
  destruct (name info) as [[| c proc_name] |] eqn:Hname;
    [intros [] | | intros []].
  rewrite !in_app_iff. intros Hin.
  exists info, (String c proc_name).
  repeat split; try easy;
    destruct (is_suspicious_name _), (usage_flagged _ (cpu_percent info) _ _),
      (usage_flagged _ (memory_percent info) _ _); simpl in Hin;
    intuition (try congruence; try contradiction).
Qed.

Lemma usage_flagged_not_whitelisted whitelist reading bound proc_name :
  usage_flagged whitelist reading bound proc_name = true ->
  proc_name ∉ whitelist.
Proof.
  unfold usage_flagged. intros H. apply andb_true_iff in H as [_ H].
  apply negb_true_iff, bool_decide_eq_false in H. exact H.
Qed.

(** X6. When the iterator answers with elements the loop gets over, the
    names are ASCII and the speech engine works, [scan_running_processes]
    makes exactly the [log_threat] calls of the processes, in their order:
    for a process
    with a name, suspicious_process if the name holds a suspicious term,
    high_cpu_usage and high_memory_usage if the reading is above 90 and 50
    and the name is not whitelisted; nothing else of the handler changes.
    So the whitelist exempts from the usage checks only (a suspicious name
    is reported even when whitelisted), a usage threat is never reported
    for a whitelisted name, and a process without a name is not reported
    at all. *)
Theorem scan_running_processes_reports :
  forall (env : Env) (w : World) (procs : list (outcome proc_info)),
    env_process_iter env (tick w) = Return procs ->
    Forall (fun proc => scannable proc = true) procs ->
    Forall (fun proc => ascii_named proc = true) procs ->
    (forall t, env_speak env t = None) ->
    exists w' entries,
      scan_running_processes env w = (Return tt, w')
      /\ threat_log w' = log_after (threat_log w) entries
      /\ map call_of entries
         = flat_map (process_threats (whitelisted_processes w)) procs
      /\ whitelisted_processes w' = whitelisted_processes w
      /\ (forall info proc_name,
            In (Return info) procs ->
            name info = Some proc_name -> proc_name <> "" ->
            is_suspicious_name (Str.lower proc_name) = true ->
            In ("suspicious_process", DProc info) (map call_of entries))
      /\ (forall e,
            In e entries ->
            exists info proc_name,
              details e = DProc info /\ In (Return info) procs
              /\ name info = Some proc_name /\ proc_name <> ""
              /\ (threat_type e = "high_cpu_usage"
                  \/ threat_type e = "high_memory_usage" ->
                  proc_name ∉ whitelisted_processes w)).
Proof.
  intros env w procs Hiter Hscan _ Hspeak.
  destruct (scan_running_processes_logged env w procs Hiter Hscan
              (or_intror Hspeak)) as (w' & Hrun & Hlog).
  destruct (logged_calls _ _ _ Hlog) as (entries & Hcalls & _ & Hthreat).
  exists w', entries. repeat split; try assumption.
  - apply (logged_whitelisted _ _ _ Hlog).
  - intros info proc_name Hin Hname Hne Hsusp.
    rewrite Hcalls. apply in_flat_map. exists (Return info).
    split; [exact Hin |]. unfold process_threats. rewrite Hname.
    destruct proc_name as [| c r]; [congruence |].
    rewrite Hsusp. now left.
  - intros e He.
    assert (Hin : In (call_of e)
                    (flat_map (process_threats (whitelisted_processes w)) procs)).
    { rewrite <- Hcalls. now apply in_map. }
    apply in_flat_map in Hin as (proc & Hproc & Hin).
    apply in_process_threats in Hin
      as (info & proc_name & -> & Hd & Hname & Hne & Hkind).
    exists info, proc_name. repeat split; try assumption.
    intros Husage.
    destruct Hkind as [[Hk _] | [[_ Hf] | [_ Hf]]].
    + destruct Husage as [H | H]; rewrite H in Hk; discriminate.
    + eapply usage_flagged_not_whitelisted, Hf.
    + eapply usage_flagged_not_whitelisted, Hf.
Qed.

Lemma scan_running_processes_reports_witness :
  env_process_iter busy_env 0
  = Return [Return miner; Raise (Exn "AccessDenied" "pid 4");
            Return chrome; Return keylogger]
  /\ exists w' entries,
       scan_running_processes busy_env (SecurityHandler ∅) = (Return tt, w')
       /\ threat_log w' = log_after [] entries
       /\ map call_of entries
          = [("high_cpu_usage", DProc miner);
             ("suspicious_process", DProc keylogger)].
Proof.
  split; [reflexivity |].
  destruct (scan_running_processes_reports busy_env (SecurityHandler ∅)
              [Return miner; Raise (Exn "AccessDenied" "pid 4");
               Return chrome; Return keylogger])
    as (w' & entries & Hrun & Hlog & Hcalls & _).
  - reflexivity.
  - repeat constructor.
  - repeat constructor.
  - intros t. reflexivity.
  - exists w', entries. split; [exact Hrun |]. split; [exact Hlog |].
    rewrite Hcalls. vm_compute. reflexivity.
Defined.

Lemma log_threat_failed_alert env w threat_type d e :
  get_threat_severity threat_type = high ->
  env_speak env (S (tick w)) = Some e ->
  exists w',
    log_threat threat_type d env w = (Raise e, w')
    /\ logged [(threat_type, d)] w w'.
Proof.
  intros Hsev Hspeak.
  rewrite (log_threat_spoken_run env w threat_type d Hsev), Hspeak.
  eexists. split; [reflexivity |].
  split; try reflexivity.
  - exists [entry_of env (tick w) (threat_type, d)].
    split; [reflexivity | split; [repeat constructor | reflexivity]].
  - simpl. eauto.
Qed.

Lemma scan_processes_app env a b :
  forall acc w,
    scan_processes (a ++ b) acc env w
    = (let* acc' := scan_processes a acc in scan_processes b acc') env w.
Proof.
  induction a as [| proc a IH]; intros acc w; simpl.
  - reflexivity.
  - unfold bind.
    destruct (scan_process acc proc env w) as [[acc1 | e] w1];
      [rewrite IH; reflexivity | reflexivity].
Qed.

(** X7. One failed alert ends the process scan. When the speech engine
    fails, the first process with a suspicious name (the names being ASCII)
    is the last one examined: its suspicious_process entry is logged, the exception of the
    engine leaves the loop, the scan returns after one ERROR line, and the
    processes that follow are not looked at, whatever they are. *)
Theorem failed_alert_ends_process_scan :
  forall (env : Env) (w : World) (pre post : list (outcome proc_info))
         (info : proc_info) (e : exn),
    env_process_iter env (tick w) = Return (pre ++ Return info :: post)%list ->
    Forall (fun proc => scannable proc = true) pre ->
    Forall (fun proc => ascii_named proc = true) (pre ++ [Return info]) ->
    Forall (fun proc => suspicious_proc proc = false) pre ->
    suspicious_proc (Return info) = true ->
    (forall t, env_speak env t = Some e) ->
    Str.mem (exn_class e) PSUTIL_SKIPPED = false ->
    exists w' entries,
      scan_running_processes env w = (Return tt, w')
      /\ threat_log w' = log_after (threat_log w) entries
      /\ map call_of entries
         = (flat_map (process_threats (whitelisted_processes w)) pre
            ++ [("suspicious_process", DProc info)])%list
      /\ last (trace w')
         = Some (EvLog "ERROR" ("Process scan failed: " +:+ exn_msg e)).
Proof.
  intros env w pre post info e Hiter Hscan _ Hquiet Hsusp Hspeak Hclass.
  destruct (scan_processes_logged env pre Hscan (or_introl Hquiet)
              (set_tick (S (tick w)) w) ([], []))
    as (acc & w1 & Hrun1 & Hlog1).
  simpl in Hsusp.
  destruct (name info) as [[| c proc_name] |] eqn:Hname; try discriminate.
  destruct (log_threat_failed_alert env w1 "suspicious_process" (DProc info) e
              eq_refl (Hspeak _)) as (w2 & Hrun2 & Hlog2).
  assert (Hflag : flag_process info (String c proc_name) env w1 = (Raise e, w2)).
  { unfold flag_process. rewrite Hsusp. unfold when at 1.
    unfold bind at 1. now rewrite Hrun2. }
  assert (Hproc : scan_process acc (Return info) env w1 = (Raise e, w2)).
  { unfold scan_process. rewrite Hname.
    unfold bind, try_except_psutil. now rewrite Hflag, Hclass. }
  assert (Htry : scan_running_processes_try env w = (Raise e, w2)).
  { unfold scan_running_processes_try.
    unfold bind at 1. unfold ask. rewrite Hiter.
    unfold bind at 1. unfold lift_outcome, ret.
    unfold bind at 1. rewrite scan_processes_app.
    rewrite (bind_run _ _ _ _ _ _ Hrun1). cbn [scan_processes].
    unfold bind at 1. now rewrite Hproc. }
  pose proof (logged_trans _ _ _ _ _
                (logged_trans [] _ w _ _ (logged_tick w (S (tick w))) Hlog1)
                Hlog2) as Hlog.
  destruct (logged_calls _ _ _ Hlog) as (entries & Hcalls & _ & Hthreat).
  eexists. exists entries. split; [| split; [| split]].
  - unfold scan_running_processes, try_except. rewrite Htry. reflexivity.
  - exact Hthreat.
  - exact Hcalls.
  - simpl. apply last_snoc.
Qed.

Lemma failed_alert_ends_process_scan_witness :
  env_process_iter mute_env 0
  = Return ([Return miner] ++ Return keylogger :: [Return keylogger])%list
  /\ exists w' entries,
       scan_running_processes mute_env (SecurityHandler ∅) = (Return tt, w')
       /\ threat_log w' = log_after [] entries
       /\ map call_of entries
          = [("high_cpu_usage", DProc miner);
             ("suspicious_process", DProc keylogger)].
Proof.
  split; [reflexivity |].
  destruct (failed_alert_ends_process_scan mute_env (SecurityHandler ∅)
              [Return miner] [Return keylogger] keylogger
              (Exn "RuntimeError" "run loop already started"))
    as (w' & entries & Hrun & Hlog & Hcalls & _).
  - reflexivity.
  - repeat constructor.
  - repeat constructor.
  - repeat constructor.
  - vm_compute. reflexivity.
  - intros t. reflexivity.
  - reflexivity.
  - exists w', entries. split; [exact Hrun |]. split; [exact Hlog |].
    rewrite Hcalls. vm_compute. reflexivity.
Defined.

(** ** Network connections *)

Lemma check_connection_logged env w acc conn :
  suspicious_conn conn = false \/ (forall t, env_speak env t = None) ->
  exists acc' w',
    check_connection acc conn env w = (Return acc', w')
    /\ logged (connection_threats conn) w w'.
Proof.
  intros Hquiet.
  unfold check_connection, connection_threats, suspicious_conn in *.
  destruct (String.eqb (status conn) CONN_ESTABLISHED);
    cbn [andb] in *.
  - destruct (raddr conn) as [[remote_ip remote_port] |].
    + destruct (existsb (Z.eqb remote_port) suspicious_ports) eqn:Hport.
      * destruct (log_threat_logged env w "suspicious_network_connection"
                    (DConn remote_ip remote_port (conn_pid conn)))
          as (w' & Hrun & Hlog).
        { right. destruct Hquiet as [H | H]; [discriminate | exact H]. }
        eexists. exists w'. split; [| exact Hlog].
        unfold bind. rewrite Hrun. reflexivity.
      * exists acc, w. split; [reflexivity | apply logged_nil].
    + exists acc, w. split; [reflexivity | apply logged_nil].
  - exists acc, w. split; [reflexivity |].
    destruct (raddr conn) as [[? ?] |]; apply logged_nil.
Qed.

Lemma check_connections_logged env connections :
  Forall (fun conn => suspicious_conn conn = false) connections
  \/ (forall t, env_speak env t = None) ->
  forall w acc,
    exists acc' w',
      check_connections connections acc env w = (Return acc', w')
      /\ logged (flat_map connection_threats connections) w w'.
Proof.
  intros Hquiet.
  induction connections as [| conn connections IH]; intros w acc; simpl.
  - exists acc, w. split; [reflexivity | apply logged_nil].
  - assert (Hq1 : suspicious_conn conn = false
                  \/ (forall t, env_speak env t = None)).
    { destruct Hquiet as [H | H]; [left | now right].
      now apply Forall_cons in H as [H _]. }
    assert (Hq2 : Forall (fun conn => suspicious_conn conn = false) connections
                  \/ (forall t, env_speak env t = None)).
    { destruct Hquiet as [H | H]; [left | now right].
      now apply Forall_cons in H as [_ H]. }
    destruct (check_connection_logged env w acc conn Hq1)
      as (acc1 & w1 & Hrun1 & Hlog1).
    destruct (IH Hq2 w1 acc1) as (acc2 & w2 & Hrun2 & Hlog2).
    exists acc2, w2.
    exact (logged_bind _ _ env w acc1 w1 acc2 w2 _ _ Hrun1 Hlog1 Hrun2 Hlog2).
Qed.

Lemma check_connections_app env a b :
  forall acc w,
    check_connections (a ++ b) acc env w
    = (let* acc' := check_connections a acc in check_connections b acc') env w.
Proof.
  induction a as [| conn a IH]; intros acc w; simpl.
  - reflexivity.
  - unfold bind.
    destruct (check_connection acc conn env w) as [[acc1 | e] w1];
      [rewrite IH; reflexivity | reflexivity].
Qed.

Lemma in_connection_threats conn kind d :
  In (kind, d) (connection_threats conn) ->
  exists remote_ip remote_port,
    kind = "suspicious_network_connection"
    /\ d = DConn remote_ip remote_port (conn_pid conn)
    /\ status conn = CONN_ESTABLISHED
    /\ raddr conn = Some (remote_ip, remote_port)
    /\ In remote_port suspicious_ports.
Proof.
  unfold connection_threats, suspicious_conn.
  destruct (raddr conn) as [[remote_ip remote_port] |]; [| intros []].
  destruct (String.eqb (status conn) CONN_ESTABLISHED) eqn:Hst; [| intros []].
  cbn [andb].
  destruct (existsb (Z.eqb remote_port) suspicious_ports) eqn:Hport;
    [| intros []].
  intros [[= <- <-] | []].
  exists remote_ip, remote_port. repeat split.
  - now apply String.eqb_eq.
  - apply existsb_exists in Hport as (p & Hin & Heq).
    apply Z.eqb_eq in Heq. now subst.
Qed.

Lemma connection_threats_length conn :
  length (connection_threats conn) = if suspicious_conn conn then 1%nat else 0%nat.
Proof.
  unfold connection_threats.
  destruct (suspicious_conn conn) eqn:Hs;
    destruct (raddr conn) as [[? ?] |] eqn:Hr; try reflexivity.
  unfold suspicious_conn in Hs. rewrite Hr, andb_false_r in Hs. discriminate.
Qed.

Lemma connection_threats_count connections :
  length (flat_map connection_threats connections)
  = length (List.filter suspicious_conn connections).
Proof.
  induction connections as [| conn connections IH]; [reflexivity |].
  cbn [flat_map List.filter].
  rewrite length_app, connection_threats_length, IH.
  destruct (suspicious_conn conn); reflexivity.
Qed.

(** X8. When the connection list is obtained and the speech engine works,
    [monitor_network_connections] logs one suspicious_network_connection
    threat for each established connection whose remote port is 1337,
    31337, 12345, 54321 or 9999, in the order of the list and as often as
    the connection occurs, with the remote address, the port and the pid;
    a connection that is not established, has no remote address or goes to
    another port is not reported, and nothing else of the handler
    changes. *)
Theorem monitor_network_connections_reports :
  forall (env : Env) (w : World) (connections : list connection),
    env_net_connections env (tick w) = Return connections ->
    (forall t, env_speak env t = None) ->
    exists w' entries,
      monitor_network_connections env w = (Return tt, w')
      /\ threat_log w' = log_after (threat_log w) entries
      /\ map call_of entries = flat_map connection_threats connections
      /\ length entries
         = length (List.filter suspicious_conn connections)
      /\ Forall (fun e => severity e = high) entries
      /\ (forall e,
            In e entries ->
            exists conn remote_ip remote_port,
              In conn connections
              /\ threat_type e = "suspicious_network_connection"
              /\ details e = DConn remote_ip remote_port (conn_pid conn)
              /\ status conn = CONN_ESTABLISHED
              /\ raddr conn = Some (remote_ip, remote_port)
              /\ In remote_port suspicious_ports)
      /\ whitelisted_processes w' = whitelisted_processes w
      /\ fs w' = fs w.
Proof.
  intros env w connections Hconns Hspeak.
  destruct (check_connections_logged env connections (or_intror Hspeak)
              (set_tick (S (tick w)) w) [])
    as (acc & w1 & Hrun1 & Hlog1).
  set (w2 := snd (when (negb (length acc =? 0)%nat)
                    (log_message
                       ("Found " +:+ Str.of_Z (Z.of_nat (length acc))
                        +:+ " suspicious network connections") "INFO")
                    env w1)).
  assert (Hrun2 : when (negb (length acc =? 0)%nat)
                    (log_message
                       ("Found " +:+ Str.of_Z (Z.of_nat (length acc))
                        +:+ " suspicious network connections") "INFO")
                    env w1 = (Return tt, w2)).
  { subst w2. destruct (negb (length acc =? 0)%nat); reflexivity. }
  assert (Hlog2 : logged [] w1 w2).
  { subst w2. apply keeps_when; [apply _ | apply keeps_logged_log_message]. }
  assert (Htry : monitor_network_connections_try env w = (Return tt, w2)).
  { unfold monitor_network_connections_try.
    unfold bind at 1. unfold ask. rewrite Hconns.
    unfold bind at 1. unfold lift_outcome, ret.
    rewrite (bind_run _ _ _ _ _ _ Hrun1). exact Hrun2. }
  pose proof (logged_trans _ _ _ _ _
                (logged_trans [] _ w _ _ (logged_tick w (S (tick w))) Hlog1)
                Hlog2) as Hlog.
  rewrite app_nil_r in Hlog. simpl in Hlog.
  destruct (logged_calls _ _ _ Hlog) as (entries & Hcalls & Hsev & Hthreat).
  assert (Hin : forall e, In e entries ->
    exists conn remote_ip remote_port,
      In conn connections
      /\ threat_type e = "suspicious_network_connection"
      /\ details e = DConn remote_ip remote_port (conn_pid conn)
      /\ status conn = CONN_ESTABLISHED
      /\ raddr conn = Some (remote_ip, remote_port)
      /\ In remote_port suspicious_ports).
  { intros e He.
    assert (Hc : In (call_of e) (flat_map connection_threats connections)).
    { rewrite <- Hcalls. now apply in_map. }
    apply in_flat_map in Hc as (conn & Hconn & Hc).
    apply in_connection_threats in Hc
      as (remote_ip & remote_port & Hk & Hd & Hst & Hr & Hp).
    exists conn, remote_ip, remote_port. repeat split; assumption. }
  exists w2, entries. repeat split.
  - unfold monitor_network_connections, try_except. now rewrite Htry.
  - exact Hthreat.
  - exact Hcalls.
  - rewrite <- (length_map call_of), Hcalls.
    apply connection_threats_count.
  - apply Forall_forall. intros e He.
    destruct (Hin e (proj1 (list_elem_of_In _ _) He))
      as (_ & _ & _ & _ & Hty & _).
    rewrite Forall_forall in Hsev. rewrite (Hsev e He), Hty. reflexivity.
  - exact Hin.
  - apply (logged_whitelisted _ _ _ Hlog).
  - apply (logged_fs _ _ _ Hlog).
Qed.

Lemma monitor_network_connections_reports_witness :
  env_net_connections busy_env 0 = Return [web_conn; backdoor_conn; backdoor_conn]
  /\ exists w' entries,
       monitor_network_connections busy_env (SecurityHandler ∅)
       = (Return tt, w')
       /\ threat_log w' = log_after [] entries
       /\ map call_of entries
          = [("suspicious_network_connection",
              DConn "203.0.113.7" 31337 (Some 666));
             ("suspicious_network_connection",
              DConn "203.0.113.7" 31337 (Some 666))].
Proof.
  split; [reflexivity |].
  destruct (monitor_network_connections_reports busy_env (SecurityHandler ∅)
              [web_conn; backdoor_conn; backdoor_conn])
    as (w' & entries & Hrun & Hlog & Hcalls & _).
  - reflexivity.
  - intros t. reflexivity.
  - exists w', entries. split; [exact Hrun |]. split; [exact Hlog |].
    rewrite Hcalls. vm_compute. reflexivity.
Defined.

(** X9. One failed alert ends the network check. When the speech engine
    fails, the first suspicious connection of the list is the only one
    logged: the exception of the engine leaves the loop, the check returns
    after one ERROR line, and the connections that follow are not looked
    at. *)
Theorem failed_alert_ends_network_check :
  forall (env : Env) (w : World) (pre post : list connection)
         (conn : connection) (e : exn),
    env_net_connections env (tick w) = Return (pre ++ conn :: post)%list ->
    Forall (fun conn => suspicious_conn conn = false) pre ->
    suspicious_conn conn = true ->
    (forall t, env_speak env t = Some e) ->
    exists w' entries,
      monitor_network_connections env w = (Return tt, w')
      /\ threat_log w' = log_after (threat_log w) entries
      /\ map call_of entries = connection_threats conn
      /\ length entries = 1%nat
      /\ last (trace w')
         = Some (EvLog "ERROR" ("Network monitoring failed: " +:+ exn_msg e)).
Proof.
  intros env w pre post conn e Hconns Hquiet Hsusp Hspeak.
  destruct (check_connections_logged env pre (or_introl Hquiet)
              (set_tick (S (tick w)) w) [])
    as (acc & w1 & Hrun1 & Hlog1).
  assert (Hpre : flat_map connection_threats pre = []).
  { clear - Hquiet. induction Hquiet as [| c l Hc _ IH]; [reflexivity |].
    simpl. rewrite IH, app_nil_r.
    pose proof (connection_threats_length c) as Hlen. rewrite Hc in Hlen.
    now destruct (connection_threats c). }
  rewrite Hpre in Hlog1.
  pose proof Hsusp as Hs. unfold suspicious_conn in Hs.
  apply andb_true_iff in Hs as [Hst Hport].
  destruct (raddr conn) as [[remote_ip remote_port] |] eqn:Hr;
    [| discriminate].
  destruct (log_threat_failed_alert env w1 "suspicious_network_connection"
              (DConn remote_ip remote_port (conn_pid conn)) e
              eq_refl (Hspeak _)) as (w2 & Hrun2 & Hlog2).
  assert (Hconn : check_connection acc conn env w1 = (Raise e, w2)).
  { unfold check_connection. rewrite Hst, Hr, Hport.
    unfold bind. now rewrite Hrun2. }
  assert (Htry : monitor_network_connections_try env w = (Raise e, w2)).
  { unfold monitor_network_connections_try.
    unfold bind at 1. unfold ask. rewrite Hconns.
    unfold bind at 1. unfold lift_outcome, ret.
    unfold bind at 1. rewrite check_connections_app.
    rewrite (bind_run _ _ _ _ _ _ Hrun1). cbn [check_connections].
    unfold bind at 1. now rewrite Hconn. }
  pose proof (logged_trans _ _ _ _ _
                (logged_trans [] _ w _ _ (logged_tick w (S (tick w))) Hlog1)
                Hlog2) as Hlog.
  destruct (logged_calls _ _ _ Hlog) as (entries & Hcalls & _ & Hthreat).
  simpl in Hcalls.
  assert (Hct : connection_threats conn
                = [("suspicious_network_connection",
                    DConn remote_ip remote_port (conn_pid conn))]).
  { unfold connection_threats. now rewrite Hr, Hsusp. }
  eexists. exists entries. split; [| split; [| split; [| split]]].
  - unfold monitor_network_connections, try_except. rewrite Htry. reflexivity.
  - exact Hthreat.
  - now rewrite Hct.
  - rewrite <- (length_map call_of), Hcalls. reflexivity.
  - simpl. apply last_snoc.
Qed.

Lemma failed_alert_ends_network_check_witness :
  env_net_connections mute_env 0
  = Return ([web_conn] ++ backdoor_conn :: [backdoor_conn])%list
  /\ exists w' entries,
       monitor_network_connections mute_env (SecurityHandler ∅)
       = (Return tt, w')
       /\ threat_log w' = log_after [] entries
       /\ length entries = 1%nat.
Proof.
  split; [reflexivity |].
  destruct (failed_alert_ends_network_check mute_env (SecurityHandler ∅)
              [web_conn] [backdoor_conn] backdoor_conn
              (Exn "RuntimeError" "run loop already started"))
    as (w' & entries & Hrun & Hlog & _ & Hlen & _).
  - reflexivity.
  - repeat constructor.
  - vm_compute. reflexivity.
  - intros t. reflexivity.
  - exists w', entries. split; [exact Hrun |]. split; [exact Hlog | exact Hlen].
Defined.

(** ** Whitelist *)

Lemma add_to_whitelist_run env w process_name :
  add_to_whitelist process_name env w
  = let w1 :=
      set_trace
        (trace w
         ++ [EvLog "INFO" ("Added to whitelist: " +:+ process_name);
             EvLog "INFO"
               ("Speaking: Process " +:+ process_name
                +:+ " added to security whitelist")])
        (set_whitelisted_processes
           ({[ Str.lower process_name ]} ∪ whitelisted_processes w)
           (set_tick (S (tick w)) w)) in
    match env_speak env (tick w) with
    | None =>
        (Return true,
         set_trace
           (trace w1
            ++ [EvSay ("Process " +:+ process_name
                       +:+ " added to security whitelist")]) w1)
    | Some e =>
        (Return false,
         set_trace
           (trace w1
            ++ [EvLog "ERROR" ("Failed to add to whitelist: " +:+ exn_msg e)])
           w1)
    end.
Proof.
  unfold add_to_whitelist. munfold. simpl.
  destruct (env_speak env (tick w)); simpl;
    unfold set_trace; simpl; rewrite <- ?app_assoc; reflexivity.
Qed.

Lemma remove_from_whitelist_run env w process_name :
  Str.lower process_name ∈ whitelisted_processes w ->
  remove_from_whitelist process_name env w
  = let w1 :=
      set_trace
        (trace w
         ++ [EvLog "INFO" ("Removed from whitelist: " +:+ process_name);
             EvLog "INFO"
               ("Speaking: Process " +:+ process_name
                +:+ " removed from security whitelist")])
        (set_whitelisted_processes
           (whitelisted_processes w ∖ {[ Str.lower process_name ]})
           (set_tick (S (tick w)) w)) in
    match env_speak env (tick w) with
    | None =>
        (Return true,
         set_trace
           (trace w1
            ++ [EvSay ("Process " +:+ process_name
                       +:+ " removed from security whitelist")]) w1)
    | Some e =>
        (Return false,
         set_trace
           (trace w1
            ++ [EvLog "ERROR"
                  ("Failed to remove from whitelist: " +:+ exn_msg e)])
           w1)
    end.
Proof.
  intros Hin. unfold remove_from_whitelist. munfold. simpl.
  rewrite bool_decide_eq_true_2 by exact Hin. simpl.
  destruct (env_speak env (tick w)); simpl;
    unfold set_trace; simpl; rewrite <- ?app_assoc; reflexivity.
Qed.

Lemma remove_from_whitelist_missing env w process_name :
  Str.lower process_name ∉ whitelisted_processes w ->
  remove_from_whitelist process_name env w = (Return false, w).
Proof.
  intros Hin. unfold remove_from_whitelist. munfold. simpl.
  rewrite bool_decide_eq_false_2 by exact Hin. reflexivity.
Qed.

(** X10. For an ASCII name: the whitelist is changed before anything is
    said, under the lower case form of the name. [add_to_whitelist] always leaves the lower case
    name in the set, and [remove_from_whitelist] of a name that is there
    always takes it out; each returns [True] when its announcement is
    spoken and [False] when the speech engine fails, the change made all
    the same. Removing a name that is not there returns [False] and does
    nothing at all. Neither touches the threat log. *)
Theorem whitelist_updates :
  forall (env : Env) (w : World) (process_name : string),
    Str.is_ascii process_name = true ->
    let key := Str.lower process_name in
    let spoken :=
      match env_speak env (tick w) with None => true | Some _ => false end in
    let added := add_to_whitelist process_name env w in
    let removed := remove_from_whitelist process_name env w in
    fst added = Return spoken
    /\ whitelisted_processes (snd added) = {[ key ]} ∪ whitelisted_processes w
    /\ threat_log (snd added) = threat_log w
    /\ (key ∈ whitelisted_processes w ->
        fst removed = Return spoken
        /\ whitelisted_processes (snd removed)
           = whitelisted_processes w ∖ {[ key ]}
        /\ threat_log (snd removed) = threat_log w)
    /\ (key ∉ whitelisted_processes w -> removed = (Return false, w)).
Proof.
  intros env w process_name _ key spoken added removed.
  subst added removed spoken key.
  rewrite add_to_whitelist_run.
  split; [| split; [| split; [| split]]].
  - cbv zeta. now destruct (env_speak env (tick w)).
  - cbv zeta. now destruct (env_speak env (tick w)).
  - cbv zeta. now destruct (env_speak env (tick w)).
  - intros Hin. rewrite (remove_from_whitelist_run env w process_name Hin).
    cbv zeta. now destruct (env_speak env (tick w)).
  - apply remove_from_whitelist_missing.
Qed.

Lemma whitelist_updates_witness :
  Str.is_ascii "Miner.EXE" = true
  /\ whitelisted_processes
       (snd (add_to_whitelist "Miner.EXE" mute_env (SecurityHandler ∅)))
     = {[ "miner.exe" ]} ∪ whitelisted_processes (SecurityHandler ∅)
  /\ fst (add_to_whitelist "Miner.EXE" mute_env (SecurityHandler ∅))
     = Return false.
Proof.
  split; [reflexivity |].
  destruct (whitelist_updates mute_env (SecurityHandler ∅) "Miner.EXE" eq_refl)
    as (Hanswer & Hadded & _).
  split; [exact Hadded | exact Hanswer].
Defined.

Lemma add_remove_set (whitelist : gset string) (key : string) :
  ({[ key ]} ∪ whitelist) ∖ {[ key ]} = whitelist ∖ {[ key ]}.
Proof.
  apply set_eq. intros x.
  rewrite !elem_of_difference, elem_of_union, elem_of_singleton. tauto.
Qed.

Lemma remove_fresh_set (whitelist : gset string) (key : string) :
  key ∉ whitelist -> whitelist ∖ {[ key ]} = whitelist.
Proof.
  intros Hnew. apply set_eq. intros x.
  rewrite elem_of_difference, elem_of_singleton. split; [tauto |].
  intros Hx. split; [exact Hx | congruence].
Qed.

Lemma in_add_set (whitelist : gset string) (key : string) :
  key ∈ ({[ key ]} ∪ whitelist : gset string).
Proof. apply elem_of_union. left. now apply elem_of_singleton. Qed.

(** X11. Adding an ASCII name and removing it again, under any ASCII
    spelling with the same lower case form, leaves the whitelist without the name, whether
    or not it was there before: the set is as it was when the name is new,
    and a baseline name that is added and removed is whitelisted no more. *)
Theorem whitelist_add_remove :
  forall (env : Env) (w : World) (added_name removed_name : string),
    Str.is_ascii added_name = true ->
    Str.is_ascii removed_name = true ->
    Str.lower added_name = Str.lower removed_name ->
    let w1 := snd (add_to_whitelist added_name env w) in
    let w2 := snd (remove_from_whitelist removed_name env w1) in
    whitelisted_processes w2
    = whitelisted_processes w ∖ {[ Str.lower added_name ]}
    /\ (Str.lower added_name ∉ whitelisted_processes w ->
        whitelisted_processes w2 = whitelisted_processes w)
    /\ (env_speak env (S (tick w)) = None ->
        fst (remove_from_whitelist removed_name env w1) = Return true).
Proof.
  intros env w added_name removed_name _ _ Hlow w1 w2.
  assert (Hw1 : whitelisted_processes w1
                = {[ Str.lower added_name ]} ∪ whitelisted_processes w).
  { subst w1. rewrite add_to_whitelist_run. cbv zeta.
    now destruct (env_speak env (tick w)). }
  assert (Ht1 : tick w1 = S (tick w)).
  { subst w1. rewrite add_to_whitelist_run. cbv zeta.
    now destruct (env_speak env (tick w)). }
  assert (Hin : Str.lower removed_name ∈ whitelisted_processes w1).
  { rewrite Hw1, <- Hlow. apply in_add_set. }
  assert (Hw2 : whitelisted_processes w2
                = whitelisted_processes w ∖ {[ Str.lower added_name ]}).
  { subst w2. rewrite (remove_from_whitelist_run env w1 removed_name Hin).
    cbv zeta.
    assert (Hset : whitelisted_processes w1 ∖ {[ Str.lower removed_name ]}
                   = whitelisted_processes w ∖ {[ Str.lower added_name ]}).
    { rewrite Hw1, <- Hlow. apply add_remove_set. }
    destruct (env_speak env (tick w1)); simpl; exact Hset. }
  split; [exact Hw2 |]. split.
  - intros Hnew. rewrite Hw2. now apply remove_fresh_set.
  - intros Hspeak.
    rewrite (remove_from_whitelist_run env w1 removed_name Hin).
    cbv zeta. now rewrite Ht1, Hspeak.
Qed.

Lemma whitelist_add_remove_witness :
  Str.lower "Miner.EXE" = Str.lower "miner.exe"
  /\ whitelisted_processes
       (snd (remove_from_whitelist "miner.exe" quiet_env
               (snd (add_to_whitelist "Miner.EXE" quiet_env
                       (SecurityHandler ∅)))))
     = baseline.
Proof.
  assert (Hlow : Str.lower "Miner.EXE" = Str.lower "miner.exe") by reflexivity.
  split; [exact Hlow |].
  destruct (whitelist_add_remove quiet_env (SecurityHandler ∅)
              "Miner.EXE" "miner.exe" eq_refl eq_refl Hlow) as (_ & Hnew & _).
  apply Hnew. vm_compute. intros H. discriminate H.
Defined.

Lemma add_to_whitelist_world env w process_name :
  whitelisted_processes (snd (add_to_whitelist process_name env w))
  = {[ Str.lower process_name ]} ∪ whitelisted_processes w
  /\ tick (snd (add_to_whitelist process_name env w)) = S (tick w)
  /\ threat_log (snd (add_to_whitelist process_name env w)) = threat_log w.
Proof.
  rewrite add_to_whitelist_run. cbv zeta.
  now destruct (env_speak env (tick w)).
Qed.

(** X12. The whitelist is filled in lower case and consulted as the name
    stands. With ASCII names: after [add_to_whitelist(name)], a scan still reports the high
    CPU usage of a process called [name] that was not whitelisted before
    exactly when [name] holds an upper case letter: the call exempts a
    process only when its name is its own lower case form. *)
Theorem whitelist_check_is_case_sensitive :
  forall (env : Env) (w : World) (process_name : string) (info : proc_info)
         (procs : list (outcome proc_info)),
    let w1 := snd (add_to_whitelist process_name env w) in
    env_process_iter env (S (tick w)) = Return procs ->
    Forall (fun proc => scannable proc = true) procs ->
    Forall (fun proc => ascii_named proc = true) procs ->
    Forall (fun proc => suspicious_proc proc = false) procs ->
    In (Return info) procs ->
    name info = Some process_name ->
    process_name <> "" ->
    truthy_and_gt (cpu_percent info) (90 # 1) = true ->
    process_name ∉ whitelisted_processes w ->
    exists w2 entries,
      scan_running_processes env w1 = (Return tt, w2)
      /\ threat_log w2 = log_after (threat_log w) entries
      /\ (In ("high_cpu_usage", DProc info) (map call_of entries)
          <-> Str.lower process_name <> process_name).
Proof.
  intros env w process_name info procs w1 Hiter Hscan _ Hquiet Hin Hname Hne
         Hcpu Hnew.
  destruct (add_to_whitelist_world env w process_name) as (Hwl & Htick & Hlog0).
  fold w1 in Hwl, Htick, Hlog0.
  destruct (scan_running_processes_logged env w1 procs) as (w2 & Hrun & Hlog);
    [now rewrite Htick | exact Hscan | now left |].
  destruct (logged_calls _ _ _ Hlog) as (entries & Hcalls & _ & Hthreat).
  exists w2, entries. split; [exact Hrun |]. split; [now rewrite <- Hlog0 |].
  rewrite Hcalls, Hwl.
  assert (Hflag :
    usage_flagged ({[ Str.lower process_name ]} ∪ whitelisted_processes w)
      (cpu_percent info) (90 # 1) process_name = true
    <-> Str.lower process_name <> process_name).
  { unfold usage_flagged. rewrite Hcpu. cbn [andb].
    rewrite negb_true_iff, bool_decide_eq_false.
    rewrite elem_of_union, elem_of_singleton. split.
    - intros Hnot Heq. apply Hnot. left. now symmetry.
    - intros Hdiff [Heq | Hold]; [now apply Hdiff | now apply Hnew]. }
  rewrite <- Hflag. split.
  - intros Hc. apply in_flat_map in Hc as (proc & _ & Hc).
    apply in_process_threats in Hc
      as (info' & proc_name & _ & [= <-] & Hname' & _ & Hkind).
    rewrite Hname in Hname'. injection Hname' as <-.
    destruct Hkind as [[Hk _] | [[_ Hf] | [Hk _]]];
      [discriminate | exact Hf | discriminate].
  - intros Hf. apply in_flat_map. exists (Return info).
    split; [exact Hin |]. unfold process_threats. rewrite Hname.
    destruct process_name as [| c r]; [congruence |].
    rewrite Hf. rewrite !in_app_iff. right. left. now left.
Qed.

Lemma whitelist_check_is_case_sensitive_witness :
  env_process_iter miner_env 1 = Return [Return miner; Return chrome]
  /\ exists w2 entries,
       scan_running_processes miner_env
         (snd (add_to_whitelist "Miner.exe" miner_env (SecurityHandler ∅)))
       = (Return tt, w2)
       /\ threat_log w2 = log_after [] entries
       /\ In ("high_cpu_usage", DProc miner) (map call_of entries).
Proof.
  split; [reflexivity |].
  destruct (whitelist_check_is_case_sensitive miner_env (SecurityHandler ∅)
              "Miner.exe" miner [Return miner; Return chrome])
    as (w2 & entries & Hrun & Hlog & Hcase).
  - reflexivity.
  - repeat constructor.
  - repeat constructor.
  - repeat constructor.
  - now left.
  - reflexivity.
  - discriminate.
  - reflexivity.
  - vm_compute. intros H. discriminate H.
  - exists w2, entries. split; [exact Hrun |]. split; [exact Hlog |].
    apply Hcase. discriminate.
Defined.

(** ** Files that cannot be read *)

Lemma open_rb_unreadable env w file_path n :
  fs w !! file_path = Some n -> unreadable n = true ->
  exists e, open_rb file_path env w = (Raise e, w).
Proof.
  intros Hfile Hn. unfold open_rb, bind, get, raise. cbv beta iota.
  rewrite Hfile. destruct n as [content [|] | st_size];
    [discriminate | |]; eexists; reflexivity.
Qed.

(** X13. [calculate_file_hash] never raises and changes nothing. For a file
    that can be read it returns the digest of the whole content, the chunks
    of 8192 bytes put together again; for anything else (a missing path, a
    directory, a file without read permission) it returns [None] after one
    ERROR line. *)
Theorem calculate_file_hash_whole_file :
  forall (env : Env) (w : World) (file_path : string),
    match fs w !! file_path with
    | Some (File content true) =>
        calculate_file_hash file_path env w
        = (Return (Some (hashlib_sha256 env content)), w)
    | _ =>
        exists msg,
          calculate_file_hash file_path env w
          = (Return None,
             set_trace
               (trace w
                ++ [EvLog "ERROR"
                      ("Failed to calculate hash for " +:+ file_path +:+ ": "
                       +:+ msg)]) w)
    end.
Proof.
  intros env w file_path.
  destruct (fs w !! file_path) as [[content [|] | st_size] |] eqn:Hfile.
  - now apply calculate_file_hash_run.
  - unfold calculate_file_hash, open_rb, try_except, bind, get, raise.
    cbv beta iota. rewrite Hfile. eexists. reflexivity.
  - unfold calculate_file_hash, open_rb, try_except, bind, get, raise.
    cbv beta iota. rewrite Hfile. eexists. reflexivity.
  - unfold calculate_file_hash, open_rb, try_except, bind, get, raise.
    cbv beta iota. rewrite Hfile. eexists. reflexivity.
Qed.

Lemma calculate_file_hash_unreadable env w file_path n :
  fs w !! file_path = Some n -> unreadable n = true ->
  exists msg,
    calculate_file_hash file_path env w
    = (Return None,
       set_trace
         (trace w
          ++ [EvLog "ERROR"
                ("Failed to calculate hash for " +:+ file_path +:+ ": "
                 +:+ msg)]) w).
Proof.
  intros Hfile Hn.
  destruct (open_rb_unreadable env w file_path n Hfile Hn) as [e He].
  exists (exn_msg e).
  unfold calculate_file_hash, try_except, bind. rewrite He. reflexivity.
Qed.

Lemma calculate_file_entropy_unreadable env w file_path n block_size :
  fs w !! file_path = Some n -> unreadable n = true ->
  exists msg,
    calculate_file_entropy file_path block_size env w
    = (Return 0%R,
       set_trace
         (trace w
          ++ [EvLog "ERROR"
                ("Failed to calculate entropy for " +:+ file_path +:+ ": "
                 +:+ msg)]) w).
Proof.
  intros Hfile Hn.
  destruct (open_rb_unreadable env w file_path n Hfile Hn) as [e He].
  exists (exn_msg e).
  unfold calculate_file_entropy, try_except, bind. rewrite He. reflexivity.
Qed.

Lemma entropy_finding_zero : entropy_finding 0 = [].
Proof.
  unfold entropy_finding. destruct (Rgt_dec 0 7.5) as [H | _]; [| reflexivity].
  exfalso. unfold Rgt in H. lra.
Qed.

(** X14. A file that exists but cannot be read (no read permission, or a
    directory) is scanned all the same: the scan returns a report, not an
    error, with no hash; the hash, entropy and reputation checks each
    leave one ERROR line and find nothing, so the findings are those of
    the extension and of the size alone, and the file is reported safe
    exactly when its extension is harmless and its size is at most
    100 MiB. *)
Theorem unreadable_file_scan :
  forall (env : Env) (w : World) (file_path : string) (n : node),
    fs w !! file_path = Some n ->
    unreadable n = true ->
    let size := node_size n in
    let file_ext := Str.lower (Path.splitext_ext file_path) in
    exists r w' hash_msg entropy_msg reputation_msg evs,
      scan_file_for_threats file_path env w = (Return (ScanReport r), w')
      /\ file_hash r = None
      /\ file_size r = size
      /\ threats_found r
         = (extension_finding file_ext ++ size_finding size)%list
      /\ (is_safe r = true
          <-> ~ In file_ext suspicious_extensions
              /\ size <= 100 * 1024 * 1024)
      /\ trace w'
         = (trace w
            ++ [EvLog "ERROR"
                  ("Failed to calculate hash for " +:+ file_path +:+ ": "
                   +:+ hash_msg);
                EvLog "ERROR"
                  ("Failed to calculate entropy for " +:+ file_path +:+ ": "
                   +:+ entropy_msg);
                EvLog "ERROR"
                  ("Hash reputation check failed: " +:+ reputation_msg)]
            ++ evs)%list
      /\ fs w' = fs w.
Proof.
  intros env w file_path n Hfile Hn size file_ext.
  set (threats := (extension_finding file_ext ++ size_finding size)%list).
  set (r := {| file_path := file_path; file_size := size;
               scan_time := env_now env (tick w);
               threats_found := threats;
               is_safe := (length threats =? 0)%nat;
               file_hash := None |}).
  set (w1 := set_tick (S (tick w)) w).
  destruct (calculate_file_hash_unreadable env w1 file_path n Hfile Hn)
    as [hash_msg Hhash].
  set (w2 := set_trace
               (trace w1
                ++ [EvLog "ERROR"
                      ("Failed to calculate hash for " +:+ file_path +:+ ": "
                       +:+ hash_msg)]) w1) in *.
  destruct (calculate_file_entropy_unreadable env w2 file_path n 1024 Hfile Hn)
    as [entropy_msg Hentropy].
  set (w3 := set_trace
               (trace w2
                ++ [EvLog "ERROR"
                      ("Failed to calculate entropy for " +:+ file_path
                       +:+ ": " +:+ entropy_msg)]) w2) in *.
  set (w4 := set_trace
               (trace w3
                ++ [EvLog "ERROR"
                      ("Hash reputation check failed: "
                       +:+ "'NoneType' object has no attribute 'lower'")])
               w3).
  assert (Hrep : check_hash_reputation None env w3 = (Return false, w4))
    by reflexivity.
  assert (Hsize : os_path_getsize file_path env w = (Return size, w)).
  { unfold os_path_getsize, bind, get. cbv beta iota. rewrite Hfile.
    subst size. now destruct n. }
  assert (Hsafe : (length threats =? 0)%nat = true
                  <-> ~ In file_ext suspicious_extensions
                      /\ size <= 100 * 1024 * 1024).
  { subst threats. unfold extension_finding, size_finding, LARGE_FILE.
    destruct (Str.mem file_ext suspicious_extensions) eqn:Hext.
    - apply mem_In in Hext. simpl. split; [discriminate | tauto].
    - assert (Hnot : ~ In file_ext suspicious_extensions).
      { intros Hin. apply mem_In in Hin. congruence. }
      destruct (100 * 1024 * 1024 <? size) eqn:Hbig; simpl.
      + apply Z.ltb_lt in Hbig. split; [discriminate | lia].
      + apply Z.ltb_ge in Hbig. split; [now split | reflexivity]. }
  assert (Hbody : exists w' evs,
    scan_file_for_threats file_path env w = (Return (ScanReport r), w')
    /\ trace w' = (trace w4 ++ evs)%list /\ fs w' = fs w).
  { unfold scan_file_for_threats, try_except.
    rewrite (bind_run _ _ _ _ _ _ (os_path_exists_run env w file_path)).
    rewrite Hfile.
    change (negb (bool_decide (is_Some (Some n)))) with false. cbv iota.
    rewrite (bind_run _ _ _ _ _ _ Hsize).
    rewrite (bind_run _ _ _ _ _ _ (datetime_now_run env w)).
    fold w1. rewrite (bind_run _ _ _ _ _ _ Hhash).
    rewrite (bind_run _ _ _ _ _ _ Hentropy).
    rewrite (bind_run _ _ _ _ _ _ Hrep).
    cbv zeta. rewrite entropy_finding_zero. unfold reputation_finding.
    rewrite !app_nil_r. fold file_ext. fold threats. fold r.
    destruct (negb (is_safe r)) eqn:Hunsafe; unfold when.
    - erewrite bind_run; [| apply log_threat_quiet_run; discriminate].
      eexists. eexists. split; [reflexivity |]. split; [| reflexivity].
      simpl. rewrite <- app_assoc. reflexivity.
    - eexists. eexists. split; [reflexivity |]. split; reflexivity. }
  destruct Hbody as (w' & evs & Hrun & Htrace & Hfs).
  exists r, w', hash_msg, entropy_msg,
    "'NoneType' object has no attribute 'lower'", evs.
  split; [exact Hrun |]. split; [reflexivity |]. split; [reflexivity |].
  split; [reflexivity |]. split; [exact Hsafe |]. split; [| exact Hfs].
  rewrite Htrace. subst w4 w3 w2 w1. simpl.
  rewrite <- !app_assoc. reflexivity.
Qed.

Lemma unreadable_file_scan_witness :
  fs (SecurityHandler locked) !! "downloads/locked.exe"
  = Some (File evil_exe false)
  /\ exists r w',
       scan_file_for_threats "downloads/locked.exe" quiet_env
         (SecurityHandler locked)
       = (Return (ScanReport r), w')
       /\ file_hash r = None
       /\ threats_found r = [suspicious_extension ".exe"].
Proof.
  assert (Hfile : fs (SecurityHandler locked) !! "downloads/locked.exe"
                  = Some (File evil_exe false)) by (vm_compute; reflexivity).
  split; [exact Hfile |].
  destruct (unreadable_file_scan quiet_env (SecurityHandler locked)
              "downloads/locked.exe" (File evil_exe false) Hfile eq_refl)
    as (r & w' & _ & _ & _ & _ & Hrun & Hhash & _ & Hthreats & _).
  exists r, w'. split; [exact Hrun |]. split; [exact Hhash |].
  rewrite Hthreats. vm_compute. reflexivity.
Defined.

(** ** Methods that only observe *)

#[local] Instance observed_preorder P : PreOrder (observed P).
Proof.
  split.
  - intros w. split; try reflexivity.
    exists []. split; [now rewrite app_nil_r | constructor].
  - intros w1 w2 w3 [Hm Ht Hl Hw Hb Hf Hth (evs & Hev & HP)]
                    [Hm' Ht' Hl' Hw' Hb' Hf' Hth' (evs' & Hev' & HP')].
    split; try congruence.
    exists (evs ++ evs')%list. split.
    + now rewrite Hev', Hev, app_assoc.
    + now apply Forall_app.
Qed.

Lemma observed_weaken (P P' : event -> Prop) w w' :
  (forall ev, P ev -> P' ev) -> observed P w w' -> observed P' w w'.
Proof.
  intros HP [Hm Ht Hl Hw Hb Hf Hth (evs & Hev & Hevs)].
  split; try assumption. exists evs. split; [exact Hev |].
  eapply Forall_impl; [exact Hevs | exact HP].
Qed.

Lemma keeps_observed_ask P {A} (oracle : Env -> nat -> A) :
  keeps (observed P) (ask oracle).
Proof.
  intros env w. split; try reflexivity.
  exists []. split; [now rewrite app_nil_r | constructor].
Qed.

Lemma keeps_observed_emit (P : event -> Prop) ev :
  P ev -> keeps (observed P) (emit ev).
Proof.
  intros Hev env w. split; try reflexivity.
  exists [ev]. split; [reflexivity | now constructor].
Qed.

Lemma keeps_observed_log_message (P : event -> Prop) message level :
  (forall level msg, P (EvLog level msg)) ->
  keeps (observed P) (log_message message level).
Proof.
  intros HP. apply keeps_when; [apply _ |]. apply keeps_observed_emit, HP.
Qed.

Lemma log_line_log level msg : log_line (EvLog level msg).
Proof. now exists level, msg. Qed.

Lemma keeps_observed_within_hours P h t :
  keeps (observed P) (within_hours h t).
Proof.
  unfold within_hours, datetime_now.
  apply keeps_bind; [apply _ | apply keeps_observed_ask | intros now].
  apply keeps_ret, _.
Qed.

Lemma keeps_observed_status :
  keeps (observed log_line) get_system_security_status.
Proof.
  unfold get_system_security_status.
  apply keeps_try_except; [apply _ | | intros e].
  2: { apply keeps_bind; [apply _ | | intros _; apply keeps_ret, _].
       apply keeps_observed_log_message, log_line_log. }
  apply keeps_bind; [apply _ | apply keeps_get, _ | intros w0].
  apply keeps_bind; [apply _ | | intros recent].
  { apply keeps_filterM; [apply _ | intros t].
    apply keeps_observed_within_hours. }
  apply keeps_bind; [apply _ | apply keeps_observed_ask | intros now].
  apply keeps_bind; [apply _ | apply keeps_observed_ask | intros cpu].
  apply keeps_bind; [apply _ | apply keeps_lift_outcome, _ | intros cpu_percent].
  apply keeps_bind; [apply _ | apply keeps_observed_ask | intros memory].
  apply keeps_bind; [apply _ | apply keeps_lift_outcome, _ | intros mem].
  apply keeps_bind; [apply _ | apply keeps_observed_ask | intros disk].
  apply keeps_bind; [apply _ | apply keeps_lift_outcome, _ | intros disk_percent].
  apply keeps_bind; [apply _ | apply keeps_get, _ | intros w1].
  apply keeps_bind; [apply _ | | intros recent_high_threats; apply keeps_ret, _].
  apply keeps_filterM; [apply _ | intros t].
  unfold recent_high. destruct (Severity_eqb (severity t) high).
  - apply keeps_observed_within_hours.
  - apply keeps_ret, _.
Qed.

Lemma returns_status : returns get_system_security_status.
Proof.
  apply returns_try_except. intros e.
  apply returns_bind; [apply returns_log_message | intros _; apply returns_ret].
Qed.

(** X15. [get_system_security_status] never raises and only observes: the
    flag, the threads, the threat log, the whitelist and the file system
    are as before, and all it leaves behind are lines of the log sink. It
    returns [{'error': ...}] exactly when one of the three gauge readings
    fails; then the message is that of the first failing reading. *)
Theorem status_only_observes :
  forall (env : Env) (w : World),
    let gauges := S (tick w + length (threat_log w)) in
    exists r,
      fst (get_system_security_status env w) = Return r
      /\ observed log_line w (snd (get_system_security_status env w))
      /\ ((exists msg, r = StatusError msg)
          <-> raised (env_cpu_percent env gauges)
              || raised (env_virtual_memory env (S gauges))
              || raised (env_disk_usage env (S (S gauges))) = true)
      /\ (forall e, env_cpu_percent env gauges = Raise e ->
            r = StatusError (exn_msg e))
      /\ (forall cpu e,
            env_cpu_percent env gauges = Return cpu ->
            env_virtual_memory env (S gauges) = Raise e ->
            r = StatusError (exn_msg e))
      /\ (forall cpu mem e,
            env_cpu_percent env gauges = Return cpu ->
            env_virtual_memory env (S gauges) = Return mem ->
            env_disk_usage env (S (S gauges)) = Raise e ->
            r = StatusError (exn_msg e)).
Proof.
  intros env w gauges.
  destruct (returns_run _ env w returns_status) as [r Hrun].
  exists r. split; [now rewrite Hrun |].
  split; [apply keeps_observed_status |].
  assert (Hr : fst (get_system_security_status env w) = Return r)
    by now rewrite Hrun.
  clear Hrun. revert Hr.
  unfold get_system_security_status, try_except.
  unfold bind, get. rewrite filterM_within_run.
  unfold datetime_now, ask, lift_outcome. simpl. fold gauges.
  destruct (env_cpu_percent env gauges) as [cpu | e1]; simpl.
  2: { unfold log_message. munfold. simpl. intros [= <-].
       repeat split; try (intros; discriminate); try eauto.
       intros e [= <-]. reflexivity. }
  destruct (env_virtual_memory env (S gauges)) as [mem | e2]; simpl.
  2: { unfold log_message. munfold. simpl. intros [= <-].
       repeat split; try (intros; discriminate); try eauto.
       intros cpu' e _ [= <-]. reflexivity. }
  destruct (env_disk_usage env (S (S gauges))) as [disk | e3]; simpl.
  2: { unfold log_message. munfold. simpl. intros [= <-].
       repeat split; try (intros; discriminate); try eauto.
       intros cpu' mem' e _ _ [= <-]. reflexivity. }
  rewrite filterM_recent_high_run. simpl. intros [= <-].
  repeat split; try (intros; discriminate).
  intros [msg Hmsg].
  destruct (negb _), (Qgtb disk (90 # 1)), (Qgtb mem (85 # 1)),
    (Qgtb cpu (80 # 1)); discriminate.
Qed.

(** ** The security commands of tasks.py *)

#[local] Instance undisturbed_preorder : PreOrder undisturbed.
Proof.
  split.
  - intros w. now split.
  - intros w1 w2 w3 [Hl Hw Hf Hon] [Hl' Hw' Hf' Hon'].
    split; try congruence. auto.
Qed.

Lemma observed_undisturbed P w w' : observed P w w' -> undisturbed w w'.
Proof.
  intros [Hm _ Hl Hw _ Hf _ _]. split; try assumption. congruence.
Qed.

Lemma keeps_undisturbed_modify f :
  (forall w, undisturbed w (f w)) -> keeps undisturbed (modify f).
Proof. intros Hf env w. apply Hf. Qed.

Lemma keeps_undisturbed_ask {A} (oracle : Env -> nat -> A) :
  keeps undisturbed (ask oracle).
Proof. intros env w. now split. Qed.

Lemma keeps_undisturbed_emit e : keeps undisturbed (emit e).
Proof. intros env w. now split. Qed.

Lemma keeps_undisturbed_log_message message level :
  keeps undisturbed (log_message message level).
Proof. apply keeps_when; [apply _ | apply keeps_undisturbed_emit]. Qed.

Lemma keeps_undisturbed_speak text : keeps undisturbed (speak text).
Proof.
  unfold speak.
  apply keeps_bind; [apply _ | apply keeps_undisturbed_log_message | intros _].
  apply keeps_bind; [apply _ | | intros _; apply keeps_undisturbed_emit].
  apply keeps_bind; [apply _ | apply keeps_undisturbed_ask | intros o].
  apply keeps_lift_fault, _.
Qed.

Lemma keeps_undisturbed_start interval :
  keeps undisturbed (start_monitoring interval).
Proof.
  unfold start_monitoring, thread_start.
  apply keeps_bind; [apply _ | apply keeps_get, _ | intros w0].
  destruct (is_monitoring w0); [apply keeps_undisturbed_log_message |].
  apply keeps_bind; [apply _ | | intros _].
  { apply keeps_undisturbed_modify. intros w. now split. }
  apply keeps_bind; [apply _ | | intros tid].
  { apply keeps_bind; [apply _ | apply keeps_get, _ | intros w1].
    apply keeps_bind; [apply _ | | intros _].
    { apply keeps_undisturbed_modify. intros w. now split. }
    apply keeps_bind; [apply _ | apply keeps_undisturbed_emit | intros _].
    apply keeps_ret, _. }
  apply keeps_bind; [apply _ | | intros _].
  { apply keeps_undisturbed_modify. intros w. now split. }
  apply keeps_bind;
    [apply _ | apply keeps_undisturbed_log_message | intros _].
  apply keeps_undisturbed_speak.
Qed.

Lemma keeps_undisturbed_status : keeps undisturbed get_system_security_status.
Proof.
  intros env w. eapply observed_undisturbed, keeps_observed_status.
Qed.

Lemma keeps_undisturbed_verdict :
  keeps undisturbed
    (let* status := get_system_security_status in
     let* health := status_health status in
     (match health with
      | good => speak "Security scan completed. No threats detected."
      | warning =>
          speak "Security scan completed with warnings. Check the security log for details."
      | critical =>
          speak "Security scan detected issues. Immediate attention recommended."
      end) ;;;
     ret true).
Proof.
  apply keeps_bind; [apply _ | apply keeps_undisturbed_status | intros status].
  apply keeps_bind; [apply _ | | intros health].
  { destruct status; [apply keeps_raise, _ | apply keeps_ret, _]. }
  apply keeps_bind; [apply _ | | intros _; apply keeps_ret, _].
  destruct health; apply keeps_undisturbed_speak.
Qed.

Lemma keeps_undisturbed_scan_failed e :
  keeps undisturbed
    (log_message ("Security scan failed: " +:+ exn_msg e) "ERROR" ;;;
     speak "I had trouble running the security scan." ;;;
     ret false).
Proof.
  apply keeps_bind; [apply _ | apply keeps_undisturbed_log_message | intros _].
  apply keeps_bind; [apply _ | apply keeps_undisturbed_speak | intros _].
  apply keeps_ret, _.
Qed.

Lemma start_monitoring_on env w interval :
  is_monitoring (snd (start_monitoring interval env w)) = true.
Proof.
  destruct (is_monitoring w) eqn:Hon.
  - now rewrite (start_monitoring_running env w interval Hon).
  - now destruct (start_monitoring_stopped env w interval Hon) as [H _].
Qed.

Lemma try_except_bind_run {A B} (m : M A) (k : A -> M B) (h : exn -> M B)
    env w a w1 :
  m env w = (Return a, w1) ->
  try_except (bind m k) h env w = try_except (k a) h env w1.
Proof. intros Hm. unfold try_except, bind. now rewrite Hm. Qed.

Lemma monitor_on_after_start (rest : M bool) (h : exn -> M bool) env w interval :
  keeps undisturbed rest -> (forall e, keeps undisturbed (h e)) ->
  is_monitoring
    (snd (try_except (start_monitoring interval ;;; rest) h env w)) = true.
Proof.
  intros Hrest Hh.
  pose proof (start_monitoring_on env w interval) as Hstarted.
  unfold try_except, bind.
  destruct (start_monitoring interval env w) as [[[] | e] w1];
    simpl in Hstarted.
  - pose proof (Hrest env w1) as Hkept.
    destruct (rest env w1) as [[b | e] w2]; simpl in *.
    + apply (undisturbed_on _ _ Hkept Hstarted).
    + apply (undisturbed_on _ _ (Hh e env w2)).
      apply (undisturbed_on _ _ Hkept Hstarted).
  - apply (undisturbed_on _ _ (Hh e env w1)). exact Hstarted.
Qed.

(** X16. The security scan command of the assistant examines nothing
    itself: whatever happens, [handle_security_scan] leaves the threat
    log, the whitelist and the files as they are. What it does is switch
    the background monitor on: once its opening announcement has been
    spoken the monitor is on when it returns or raises, even when it
    reports a failure, and it never switches a running monitor off. *)
Theorem security_scan_command_starts_monitor :
  forall (env : Env) (w : World),
    let w' := snd (handle_security_scan env w) in
    threat_log w' = threat_log w
    /\ whitelisted_processes w' = whitelisted_processes w
    /\ fs w' = fs w
    /\ (is_monitoring w = true -> is_monitoring w' = true)
    /\ (env_speak env (tick w) = None -> is_monitoring w' = true).
Proof.
  intros env w w'.
  assert (Hkeep : undisturbed w w').
  { subst w'. revert env w.
    change (keeps undisturbed handle_security_scan).
    unfold handle_security_scan.
    apply keeps_try_except;
      [apply _ | | intros e; apply keeps_undisturbed_scan_failed].
    apply keeps_bind; [apply _ | apply keeps_undisturbed_speak | intros _].
    apply keeps_bind; [apply _ | apply keeps_undisturbed_start | intros _].
    apply keeps_undisturbed_verdict. }
  destruct Hkeep as [Hl Hw Hf Hon].
  repeat split; try assumption.
  intros Hspeak. subst w'.
  unfold handle_security_scan.
  rewrite (try_except_bind_run _ _ _ _ _ _ _
             (speak_run "Starting security scan" env w Hspeak)).
  apply monitor_on_after_start.
  - apply keeps_undisturbed_verdict.
  - intros e. apply keeps_undisturbed_scan_failed.
Qed.

Lemma security_scan_command_starts_monitor_witness :
  is_monitoring (SecurityHandler ∅) = false
  /\ is_monitoring (snd (handle_security_scan quiet_env (SecurityHandler ∅)))
     = true
  /\ threat_log (snd (handle_security_scan quiet_env (SecurityHandler ∅))) = [].
Proof.
  destruct (security_scan_command_starts_monitor quiet_env (SecurityHandler ∅))
    as (Hlog & _ & _ & _ & Hon).
  split; [reflexivity |]. split; [apply Hon; reflexivity | exact Hlog].
Defined.

(** ** Start and stop when the announcement fails *)

(** X17. The flag is switched before anything is said. When the speech
    engine fails, [start_monitoring] on a stopped handler raises the
    exception of the engine with the flag set and the new thread started,
    and [stop_monitoring] raises it with the flag cleared: to the caller
    the call has failed, to the monitor it has happened. *)
Theorem switch_precedes_announcement :
  forall (env : Env) (w : World) (interval : Z) (e : exn),
    env_speak env (tick w) = Some e ->
    (is_monitoring w = false ->
     exists w',
       start_monitoring interval env w = (Raise e, w')
       /\ is_monitoring w' = true
       /\ threads w' = (threads w ++ [mk_thread interval true])%list
       /\ monitoring_thread w' = Some (length (threads w)))
    /\ exists w',
         stop_monitoring env w = (Raise e, w')
         /\ is_monitoring w' = false
         /\ threads w' = threads w.
Proof.
  intros env w interval e Hspeak. split.
  - intros Hoff. unfold start_monitoring, thread_start, speak. munfold.
    rewrite Hoff. simpl. rewrite Hspeak. simpl.
    eexists. split; [reflexivity |]. repeat split.
  - unfold stop_monitoring, speak. munfold. simpl. rewrite Hspeak. simpl.
    eexists. split; [reflexivity |]. split; reflexivity.
Qed.

Lemma switch_precedes_announcement_witness :
  env_speak faulty_env 0 = Some (Exn "RuntimeError" "run loop already started")
  /\ exists w',
       start_monitoring 300 faulty_env (SecurityHandler ∅)
       = (Raise (Exn "RuntimeError" "run loop already started"), w')
       /\ is_monitoring w' = true
       /\ threads w' = [mk_thread 300 true].
Proof.
  split; [reflexivity |].
  destruct (switch_precedes_announcement faulty_env (SecurityHandler ∅) 300
              (Exn "RuntimeError" "run loop already started") eq_refl)
    as [Hstart _].
  destruct (Hstart eq_refl) as (w' & Hrun & Hon & Hthreads & _).
  exists w'. split; [exact Hrun |]. split; [exact Hon | exact Hthreads].
Defined.

(** ** The status command *)

Lemma returns_summary hours : returns (get_threat_summary hours).
Proof.
  apply returns_try_except. intros e.
  apply returns_bind; [apply returns_log_message | intros _; apply returns_ret].
Qed.

Lemma keeps_observed_summary hours :
  keeps (observed log_line) (get_threat_summary hours).
Proof.
  intros env w.
  destruct (cutoff_ok (env_now env (tick w)) (Datetime.hours hours)) eqn:Hok.
  - rewrite (get_threat_summary_run env w hours Hok).
    apply (keeps_observed_ask log_line env_now env w).
  - destruct (get_threat_summary_overflow env w hours Hok) as [msg Hrun].
    rewrite (Hrun w eq_refl). simpl.
    split; try reflexivity.
    eexists. split; [reflexivity |]. repeat constructor. apply log_line_log.
Qed.

Lemma check_event_log_line ev : log_line ev -> check_event ev.
Proof. intros (level & msg & ->). exact I. Qed.

Lemma keeps_observed_speak text : keeps (observed check_event) (speak text).
Proof.
  unfold speak.
  apply keeps_bind; [apply _ | | intros _].
  { apply keeps_observed_log_message. intros; exact I. }
  apply keeps_bind; [apply _ | | intros _; now apply keeps_observed_emit].
  apply keeps_bind; [apply _ | apply keeps_observed_ask | intros o].
  apply keeps_lift_fault, _.
Qed.

Lemma keeps_observed_status_command :
  keeps (observed check_event) handle_security_status.
Proof.
  unfold handle_security_status.
  apply keeps_try_except; [apply _ | | intros e].
  - apply keeps_bind; [apply _ | | intros status].
    { intros env w. eapply observed_weaken;
        [exact check_event_log_line | apply keeps_observed_status]. }
    apply keeps_bind; [apply _ | | intros threat_summary].
    { intros env w. eapply observed_weaken;
        [exact check_event_log_line | apply keeps_observed_summary]. }
    apply keeps_bind; [apply _ | | intros health].
    { destruct status; [apply keeps_raise, _ | apply keeps_ret, _]. }
    apply keeps_bind; [apply _ | | intros total].
    { destruct threat_summary; [apply keeps_raise, _ | apply keeps_ret, _]. }
    apply keeps_bind; [apply _ | apply keeps_observed_speak | intros _].
    apply keeps_ret, _.
  - apply keeps_bind; [apply _ | | intros _].
    { apply keeps_observed_log_message. intros; exact I. }
    apply keeps_bind; [apply _ | apply keeps_observed_speak | intros _].
    apply keeps_ret, _.
Qed.

Lemma last_pair {A} (l : list A) a b : last (l ++ [a; b]) = Some b.
Proof.
  replace (l ++ [a; b])%list with ((l ++ [a]) ++ [b])%list
    by (now rewrite <- app_assoc).
  apply last_snoc.
Qed.

Lemma handle_security_status_run env w s sm w1 w2 :
  get_system_security_status env w = (Return (StatusReport s), w1) ->
  get_threat_summary 24 env w1 = (Return (SummaryReport sm), w2) ->
  env_speak env (tick w2) = None ->
  let status_text :=
    "System security status: " +:+ health_name (system_health s) +:+ ". "
    +:+ "Detected " +:+ Str.of_Z (Z.of_nat (Summary.total_threats sm))
    +:+ " threats in the last 24 hours." in
  handle_security_status env w
  = (Return true,
     set_trace
       (trace w2 ++ [EvLog "INFO" ("Speaking: " +:+ status_text);
                     EvSay status_text])
       (set_tick (S (tick w2)) w2)).
Proof.
  intros Hst Hsm Hspeak status_text.
  unfold handle_security_status, try_except.
  rewrite (bind_run _ _ _ _ _ _ Hst). rewrite (bind_run _ _ _ _ _ _ Hsm).
  unfold status_health, summary_total.
  rewrite (bind_run _ _ _ _ _ _ eq_refl).
  rewrite (bind_run _ _ _ _ _ _ eq_refl).
  rewrite (bind_run _ _ _ _ _ _ (speak_run _ env w2 Hspeak)).
  unfold ret. subst status_text. rewrite <- !append_assoc. reflexivity.
Qed.

Lemma handle_security_status_true env w :
  fst (handle_security_status env w) = Return true ->
  exists s sm w1 w2,
    get_system_security_status env w = (Return (StatusReport s), w1)
    /\ get_threat_summary 24 env w1 = (Return (SummaryReport sm), w2)
    /\ env_speak env (tick w2) = None.
Proof.
  destruct (returns_run _ env w returns_status) as [st Hst].
  set (w1 := snd (get_system_security_status env w)) in *.
  destruct (returns_run _ env w1 (returns_summary 24)) as [sm Hsm].
  set (w2 := snd (get_threat_summary 24 env w1)) in *.
  clearbody w1 w2.
  unfold handle_security_status, try_except.
  rewrite (bind_run _ _ _ _ _ _ Hst). rewrite (bind_run _ _ _ _ _ _ Hsm).
  assert (Hfalse : forall e w0,
    fst ((log_message ("Security status failed: " +:+ exn_msg e) "ERROR" ;;;
          speak "I had trouble getting security status." ;;;
          ret false) env w0) <> Return true).
  { intros e w0. unfold speak. munfold. simpl.
    destruct (env_speak env (tick w0)); simpl; discriminate. }
  destruct st as [msg | s].
  { unfold status_health, bind at 1, raise. intros H.
    exfalso. exact (Hfalse _ _ H). }
  unfold status_health at 1. rewrite (bind_run _ _ _ _ _ _ eq_refl).
  destruct sm as [msg | sm].
  { unfold summary_total, bind at 1, raise. intros H.
    exfalso. exact (Hfalse _ _ H). }
  unfold summary_total at 1. rewrite (bind_run _ _ _ _ _ _ eq_refl).
  cbv zeta.
  destruct (env_speak env (tick w2)) as [e |] eqn:Hspeak.
  - unfold bind at 1. unfold speak at 1. munfold. simpl. rewrite Hspeak.
    simpl. intros H. exfalso. revert H.
    destruct (env_speak env (S (tick w2))); simpl; discriminate.
  - intros _. now exists s, sm, w1, w2.
Qed.

(** X19. The security status command changes nothing of the handler: all
    [handle_security_status] leaves behind are log lines and speech. It
    returns [True] only when the status and the summary of the last 24
    hours were both obtained and the sentence made of the health and of
    the summary's total has been spoken; a status or a summary that is an
    error makes it return [False] or raise. *)
Theorem security_status_command_reports :
  forall (env : Env) (w : World),
    let w' := snd (handle_security_status env w) in
    observed check_event w w'
    /\ (fst (handle_security_status env w) = Return true ->
        exists s sm w1 w2,
          get_system_security_status env w = (Return (StatusReport s), w1)
          /\ get_threat_summary 24 env w1 = (Return (SummaryReport sm), w2)
          /\ env_speak env (tick w2) = None
          /\ last (trace w')
             = Some (EvSay
                       ("System security status: "
                        +:+ health_name (system_health s) +:+ ". "
                        +:+ "Detected "
                        +:+ Str.of_Z (Z.of_nat (Summary.total_threats sm))
                        +:+ " threats in the last 24 hours."))).
Proof.
  intros env w w'. split; [apply keeps_observed_status_command |].
  intros Htrue.
  destruct (handle_security_status_true env w Htrue)
    as (s & sm & w1 & w2 & Hst & Hsm & Hspeak).
  exists s, sm, w1, w2. repeat split; try assumption.
  subst w'. rewrite (handle_security_status_run env w s sm w1 w2 Hst Hsm Hspeak).
  simpl. apply last_pair.
Qed.

Example security_status_command_ex :
  fst (handle_security_status quiet_env
         (set_threat_log three_threats (SecurityHandler ∅)))
  = Return true
  /\ last (trace (snd (handle_security_status quiet_env
                         (set_threat_log three_threats (SecurityHandler ∅)))))
     = Some (EvSay
               "System security status: critical. Detected 2 threats in the last 24 hours.").
Proof. split; vm_compute; reflexivity. Qed.

(** ** Export *)

Lemma join_plain d name :
  d <> "" -> Str.has "/" d = false -> Str.has "/" name = false ->
  Path.join d name = d +:+ "/" +:+ name
  /\ Path.dirname (d +:+ "/" +:+ name) = d
  /\ Path.basename (d +:+ "/" +:+ name) = name.
Proof.
  intros Hd Hsd Hname. unfold Path.join, Path.dirname, Path.basename.
  rewrite (prefix_sep_has "/" _ Hname).
  assert (Hends : Path.ends_with_sep d = false).
  { unfold Path.ends_with_sep. now rewrite (rsplit_no_sep _ _ Hsd). }
  rewrite Hends.
  destruct (String.eqb d "") eqn:Heq; [apply String.eqb_eq in Heq; congruence |].
  cbn [orb].
  change (d +:+ "/" +:+ name) with (d +:+ String "/" name).
  rewrite (rsplit_sep_append "/" d name Hname). now repeat split.
Qed.

Lemma write_file_run env_open_w filepath text env w :
  env_open_w (tick w) = None ->
  Path.dirname filepath = ""
  \/ is_dir (fs w) (Path.dirname filepath) = true ->
  Str.mem (Path.basename filepath) [""; "."; ".."] = false ->
  is_dir (fs w) filepath = false ->
  write_file env_open_w filepath text env w
  = (Return tt,
     set_fs
       (<[ filepath :=
             File text match fs w !! filepath with
                       | Some (File _ readable) => readable
                       | _ => true
                       end ]> (fs w))
       (set_tick (S (tick w)) w)).
Proof.
  intros Hopen Hparent Hbase Hnodir.
  unfold write_file, bind, ask. rewrite Hopen.
  unfold lift_fault, ret, get, modify, raise. cbn [fs set_tick].
  assert (Hp : negb (String.eqb (Path.dirname filepath) "")
               && negb (is_dir (fs w) (Path.dirname filepath)) = false).
  { destruct Hparent as [-> | ->]; [reflexivity | apply andb_false_r]. }
  rewrite Hp, Hbase. unfold is_dir in Hnodir.
  destruct (fs w !! filepath) as [[content r | st_size] |];
    [reflexivity | discriminate | reflexivity].
Qed.

Lemma write_file_no_directory env_open_w filepath text env w :
  Path.dirname filepath <> "" ->
  is_dir (fs w) (Path.dirname filepath) = false ->
  exists e,
    write_file env_open_w filepath text env w
    = (Raise e, set_tick (S (tick w)) w).
Proof.
  intros Hne Hparent.
  unfold write_file, bind, ask.
  destruct (env_open_w (tick w)) as [e |];
    unfold lift_fault, ret, get, modify, raise; [now exists e |].
  cbn [fs set_tick]. rewrite Hparent.
  destruct (String.eqb (Path.dirname filepath) "") eqn:Heq;
    [apply String.eqb_eq in Heq; congruence |].
  cbn [negb andb]. eexists. reflexivity.
Qed.

Lemma export_name_run env w filename :
  (match filename with
   | None | Some "" =>
       let* now := datetime_now in
       ret ("threat_log_" +:+ Datetime.strftime_compact now +:+ ".json")
   | Some given => ret given
   end) env w
  = (Return (fst (export_name env w filename)),
     set_tick (snd (export_name env w filename)) w).
Proof.
  unfold export_name.
  destruct filename as [[| c given] |]; simpl; try reflexivity.
  unfold ret. now destruct w.
Qed.

Lemma export_name_plain env w filename :
  match filename with
  | Some given => Str.has "/" given = false
  | None => True
  end ->
  Str.has "/" (fst (export_name env w filename)) = false.
Proof.
  unfold export_name. destruct filename as [[| c given] |]; simpl fst.
  - intros _. rewrite !has_append, strftime_no_slash. reflexivity.
  - trivial.
  - intros _. rewrite !has_append, strftime_no_slash. reflexivity.
Qed.

(** X20. [export_threat_log] writes into the logs directory it finds and
    never creates it. For a file name without separator (the given one,
    or [threat_log_<timestamp>.json] when none or an empty one is given):
    when [logs] is a directory, the name is not that of a directory and
    [open] does not fail, the call returns [logs/<name>], the file system
    is the old one with the text of the whole log at that path, and the
    log itself is untouched; when [logs] is not a directory it returns
    [None] after one ERROR line and writes nothing. *)
Theorem export_threat_log_writes :
  forall (json_dumps : list ThreatEntry -> list Byte.byte)
         (env_open_w : nat -> option exn)
         (env : Env) (w : World) (filename : option string),
    let name := fst (export_name env w filename) in
    let opened := snd (export_name env w filename) in
    let filepath := "logs/" +:+ name in
    Str.has "/" name = false ->
    (is_dir (fs w) LOGS_DIR = true ->
     Str.mem name [""; "."; ".."] = false ->
     is_dir (fs w) filepath = false ->
     env_open_w opened = None ->
     exists w' readable,
       export_threat_log json_dumps env_open_w filename env w
       = (Return (Some filepath), w')
       /\ fs w'
          = <[ filepath := File (json_dumps (threat_log w)) readable ]> (fs w)
       /\ threat_log w' = threat_log w)
    /\ (is_dir (fs w) LOGS_DIR = false ->
        exists w' msg,
          export_threat_log json_dumps env_open_w filename env w
          = (Return None, w')
          /\ fs w' = fs w
          /\ threat_log w' = threat_log w
          /\ last (trace w')
             = Some (EvLog "ERROR" ("Failed to export threat log: " +:+ msg))).
Proof.
  intros json_dumps env_open_w env w filename name opened filepath Hplain.
  destruct (join_plain LOGS_DIR name) as (Hjoin & Hdir & Hbase);
    [discriminate | reflexivity | exact Hplain |].
  change (LOGS_DIR +:+ "/" +:+ name) with filepath in Hjoin, Hdir, Hbase.
  pose proof (export_name_run env w filename) as Hname.
  fold name in Hname. fold opened in Hname.
  set (w0 := set_tick opened w) in *.
  split.
  - intros Hlogs Hname_ok Hnodir Hopen.
    eexists. eexists. split; [| split].
    + unfold export_threat_log, try_except.
      rewrite (bind_run _ _ _ _ _ _ Hname). cbv zeta. rewrite Hjoin.
      unfold bind at 1. unfold get at 1.
      erewrite bind_run; cycle 1.
      { apply (write_file_run env_open_w filepath
                 (json_dumps (threat_log w0)) env w0).
        - exact Hopen.
        - right. rewrite Hdir. exact Hlogs.
        - rewrite Hbase. exact Hname_ok.
        - exact Hnodir. }
      unfold bind, log_message, when, emit, modify, ret. simpl. reflexivity.
    + reflexivity.
    + reflexivity.
  - intros Hlogs.
    destruct (write_file_no_directory env_open_w filepath
                (json_dumps (threat_log w0)) env w0) as [e He].
    { rewrite Hdir. discriminate. }
    { rewrite Hdir. exact Hlogs. }
    eexists. exists (exn_msg e). split; [| split; [| split]].
    + unfold export_threat_log, try_except.
      rewrite (bind_run _ _ _ _ _ _ Hname). cbv zeta. rewrite Hjoin.
      unfold bind at 1. unfold get at 1.
      unfold bind at 1. rewrite He.
      unfold bind, log_message, when, emit, modify, ret. simpl. reflexivity.
    + reflexivity.
    + reflexivity.
    + simpl. apply last_snoc.
Qed.

Lemma export_threat_log_writes_witness :
  Str.has "/" (fst (export_name quiet_env
                      (set_threat_log three_threats (SecurityHandler with_logs))
                      None)) = false
  /\ exists w',
       export_threat_log one_byte_each (fun _ => None) None quiet_env
         (set_threat_log three_threats (SecurityHandler with_logs))
       = (Return (Some "logs/threat_log_20240301_120000.json"), w')
       /\ fs w' !! "logs/threat_log_20240301_120000.json"
          = Some (File [Byte.x7b; Byte.x7b; Byte.x7b] true).
Proof.
  assert (Hplain :
    Str.has "/" (fst (export_name quiet_env
                        (set_threat_log three_threats
                           (SecurityHandler with_logs)) None)) = false)
    by (vm_compute; reflexivity).
  split; [exact Hplain |].
  destruct (export_threat_log_writes one_byte_each (fun _ => None) quiet_env
              (set_threat_log three_threats (SecurityHandler with_logs))
              None Hplain) as [Hwrites _].
  destruct Hwrites as (w' & readable & Hrun & Hfs & _).
  - vm_compute. reflexivity.
  - vm_compute. reflexivity.
  - vm_compute. reflexivity.
  - reflexivity.
  - exists w'. split.
    + rewrite Hrun. vm_compute. reflexivity.
    + assert (Hw' : w' = snd (export_threat_log one_byte_each (fun _ => None)
                                None quiet_env
                                (set_threat_log three_threats
                                   (SecurityHandler with_logs))))
        by now rewrite Hrun.
      rewrite Hw'. vm_compute. reflexivity.
Defined.

(** ** Resource check: what is reported *)

Lemma when_logged env w (c : bool) threat_type d :
  get_threat_severity threat_type <> high ->
  exists w',
    when c (log_threat threat_type d) env w = (Return tt, w')
    /\ logged (if c then [(threat_type, d)] else []) w w'.
Proof.
  intros Hsev. destruct c; simpl.
  - apply log_threat_logged. now left.
  - exists w. split; [reflexivity | apply logged_nil].
Qed.

(** X21. When the three gauges and the network counters answer,
    [check_system_resources] reports exactly: high_system_cpu above 95,
    high_system_memory above 90, low_disk_space above 95, in this order,
    each with its reading and of low severity; the bounds themselves are
    not reported: readings at or below them leave the log as it is. *)
Theorem check_system_resources_reports :
  forall (env : Env) (w : World) (cpu mem disk : Q),
    (forall t, env_cpu_percent env t = Return cpu) ->
    (forall t, env_virtual_memory env t = Return mem) ->
    (forall t, env_disk_usage env t = Return disk) ->
    (forall t, env_net_io_counters env t = None) ->
    exists w' entries,
      check_system_resources env w = (Return tt, w')
      /\ threat_log w' = log_after (threat_log w) entries
      /\ map call_of entries = resource_threats cpu mem disk
      /\ Forall (fun e => severity e = low) entries
      /\ ((cpu <= 95 # 1)%Q -> (mem <= 90 # 1)%Q -> (disk <= 95 # 1)%Q ->
          entries = []).
Proof.
  intros env w cpu mem disk Hcpu Hmem Hdisk Hnet.
  set (w0 := set_tick (S (tick w)) w).
  destruct (when_logged env w0 (Qgtb cpu (95 # 1)) "high_system_cpu" (DCpu cpu))
    as (w1 & Hrun1 & Hlog1); [discriminate |].
  set (w1' := set_tick (S (tick w1)) w1).
  destruct (when_logged env w1' (Qgtb mem (90 # 1)) "high_system_memory"
              (DMemory mem)) as (w2 & Hrun2 & Hlog2); [discriminate |].
  set (w2' := set_tick (S (tick w2)) w2).
  destruct (when_logged env w2' (Qgtb disk (95 # 1)) "low_disk_space"
              (DDisk disk)) as (w3 & Hrun3 & Hlog3); [discriminate |].
  set (w3' := set_tick (S (tick w3)) w3).
  assert (Htry : check_system_resources_try env w = (Return tt, w3')).
  { unfold check_system_resources_try.
    unfold bind at 1. unfold ask at 1. rewrite Hcpu.
    unfold bind at 1. unfold lift_outcome at 1, ret at 1.
    fold w0. rewrite (bind_run _ _ _ _ _ _ Hrun1).
    unfold bind at 1. unfold ask at 1. rewrite Hmem.
    unfold bind at 1. unfold lift_outcome at 1, ret at 1.
    fold w1'. rewrite (bind_run _ _ _ _ _ _ Hrun2).
    unfold bind at 1. unfold ask at 1. rewrite Hdisk.
    unfold bind at 1. unfold lift_outcome at 1, ret at 1.
    fold w2'. rewrite (bind_run _ _ _ _ _ _ Hrun3).
    unfold bind, ask. rewrite Hnet. reflexivity. }
  assert (Hlog : logged (resource_threats cpu mem disk) w w3').
  { unfold resource_threats.
    pose proof (logged_trans [] _ _ _ _ (logged_tick w (S (tick w))) Hlog1)
      as H1.
    pose proof (logged_trans [] _ _ _ _ (logged_tick w1 (S (tick w1))) Hlog2)
      as H2.
    pose proof (logged_trans [] _ _ _ _ (logged_tick w2 (S (tick w2))) Hlog3)
      as H3.
    pose proof (logged_trans _ _ _ _ _ H1
                  (logged_trans _ _ _ _ _ H2
                     (logged_trans _ _ _ _ _ H3
                        (logged_tick w3 (S (tick w3)))))) as Hall.
    simpl in Hall. rewrite app_nil_r in Hall. exact Hall. }
  destruct (logged_calls _ _ _ Hlog) as (entries & Hcalls & Hsev & Hthreat).
  exists w3', entries. split; [| split; [| split; [| split]]].
  - unfold check_system_resources, try_except. now rewrite Htry.
  - exact Hthreat.
  - exact Hcalls.
  - apply Forall_forall. intros e He. rewrite Forall_forall in Hsev.
    rewrite (Hsev e He).
    assert (Hin : In (call_of e) (resource_threats cpu mem disk)).
    { rewrite <- Hcalls. apply in_map. now apply list_elem_of_In. }
    unfold resource_threats, call_of in Hin.
    destruct (Qgtb cpu (95 # 1)), (Qgtb mem (90 # 1)), (Qgtb disk (95 # 1));
      simpl in Hin;
      intuition (try match goal with
                     | H : (_, _) = (_, _) |- _ =>
                         injection H as H _; rewrite <- H
                     end; reflexivity).
  - intros Hc Hm Hd.
    assert (Hnone : resource_threats cpu mem disk = []).
    { unfold resource_threats, Qgtb.
      apply Qle_bool_iff in Hc, Hm, Hd. now rewrite Hc, Hm, Hd. }
    rewrite Hnone in Hcalls. now destruct entries.
Qed.

Lemma check_system_resources_reports_witness :
  (forall t, env_cpu_percent loaded_env t = Return (90 # 1))
  /\ exists w' entries,
       check_system_resources loaded_env (SecurityHandler ∅) = (Return tt, w')
       /\ threat_log w' = log_after [] entries
       /\ map call_of entries = [("low_disk_space", DDisk (96 # 1))].
Proof.
  split; [reflexivity |].
  destruct (check_system_resources_reports loaded_env (SecurityHandler ∅)
              (90 # 1) (88 # 1) (96 # 1))
    as (w' & entries & Hrun & Hlog & Hcalls & _); try (intros t; reflexivity).
  exists w', entries. split; [exact Hrun |]. split; [exact Hlog |].
  rewrite Hcalls. reflexivity.
Defined.
(** ** Quarantine: the announcement failing, two files of one name *)

(** X22. An answer of [False] from [quarantine_file] does not mean that the
    file is where it was. The announcement is the last step inside the
    [try]: when the speech engine fails there, the file has already been
    moved and the file_quarantined entry logged; the handler logs the ERROR
    line and the method answers [False], as it does for a missing file. *)
Theorem quarantine_fails_after_moving :
  forall (env : Env) (w : World) (file_path : string)
         (content : list Byte.byte) (readable : bool) (e : exn),
    fs w !! file_path = Some (File content readable) ->
    let created := negb (bool_decide (is_Some (fs w !! quarantine_dir))) in
    let t := if created then S (tick w) else tick w in
    let quarantine_path := quarantine_path_of file_path (env_now env t) in
    (if created
     then env_makedirs env (tick w) = None
          /\ existsb (is_file (fs w)) (Path.prefixes "" quarantine_dir) = false
     else is_dir (fs w) quarantine_dir = true) ->
    is_dir (fs w) quarantine_path = false ->
    env_move env (S t) = None ->
    env_speak env (S (S (S (S t)))) = Some e ->
    exists w' before,
      quarantine_file file_path env w = (Return false, w')
      /\ fs w' !! file_path = None
      /\ fs w' !! quarantine_path = Some (File content readable)
      /\ threat_log w'
         = slice_last 1000
             (threat_log w
              ++ [ {| timestamp := env_now env (S (S (S t)));
                      threat_type := "file_quarantined";
                      details :=
                        DQuarantine file_path quarantine_path
                          (env_now env (S (S t)));
                      severity := low |} ])
      /\ trace w'
         = (trace w ++ before
            ++ [EvLog "ERROR"
                  ("Failed to quarantine file " +:+ file_path +:+ ": "
                   +:+ exn_msg e)])%list
      /\ Forall (fun ev => match ev with EvSay _ => False | _ => True end)
           before.
Proof.
  intros env w file_path content readable e Hfile created t quarantine_path
         Hdir Hfree Hmove Hspeak.
  destruct (quarantine_file_run env w file_path content readable Hfile Hdir
              Hfree Hmove)
    as (w' & Hrun & Hfs & _ & _ & _ & Hlog & said & Htrace & Hsaid).
  fold created t quarantine_path in Hrun, Hfs, Hlog, Htrace, Hsaid.
  rewrite Hspeak in Hrun, Hsaid. subst said.
  eexists w', _. split; [exact Hrun |].
  split; [| split; [| split; [exact Hlog | split; [| ]]]].
  - rewrite Hfs. rewrite lookup_insert_ne by apply quarantine_path_of_fresh.
    apply lookup_delete_eq.
  - rewrite Hfs. apply lookup_insert_eq.
  - exact Htrace.
  - repeat constructor.
Qed.

Lemma quarantine_fails_after_moving_witness :
  fs (SecurityHandler downloads) !! "downloads/evil.exe"
  = Some (File evil_exe true)
  /\ exists w',
       quarantine_file "downloads/evil.exe" mute_env
         (SecurityHandler downloads)
       = (Return false, w')
       /\ fs w' !! "downloads/evil.exe" = None.
Proof.
  assert (Hfile : fs (SecurityHandler downloads) !! "downloads/evil.exe"
                  = Some (File evil_exe true)) by (vm_compute; reflexivity).
  split; [exact Hfile |].
  destruct (quarantine_fails_after_moving mute_env (SecurityHandler downloads)
              "downloads/evil.exe" evil_exe true
              (Exn "RuntimeError" "run loop already started") Hfile)
    as (w' & before & Hrun & Hgone & _).
  - vm_compute. split; reflexivity.
  - vm_compute. reflexivity.
  - vm_compute. reflexivity.
  - vm_compute. reflexivity.
  - exists w'. split; [exact Hrun | exact Hgone].
Defined.

Lemma quarantine_path_of_same p1 p2 t1 t2 :
  Path.basename p1 = Path.basename p2 ->
  Datetime.strftime_compact t1 = Datetime.strftime_compact t2 ->
  quarantine_path_of p2 t2 = quarantine_path_of p1 t1.
Proof. intros Hb Ht. unfold quarantine_path_of. now rewrite Hb, Ht. Qed.

(** X23. The quarantine name is [<timestamp>_<basename>] with a timestamp of
    one second's resolution. Two files of the same base name quarantined
    within one second get the same destination: both calls answer [True],
    both entries of the log name that destination, and it holds the second
    file's content; the first file's content is at no path any more. *)
Theorem quarantine_same_second_overwrites :
  forall (env : Env) (w : World) (p1 p2 : string)
         (c1 c2 : list Byte.byte) (r1 r2 : bool),
    fs w !! p1 = Some (File c1 r1) ->
    fs w !! p2 = Some (File c2 r2) ->
    p1 <> p2 ->
    Path.basename p1 = Path.basename p2 ->
    let created := negb (bool_decide (is_Some (fs w !! quarantine_dir))) in
    let t := if created then S (tick w) else tick w in
    let files := if created then makedirs_fs quarantine_dir (fs w) else fs w in
    let quarantine_path := quarantine_path_of p1 (env_now env t) in
    (if created
     then env_makedirs env (tick w) = None
          /\ existsb (is_file (fs w)) (Path.prefixes "" quarantine_dir) = false
     else is_dir (fs w) quarantine_dir = true) ->
    is_dir (fs w) quarantine_path = false ->
    (forall n, env_move env n = None) ->
    (forall n, env_speak env n = None) ->
    Datetime.strftime_compact (env_now env (S (S (S (S (S t))))))
    = Datetime.strftime_compact (env_now env t) ->
    exists w1 w2,
      quarantine_file p1 env w = (Return true, w1)
      /\ quarantine_file p2 env w1 = (Return true, w2)
      /\ fs w1 !! quarantine_path = Some (File c1 r1)
      /\ fs w2
         = <[quarantine_path := File c2 r2]> (delete p2 (delete p1 files))
      /\ threat_log w2
         = slice_last 1000
             (slice_last 1000
                (threat_log w
                 ++ [ {| timestamp := env_now env (S (S (S t)));
                         threat_type := "file_quarantined";
                         details :=
                           DQuarantine p1 quarantine_path
                             (env_now env (S (S t)));
                         severity := low |} ])
              ++ [ {| timestamp := env_now env (S (S (S (S (S (S (S (S t))))))));
                      threat_type := "file_quarantined";
                      details :=
                        DQuarantine p2 quarantine_path
                          (env_now env (S (S (S (S (S (S (S t))))))));
                      severity := low |} ]).
Proof.
  intros env w p1 p2 c1 c2 r1 r2 Hp1 Hp2 Hne Hbase created t files
         quarantine_path Hdir Hfree Hmove Hspeak Hsecond.
  destruct (quarantine_path_of_deep p1 (env_now env t)) as [_ Hdeep].
  fold quarantine_path in Hdeep.
  assert (Hfresh2 : quarantine_path <> p2).
  { unfold quarantine_path.
    rewrite <- (quarantine_path_of_same p1 p2 (env_now env t) (env_now env t)
                  Hbase eq_refl).
    apply quarantine_path_of_fresh. }
  assert (Hfiles2 : files !! p2 = Some (File c2 r2)).
  { subst files. destruct created; [| exact Hp2].
    apply makedirs_quarantine_file; [exact Hp2 | apply Hdir]. }
  destruct (quarantine_file_run env w p1 c1 r1 Hp1 Hdir Hfree (Hmove _))
    as (w1 & Hrun1 & Hfs1 & Hdir1 & Hfiles1 & Htick1 & Hlog1 & _).
  fold created t files quarantine_path in Hrun1, Hfs1, Hdir1, Hfiles1, Htick1,
    Hlog1.
  rewrite Hspeak in Hrun1.
  assert (Hw1p2 : fs w1 !! p2 = Some (File c2 r2)).
  { rewrite Hfs1, lookup_insert_ne, lookup_delete_ne by congruence.
    exact Hfiles2. }
  assert (Hw1dir : is_dir (fs w1) quarantine_dir = true).
  { unfold is_dir. rewrite Hfs1.
    rewrite lookup_insert_ne by exact Hdeep.
    rewrite lookup_delete_ne; [exact Hdir1 |].
    intros ->. unfold is_dir in Hdir1. now rewrite Hfiles1 in Hdir1. }
  assert (Hthere : bool_decide (is_Some (fs w1 !! quarantine_dir)) = true).
  { apply bool_decide_eq_true. unfold is_dir in Hw1dir.
    destruct (fs w1 !! quarantine_dir); [eauto | discriminate]. }
  pose proof (quarantine_file_run env w1 p2 c2 r2 Hw1p2) as Hsecond_run.
  cbv zeta in Hsecond_run. rewrite Hthere in Hsecond_run.
  cbn [negb] in Hsecond_run. cbv iota in Hsecond_run.
  rewrite Htick1 in Hsecond_run.
  rewrite (quarantine_path_of_same p1 p2 (env_now env t) _ Hbase
             (eq_sym Hsecond)) in Hsecond_run.
  fold quarantine_path in Hsecond_run.
  assert (Hw1q : fs w1 !! quarantine_path = Some (File c1 r1)).
  { rewrite Hfs1. apply lookup_insert_eq. }
  destruct Hsecond_run
    as (w2 & Hrun2 & Hfs2 & _ & _ & _ & Hlog2 & _).
  - exact Hw1dir.
  - unfold is_dir. now rewrite Hw1q.
  - apply Hmove.
  - rewrite Hspeak in Hrun2.
    exists w1, w2. split; [exact Hrun1 |]. split; [exact Hrun2 |].
    split; [exact Hw1q |]. split.
    + rewrite Hfs2, Hfs1.
      rewrite delete_insert_ne by (intros Heq; apply Hfresh2; now symmetry).
      apply insert_insert_eq.
    + rewrite Hlog2, Hlog1. reflexivity.
Qed.

Lemma quarantine_same_second_overwrites_witness :
  (fs (SecurityHandler two_downloads) !! "mail/invoice.exe"
   = Some (File [Byte.x4d; Byte.x5a] true)
   /\ fs (SecurityHandler two_downloads) !! "usb/invoice.exe"
      = Some (File evil_exe true))
  /\ exists w1 w2,
       quarantine_file "mail/invoice.exe" quiet_env
         (SecurityHandler two_downloads) = (Return true, w1)
       /\ quarantine_file "usb/invoice.exe" quiet_env w1 = (Return true, w2)
       /\ fs w2
          = {[ "data" := Dir 4096;
               "data/quarantine" := Dir 4096;
               "data/quarantine/20240301_120000_invoice.exe"
               := File evil_exe true ]}.
Proof.
  assert (Hp1 : fs (SecurityHandler two_downloads) !! "mail/invoice.exe"
                = Some (File [Byte.x4d; Byte.x5a] true))
    by (vm_compute; reflexivity).
  assert (Hp2 : fs (SecurityHandler two_downloads) !! "usb/invoice.exe"
                = Some (File evil_exe true)) by (vm_compute; reflexivity).
  split; [split; [exact Hp1 | exact Hp2] |].
  destruct (quarantine_same_second_overwrites quiet_env
              (SecurityHandler two_downloads)
              "mail/invoice.exe" "usb/invoice.exe"
              [Byte.x4d; Byte.x5a] evil_exe true true Hp1 Hp2)
    as (w1 & w2 & Hrun1 & Hrun2 & _ & Hfs & _).
  - discriminate.
  - vm_compute. reflexivity.
  - vm_compute. split; reflexivity.
  - vm_compute. reflexivity.
  - intros n. reflexivity.
  - intros n. reflexivity.
  - vm_compute. reflexivity.
  - exists w1, w2. split; [exact Hrun1 |]. split; [exact Hrun2 |].
    rewrite Hfs. vm_compute. reflexivity.
Defined.
